(** * pdf-unite: the merge session of [src/App.tsx]

    A shallow embedding of the application component [App] and of the
    library calls it makes, followed by the properties of the merge-session
    specification settled against it.

    Layout:
    - [JS]        strings as sequences of UTF-16 code units, exceptions;
    - [Base64js]  the [base64-js] codec that [Buffer] delegates to;
    - [BufferPkg] [Buffer.from(s, 'base64')] and [buf.toString('base64')]
                  of the [buffer] package imported by [App.tsx];
    - [App]       the component: items, state, handlers, merge assembly;
    - the lemmas and theorems. *)

From Stdlib Require Import ZArith List Bool Lia Permutation.
From Stdlib.Strings Require Import String Ascii Byte.
From Stdlib Require Import DecimalString DecimalPos DecimalZ.
Import ListNotations.

Open Scope Z_scope.

(* ===================================================================== *)
(** ** JavaScript values used by the program *)
(* ===================================================================== *)

Module JS.

(** A JavaScript string is a sequence of UTF-16 code units. *)
Definition jsstring := list Z.

(** An ASCII literal of the source as a [jsstring]. *)
Definition str (s : string) : jsstring :=
  map (fun a => Z.of_N (N_of_ascii a)) (list_ascii_of_string s).

Definition eqb (s t : jsstring) : bool :=
  if list_eq_dec Z.eq_dec s t then true else false.

(** [s.length] *)
Definition length {A} (s : list A) : Z := Z.of_nat (List.length s).

(** [s.charCodeAt(i)]: [None] stands for [NaN] (index out of range). *)
Definition charCodeAt (s : jsstring) (i : Z) : option Z :=
  if i <? 0 then None else nth_error s (Z.to_nat i).

(** [s.indexOf(c)] for a one-character needle: first position, or -1. *)
Fixpoint indexOf_from (c : Z) (s : jsstring) (i : Z) : Z :=
  match s with
  | [] => -1
  | x :: r => if x =? c then i else indexOf_from c r (i + 1)
  end.

Definition indexOf (s : jsstring) (c : Z) : Z := indexOf_from c s 0.

(** [s.split(c)[0]]: the part of [s] before the first [c]. *)
Fixpoint split_head (c : Z) (s : jsstring) : jsstring :=
  match s with
  | [] => []
  | x :: r => if x =? c then [] else x :: split_head c r
  end.

(** ECMAScript [WhiteSpace] and [LineTerminator] code units, the ones
    [String.prototype.trim] removes. *)
Definition isWhiteSpace (c : Z) : bool :=
  (c =? 9) || (c =? 10) || (c =? 11) || (c =? 12) || (c =? 13) || (c =? 32)
  || (c =? 160) || (c =? 5760) || ((8192 <=? c) && (c <=? 8202))
  || (c =? 8232) || (c =? 8233) || (c =? 8239) || (c =? 8287)
  || (c =? 12288) || (c =? 65279).

Fixpoint trimStart (s : jsstring) : jsstring :=
  match s with
  | [] => []
  | x :: r => if isWhiteSpace x then trimStart r else s
  end.

Definition trimEnd (s : jsstring) : jsstring := rev (trimStart (rev s)).

(** [s.trim()] *)
Definition trim (s : jsstring) : jsstring := trimEnd (trimStart s).

(** Number to string for an integer, as a template literal [`${n}`]
    renders it: decimal digits, with a minus sign when negative. *)
Definition toString10 (n : Z) : jsstring :=
  str (NilZero.string_of_int (Z.to_int n)).

(** The outcome of a call that may throw: [Throw] carries [e.message]. *)
Inductive result (A : Type) : Type :=
| Ok (a : A)
| Throw (message : jsstring).
Arguments Ok {A} a.
Arguments Throw {A} message.

(** A [Uint8Array] element store: the value is taken modulo 256. *)
Definition toUint8 (z : Z) : byte :=
  match Byte.of_N (Z.to_N (z mod 256)) with
  | Some b => b
  | None => x00
  end.

(** Reading an element of a [Uint8Array] as a number. *)
Definition ofUint8 (b : byte) : Z := Z.of_N (Byte.to_N b).

(** [a[i]] used under a bit operator: [undefined] (out of range) acts as 0. *)
Definition getUint8 (a : list byte) (i : Z) : Z :=
  if i <? 0 then 0
  else match nth_error a (Z.to_nat i) with
       | Some b => ofUint8 b
       | None => 0
       end.

(** [a.slice(start, end)] for [0 <= start]. *)
Definition slice {A} (a : list A) (start end_ : Z) : list A :=
  firstn (Z.to_nat (end_ - start)) (skipn (Z.to_nat start) a).

End JS.

Import JS.

(* ===================================================================== *)
(** ** base64-js: [toByteArray] and [fromByteArray] *)
(* ===================================================================== *)

Module Base64js.

(** [var code = 'ABC...+/'] *)
Definition code : jsstring :=
  str "ABCDEFGHIJKLMNOPQRSTUVWXYZabcdefghijklmnopqrstuvwxyz0123456789+/".

(** [lookup[i]]: a one-character string; an index outside the table gives
    [undefined], which string concatenation renders as the word. *)
Definition lookup (i : Z) : jsstring :=
  match charCodeAt code i with
  | Some c => [c]
  | None => str "undefined"
  end.

(** [revLookup[c]]: the table built from [code], with the URL-safe
    characters '-' (45) and '_' (95) added as 62 and 63. *)
Definition revLookup (c : Z) : option Z :=
  if c =? 45 then Some 62
  else if c =? 95 then Some 63
  else let i := indexOf code c in if i =? -1 then None else Some i.

(** [revLookup[b64.charCodeAt(i)]] as an operand of a bit operator:
    [undefined] converts to 0. *)
Definition rev64 (b64 : jsstring) (i : Z) : Z :=
  match charCodeAt b64 i with
  | Some c => match revLookup c with Some v => v | None => 0 end
  | None => 0
  end.

(** [getLens(b64)]: throws when the length is not a multiple of 4. *)
Definition getLens (b64 : jsstring) : result (Z * Z) :=
  let len := length b64 in
  if len mod 4 >? 0
  then Throw (str "Invalid string. Length must be a multiple of 4")
  else
    let validLen := indexOf b64 61 in
    let validLen := if validLen =? -1 then len else validLen in
    let placeHoldersLen := if validLen =? len then 0 else 4 - validLen mod 4 in
    Ok (validLen, placeHoldersLen).

Definition _byteLength (validLen placeHoldersLen : Z) : Z :=
  (validLen + placeHoldersLen) * 3 / 4 - placeHoldersLen.

(** The main loop of [toByteArray]:
    [for (i = 0; i < len; i += 4) { tmp = ...; arr[curByte++] = ... }].
    Returns the final [i] and the bytes stored, in order.  Each round moves
    [i] forward by 4, so [fuel] rounds are enough when [len - i <= 4 * fuel]. *)
Fixpoint toByteArray_loop (fuel : nat) (b64 : jsstring) (len i : Z)
  : Z * list byte :=
  match fuel with
  | O => (i, [])
  | S fuel' =>
      if i <? len then
        let tmp :=
          Z.lor (Z.lor (Z.lor (Z.shiftl (rev64 b64 i) 18)
                              (Z.shiftl (rev64 b64 (i + 1)) 12))
                       (Z.shiftl (rev64 b64 (i + 2)) 6))
                (rev64 b64 (i + 3)) in
        let '(i', out) := toByteArray_loop fuel' b64 len (i + 4) in
        (i', toUint8 (Z.land (Z.shiftr tmp 16) 255)
             :: toUint8 (Z.land (Z.shiftr tmp 8) 255)
             :: toUint8 (Z.land tmp 255) :: out)
      else (i, [])
  end.

(** [toByteArray(b64)].  The result array is allocated with [_byteLength]
    zeroed elements ([new Uint8Array(n)] throws for a negative [n]) and is
    filled from index 0: stores past its end are dropped and elements
    never stored stay 0. *)
Definition toByteArray (b64 : jsstring) : result (list byte) :=
  match getLens b64 with
  | Throw m => Throw m
  | Ok (validLen, placeHoldersLen) =>
      let n := _byteLength validLen placeHoldersLen in
      if n <? 0 then
        Throw (str "Invalid typed array length: " ++ toString10 n)
      else
        let len := if placeHoldersLen >? 0 then validLen - 4 else validLen in
        let '(i, main) := toByteArray_loop (Z.to_nat len) b64 len 0 in
        let two :=
          if placeHoldersLen =? 2 then
            let tmp := Z.lor (Z.shiftl (rev64 b64 i) 2)
                             (Z.shiftr (rev64 b64 (i + 1)) 4) in
            [toUint8 (Z.land tmp 255)]
          else [] in
        let one :=
          if placeHoldersLen =? 1 then
            let tmp := Z.lor (Z.lor (Z.shiftl (rev64 b64 i) 10)
                                    (Z.shiftl (rev64 b64 (i + 1)) 4))
                             (Z.shiftr (rev64 b64 (i + 2)) 2) in
            [toUint8 (Z.land (Z.shiftr tmp 8) 255); toUint8 (Z.land tmp 255)]
          else [] in
        Ok (firstn (Z.to_nat n)
              (main ++ two ++ one ++ repeat x00 (Z.to_nat n)))
  end.

Definition tripletToBase64 (num : Z) : jsstring :=
  lookup (Z.land (Z.shiftr num 18) 63) ++
  lookup (Z.land (Z.shiftr num 12) 63) ++
  lookup (Z.land (Z.shiftr num 6) 63) ++
  lookup (Z.land num 63).

(** [encodeChunk(uint8, start, end)]:
    [for (i = start; i < end; i += 3) output.push(tripletToBase64(tmp))],
    joined. *)
Fixpoint encodeChunk_loop (fuel : nat) (uint8 : list byte) (i end_ : Z)
  : jsstring :=
  match fuel with
  | O => []
  | S fuel' =>
      if i <? end_ then
        let tmp :=
          Z.land (Z.shiftl (getUint8 uint8 i) 16) 16711680
          + Z.land (Z.shiftl (getUint8 uint8 (i + 1)) 8) 65280
          + Z.land (getUint8 uint8 (i + 2)) 255 in
        tripletToBase64 tmp ++ encodeChunk_loop fuel' uint8 (i + 3) end_
      else []
  end.

Definition encodeChunk (uint8 : list byte) (start end_ : Z) : jsstring :=
  encodeChunk_loop (Z.to_nat (end_ - start)) uint8 start end_.

Definition maxChunkLength : Z := 16383.

(** The chunk loop of [fromByteArray]:
    [for (i = 0; i < len2; i += maxChunkLength) parts.push(encodeChunk(...))]. *)
Fixpoint fromByteArray_loop (fuel : nat) (uint8 : list byte) (i len2 : Z)
  : jsstring :=
  match fuel with
  | O => []
  | S fuel' =>
      if i <? len2 then
        encodeChunk uint8 i
          (if i + maxChunkLength >? len2 then len2 else i + maxChunkLength)
        ++ fromByteArray_loop fuel' uint8 (i + maxChunkLength) len2
      else []
  end.

(** [fromByteArray(uint8)] *)
Definition fromByteArray (uint8 : list byte) : jsstring :=
  let len := length uint8 in
  let extraBytes := len mod 3 in
  let len2 := len - extraBytes in
  let parts := fromByteArray_loop (Z.to_nat len2) uint8 0 len2 in
  let last :=
    if extraBytes =? 1 then
      let tmp := getUint8 uint8 (len - 1) in
      lookup (Z.shiftr tmp 2) ++ lookup (Z.land (Z.shiftl tmp 4) 63)
      ++ str "=="
    else if extraBytes =? 2 then
      let tmp := Z.shiftl (getUint8 uint8 (len - 2)) 8
                 + getUint8 uint8 (len - 1) in
      lookup (Z.shiftr tmp 10) ++ lookup (Z.land (Z.shiftr tmp 4) 63)
      ++ lookup (Z.land (Z.shiftl tmp 2) 63) ++ str "="
    else [] in
  parts ++ last.

End Base64js.

(* ===================================================================== *)
(** ** buffer: the base64 encoding of [Buffer] *)
(* ===================================================================== *)

Module BufferPkg.

(** The complement of [INVALID_BASE64_RE = /[^+/0-9A-Za-z-_]/g]. *)
Definition isBase64Char (c : Z) : bool :=
  (c =? 43) || (c =? 47) || ((48 <=? c) && (c <=? 57))
  || ((65 <=? c) && (c <=? 90)) || ((97 <=? c) && (c <=? 122))
  || (c =? 45) || (c =? 95).

(** [while (str.length % 4 !== 0) str = str + '='] *)
Fixpoint padLoop (fuel : nat) (s : jsstring) : jsstring :=
  match fuel with
  | O => s
  | S fuel' => if length s mod 4 =? 0 then s else padLoop fuel' (s ++ [61])
  end.

(** [base64clean(str)]: cut at the first '=', trim, drop every character
    outside the alphabet, give '' for fewer than two characters, pad. *)
Definition base64clean (s : jsstring) : jsstring :=
  let s := split_head 61 s in
  let s := filter isBase64Char (trim s) in
  if length s <? 2 then [] else padLoop 3 s.

Definition base64ToBytes (s : jsstring) : result (list byte) :=
  Base64js.toByteArray (base64clean s).

(** [Buffer.from(string, 'base64')] *)
Definition from_base64 (s : jsstring) : result (list byte) := base64ToBytes s.

(** [Buffer.from(bytes)]: a copy of the bytes. *)
Definition from_bytes (bytes : list byte) : list byte := bytes.

(** [buf.toString('base64')] *)
Definition toString_base64 (buf : list byte) : jsstring :=
  Base64js.fromByteArray buf.

End BufferPkg.

(* ===================================================================== *)
(** ** The libraries and the device [App.tsx] runs against *)
(* ===================================================================== *)

(** pdf-lib.  A [PDFDocument] is modelled by its sequence of pages; the
    parser, the serializer and the blank page are left to the library. *)
Record PdfLib := {
  Page : Type;
  (** [PDFDocument.load(bytes)]: the parsed document, or the parse error. *)
  PDFDocument_load : list byte -> result (list Page);
  (** [PDFPage.create(doc)]: the blank page [doc.addPage()] adds when it
      is given no page. *)
  PDFPage_create : Page;
  (** [PDFWriter.forContext(...).serializeToBuffer()]: the bytes written
      for a sequence of pages. *)
  PDFWriter_serializeToBuffer : list Page -> list byte
}.

Module PDFDocument.
Section WithLib.
Context {L : PdfLib}.

Definition t : Type := list (Page L).

(** [PDFDocument.create()]: a document with no page. *)
Definition create : t := [].

Definition getPageCount (doc : t) : Z := length doc.

(** [doc.getPageIndices()]: [0, 1, ..., getPageCount() - 1]. *)
Definition getPageIndices (doc : t) : list Z :=
  map Z.of_nat (seq 0 (List.length doc)).

(** [dst.copyPages(src, indices)]: the pages of [src] at [indices], in the
    order of [indices]; an index with no page makes the call fail. *)
Fixpoint copyPages (src : t) (indices : list Z) : result (list (Page L)) :=
  match indices with
  | [] => Ok []
  | i :: rest =>
      match (if i <? 0 then None else nth_error src (Z.to_nat i)) with
      | None => Throw (str "Cannot read properties of undefined")
      | Some p =>
          match copyPages src rest with
          | Ok ps => Ok (p :: ps)
          | Throw m => Throw m
          end
      end
  end.

(** [doc.addPage(page)]: the page is appended after the existing ones. *)
Definition addPage (doc : t) (page : Page L) : t := doc ++ [page].

(** [prepareForSave(options)] with the default [addDefaultPage]:
    [if (this.getPageCount() === 0) this.addPage()], a document with no
    page is given one blank page. *)
Definition prepareForSave (doc : t) : t :=
  if getPageCount doc =? 0 then addPage doc (PDFPage_create L) else doc.

(** [doc.save()]: what is serialized is the document prepared for saving. *)
Definition save (doc : t) : list byte :=
  PDFWriter_serializeToBuffer L (prepareForSave doc).

End WithLib.
End PDFDocument.

(* ===================================================================== *)
(** ** App.tsx *)
(* ===================================================================== *)

Module App.

(** [type PdfItem = { id; name; uri; pages }] *)
Record PdfItem := {
  id : jsstring;
  name : jsstring;
  uri : jsstring;
  pages : Z
}.

(** [Platform.OS] *)
Inductive OS := ios | android | windows | macos | web.

(** What the device fixes for a run: the platform and the directories
    expo-file-system reports. *)
Record Device := {
  Platform_OS : OS;
  cacheDirectory : option jsstring;
  documentDirectory : option jsstring
}.

(** What a button of an alert does when pressed.  The closures built by
    [onPressMerge] capture the name chosen and, through [buildMergedPdf],
    the item list [data] of the render they were created in. *)
Inductive Action :=
| ActRemove (id : jsstring)
| ActSave (finalName : jsstring) (data : list PdfItem)
| ActShare (finalName : jsstring) (data : list PdfItem).

Record Button := {
  text : jsstring;
  onPress : option Action
}.

(** One call of [Alert.alert(title, message, buttons)]. *)
Record Alert := {
  title : jsstring;
  message : option jsstring;
  buttons : list Button
}.

(** The world outside the component.
    - [files uri] is what [FileSystem.readAsStringAsync(uri, base64)]
      resolves to, or the error it rejects with; a file is kept as the
      base64 text of its bytes, so a read gives back what a write stored;
    - [writeError uri] is the error a write to [uri] rejects with, if any;
    - [shareError uri] is the error the share sheet rejects with when it
      is handed [uri], if any;
    - [clock n] is the value of the [n]-th call of [Date.now()];
    - [alerts], [console] and [shared] record what was shown, logged and
      handed to the share sheet, latest last. *)
Record World := {
  files : jsstring -> result jsstring;
  writeError : jsstring -> option jsstring;
  shareError : jsstring -> option jsstring;
  clock : nat -> Z;
  ticks : nat;
  alerts : list Alert;
  console : list jsstring;
  shared : list jsstring
}.

(** ** Asynchronous code: world passing with exceptions

    An [async] function is a function of the world that returns a value
    or the message of the error thrown, and the world it leaves.  Each
    handler runs to its end before the next one starts. *)

Module IO.

Definition M (A : Type) : Type := World -> result A * World.

Definition ret {A} (a : A) : M A := fun w => (Ok a, w).

Definition bind {A B} (m : M A) (k : A -> M B) : M B :=
  fun w => match m w with
           | (Ok a, w') => k a w'
           | (Throw e, w') => (Throw e, w')
           end.

Definition throw {A} (e : jsstring) : M A := fun w => (Throw e, w).

(** A synchronous call that may throw. *)
Definition lift {A} (r : result A) : M A := fun w => (r, w).

(** [try { body } catch (e) { handler(e.message) }] *)
Definition tryCatch {A} (body : M A) (handler : jsstring -> M A) : M A :=
  fun w => match body w with
           | (Ok a, w') => (Ok a, w')
           | (Throw e, w') => handler e w'
           end.

Definition update (f : World -> World) : M unit := fun w => (Ok tt, f w).

End IO.

Import IO.

Notation "x <- m ;; k" := (IO.bind m (fun x => k))
  (at level 61, m at next level, right associativity).
Notation "m ;;; k" := (IO.bind m (fun _ => k))
  (at level 61, right associativity).

Definition set_files (f : jsstring -> result jsstring) (w : World) : World :=
  {| files := f; writeError := writeError w;
     shareError := shareError w; clock := clock w;
     ticks := ticks w; alerts := alerts w; console := console w;
     shared := shared w |}.

(** [Date.now()] *)
Definition Date_now : M Z :=
  fun w => (Ok (clock w (ticks w)),
            {| files := files w; writeError := writeError w;
               shareError := shareError w; clock := clock w;
               ticks := S (ticks w); alerts := alerts w; console := console w;
               shared := shared w |}).

Definition push_alert (a : Alert) (w : World) : World :=
  {| files := files w; writeError := writeError w;
     shareError := shareError w; clock := clock w;
     ticks := ticks w; alerts := alerts w ++ [a]; console := console w;
     shared := shared w |}.

(** [Alert.alert(title, message, buttons)] *)
Definition Alert_alert (title : jsstring) (message : option jsstring)
  (buttons : list Button) : M unit :=
  IO.update (push_alert {| title := title; message := message;
                           buttons := buttons |}).

(** [console.error(label, e)] *)
Definition console_error (label : jsstring) (e : jsstring) : M unit :=
  IO.update (fun w =>
    {| files := files w; writeError := writeError w;
       shareError := shareError w; clock := clock w;
       ticks := ticks w; alerts := alerts w;
       console := console w ++ [label ++ e]; shared := shared w |}).

Module FileSystem.

(** [FileSystem.readAsStringAsync(uri, { encoding: 'base64' })] *)
Definition readAsStringAsync (uri : jsstring) : M jsstring :=
  fun w => (files w uri, w).

Definition put (uri : jsstring) (content : jsstring)
  (f : jsstring -> result jsstring) : jsstring -> result jsstring :=
  fun u => if JS.eqb u uri then Ok content else f u.

(** [FileSystem.writeAsStringAsync(uri, contents, { encoding: 'base64' })] *)
Definition writeAsStringAsync (uri contents : jsstring) : M unit :=
  fun w => match writeError w uri with
           | Some e => (Throw e, w)
           | None => (Ok tt, set_files (put uri contents (files w)) w)
           end.

(** [FileSystem.copyAsync({ from, to })] *)
Definition copyAsync (from to : jsstring) : M unit :=
  fun w => match files w from with
           | Throw e => (Throw e, w)
           | Ok content =>
               match writeError w to with
               | Some e => (Throw e, w)
               | None => (Ok tt, set_files (put to content (files w)) w)
               end
           end.

End FileSystem.

(** [Sharing.shareAsync(uri)] *)
Definition Sharing_shareAsync (uri : jsstring) : M unit :=
  fun w =>
    match shareError w uri with
    | Some e => (Throw e, w)
    | None =>
        (Ok tt,
         {| files := files w; writeError := writeError w;
            shareError := shareError w; clock := clock w;
            ticks := ticks w; alerts := alerts w; console := console w;
            shared := shared w ++ [uri] |})
    end.

(** What [DocumentPicker.getDocumentAsync] resolves to. *)
Record Asset := {
  asset_uri : jsstring;
  asset_name : option jsstring
}.

Inductive PickerResult :=
| Canceled
| Picked (assets : list Asset).

(** [s.startsWith(prefix)] *)
Fixpoint startsWith (s prefix : jsstring) : bool :=
  match prefix, s with
  | [], _ => true
  | _ :: _, [] => false
  | p :: prefix', c :: s' => (c =? p) && startsWith s' prefix'
  end.

Definition MAX_TOTAL_PAGES : Z := 150.

(** The texts of the source, as code units. *)

(* 'cacheDirectory が取得できません' *)
Definition msg_no_cache : jsstring :=
  [99; 97; 99; 104; 101; 68; 105; 114; 101; 99; 116; 111; 114; 121; 32;
   12364; 21462; 24471; 12391; 12365; 12414; 12379; 12435].
(* 'PDF読み込みエラー:' *)
Definition log_load_error : jsstring :=
  [80; 68; 70; 35501; 12415; 36796; 12415; 12456; 12521; 12540; 58].
(* 'PDF結合エラー:' *)
Definition log_merge_error : jsstring :=
  [80; 68; 70; 32080; 21512; 12456; 12521; 12540; 58].
(* 'PDFの読み込みに失敗しました' *)
Definition title_load_failed : jsstring :=
  [80; 68; 70; 12398; 35501; 12415; 36796; 12415; 12395; 22833; 25943;
   12375; 12414; 12375; 12383].
(* '削除確認' *)
Definition title_delete_confirm : jsstring := [21066; 38500; 30906; 35469].
(* 'このPDFを削除しますか？' *)
Definition msg_delete_confirm : jsstring :=
  [12371; 12398; 80; 68; 70; 12434; 21066; 38500; 12375; 12414; 12377;
   12363; 65311].
(* 'キャンセル' *)
Definition text_cancel : jsstring := [12461; 12515; 12531; 12475; 12523].
(* '削除' *)
Definition text_delete : jsstring := [21066; 38500].
(* '保存先ディレクトリが取得できません' *)
Definition msg_no_dir : jsstring :=
  [20445; 23384; 20808; 12487; 12451; 12524; 12463; 12488; 12522; 12364;
   21462; 24471; 12391; 12365; 12414; 12379; 12435].
(* 'PDFを2つ以上選択してください' *)
Definition title_too_few : jsstring :=
  [80; 68; 70; 12434; 50; 12388; 20197; 19978; 36984; 25246; 12375; 12390;
   12367; 12384; 12373; 12356].
(* 'ページ数上限を超えています' *)
Definition title_limit : jsstring :=
  [12506; 12540; 12472; 25968; 19978; 38480; 12434; 36229; 12360; 12390;
   12356; 12414; 12377].
(* '合計 ' *)
Definition limit_a : jsstring := [21512; 35336; 32].
(* ' ページです。\n\n本アプリでは ' *)
Definition limit_b : jsstring :=
  [32; 12506; 12540; 12472; 12391; 12377; 12290; 10; 10; 26412; 12450;
   12503; 12522; 12391; 12399; 32].
(* ' ページまで結合できます。' *)
Definition limit_c : jsstring :=
  [32; 12506; 12540; 12472; 12414; 12391; 32080; 21512; 12391; 12365;
   12414; 12377; 12290].
(* 'PDF結合' *)
Definition title_merge : jsstring := [80; 68; 70; 32080; 21512].
(* 'ファイル名：\n' *)
Definition merge_a : jsstring :=
  [12501; 12449; 12452; 12523; 21517; 65306; 10].
(* '\n\n' *)
Definition merge_b : jsstring := [10; 10].
(* '件\n合計 ' *)
Definition merge_c : jsstring := [20214; 10; 21512; 35336; 32].
(* ' ページ' *)
Definition merge_d : jsstring := [32; 12506; 12540; 12472].
(* 'ファイルを保存する' *)
Definition text_save : jsstring :=
  [12501; 12449; 12452; 12523; 12434; 20445; 23384; 12377; 12427].
(* 'ファイルを共有する' *)
Definition text_share : jsstring :=
  [12501; 12449; 12452; 12523; 12434; 20849; 26377; 12377; 12427].
(* '完了' *)
Definition title_done : jsstring := [23436; 20102].
(* 'ファイルを保存しました' *)
Definition msg_saved : jsstring :=
  [12501; 12449; 12452; 12523; 12434; 20445; 23384; 12375; 12414; 12375;
   12383].
(* '保存に失敗しました' *)
Definition title_save_failed : jsstring :=
  [20445; 23384; 12395; 22833; 25943; 12375; 12414; 12375; 12383].
(* '共有に失敗しました' *)
Definition title_share_failed : jsstring :=
  [20849; 26377; 12395; 22833; 25943; 12375; 12414; 12375; 12383].
(* 'Webでは共有できません' *)
Definition title_no_web_share : jsstring :=
  [87; 101; 98; 12391; 12399; 20849; 26377; 12391; 12365; 12414; 12379;
   12435].

(** [base64ToUint8Array = base64 => Uint8Array.from(Buffer.from(base64, 'base64'))] *)
Definition base64ToUint8Array (base64 : jsstring) : result (list byte) :=
  BufferPkg.from_base64 base64.

(** [uint8ArrayToBase64 = bytes => Buffer.from(bytes).toString('base64')] *)
Definition uint8ArrayToBase64 (bytes : list byte) : jsstring :=
  BufferPkg.toString_base64 (BufferPkg.from_bytes bytes).

(** A string used as a condition: '' is falsy. *)
Definition truthy (o : option jsstring) : bool :=
  match o with
  | Some (_ :: _) => true
  | _ => false
  end.

(** [normalizePdfUri(uri)] *)
Definition normalizePdfUri (dev : Device) (uri : jsstring) : M jsstring :=
  match Platform_OS dev with
  | android =>
      if negb (startsWith uri (str "content://")) then IO.ret uri
      else
        match cacheDirectory dev with
        | Some (c :: cacheDir') =>
            let cacheDir := c :: cacheDir' in
            now <- Date_now ;;
            let fileName := str "tmp_" ++ toString10 now ++ str ".pdf" in
            let dest := cacheDir ++ fileName in
            FileSystem.copyAsync uri dest ;;;
            IO.ret dest
        | _ => IO.throw msg_no_cache
        end
  | _ => IO.ret uri
  end.

(** The component state: [useState] of [data], [fileName] and [merging]. *)
Record State := {
  data : list PdfItem;
  fileName : jsstring;
  merging : bool
}.

(** [/\.pdf$/i] tried at the start of [s]: a dot, then p, d and f in either
    case (no other code unit canonicalizes to P, D or F), then the end of
    the input. *)
Definition match_dot_pdf_end (s : jsstring) : bool :=
  match s with
  | [c0; c1; c2; c3] =>
      (c0 =? 46) && ((c1 =? 112) || (c1 =? 80))
      && ((c2 =? 100) || (c2 =? 68)) && ((c3 =? 102) || (c3 =? 70))
  | _ => false
  end.

(** [s.replace(/\.pdf$/i, '')]: the match is looked for from each start
    position in turn, and the first one found is replaced by ''. *)
Fixpoint replace_dot_pdf (s : jsstring) : jsstring :=
  match s with
  | [] => []
  | c :: r => if match_dot_pdf_end s then [] else c :: replace_dot_pdf r
  end.

(** [getDefaultMergedName()] *)
Definition getDefaultMergedName (data : list PdfItem) : jsstring :=
  match data with
  | [] => str "merged.pdf"
  | first :: _ =>
      let base := replace_dot_pdf (name first) in
      base ++ str "_merged.pdf"
  end.

(** [setData(update)] followed by the effect registered on [data]:
    [useEffect(() => setFileName(getDefaultMergedName()), [data])].
    Every update of the source builds a new array, so the effect runs. *)
Definition setData (update : list PdfItem -> list PdfItem) (st : State)
  : State :=
  let data' := update (data st) in
  {| data := data';
     fileName := getDefaultMergedName data';
     merging := merging st |}.

(** [setFileName(text)], the [onChangeText] of the name field. *)
Definition setFileName (text : jsstring) (st : State) : State :=
  {| data := data st; fileName := text; merging := merging st |}.

Definition setMerging (b : bool) (st : State) : State :=
  {| data := data st; fileName := fileName st; merging := b |}.

(** The first render: empty list, and the effect sets the default name. *)
Definition initial : State :=
  {| data := []; fileName := getDefaultMergedName []; merging := false |}.

Section WithLib.
Context {L : PdfLib}.
Variable dev : Device.

(** The body of the [for] loop of [pickPdf] for [file = result.assets[i]]:
    the item it pushes. *)
Definition pickPdf_item (file : Asset) (i : Z) : M PdfItem :=
  safeUri <- normalizePdfUri dev (asset_uri file) ;;
  base64 <- FileSystem.readAsStringAsync safeUri ;;
  bytes <- IO.lift (base64ToUint8Array base64) ;;
  pdf <- IO.lift (PDFDocument_load L bytes) ;;
  now <- Date_now ;;
  IO.ret {| id := toString10 now ++ str "-" ++ toString10 i;
            name := match asset_name file with
                    | Some n => n
                    | None => str "unknown.pdf"
                    end;
            uri := safeUri;
            pages := PDFDocument.getPageCount pdf |}.

(** [for (let i = 0; i < result.assets.length; i++) { ...; items.push(...) }]
    from index [i] on; [items] is the array filled so far. *)
Fixpoint pickPdf_loop (assets : list Asset) (i : Z) (items : list PdfItem)
  : M (list PdfItem) :=
  match assets with
  | [] => IO.ret items
  | file :: rest =>
      item <- pickPdf_item file i ;;
      pickPdf_loop rest (i + 1) (items ++ [item])
  end.

(** [pickPdf()], given what the document picker resolved to. *)
Definition pickPdf (result : PickerResult) (st : State) : M State :=
  match result with
  | Canceled => IO.ret st
  | Picked assets =>
      IO.tryCatch
        (items <- pickPdf_loop assets 0 [] ;;
         IO.ret (setData (fun prev => prev ++ items) st))
        (fun e =>
           console_error log_load_error e ;;;
           Alert_alert title_load_failed (Some e) [] ;;;
           IO.ret st)
  end.

(** [removePdf(id)]: the confirmation dialog. *)
Definition removePdf (id : jsstring) : M unit :=
  Alert_alert title_delete_confirm (Some msg_delete_confirm)
    [ {| text := text_cancel; onPress := None |};
      {| text := text_delete; onPress := Some (ActRemove id) |} ].

(** The [onPress] of the delete button:
    [setData(prev => prev.filter(p => p.id !== id))]. *)
Definition removePdf_onPress (id' : jsstring) (st : State) : State :=
  setData (filter (fun p => negb (JS.eqb (id p) id'))) st.

(** [totalPages = data.reduce((sum, p) => sum + p.pages, 0)].  Page
    counts are integers, on which the addition of numbers is exact. *)
Definition totalPages (data : list PdfItem) : Z :=
  fold_left (fun sum p => sum + pages p) data 0.

(** The [for (const item of data)] loop of [buildMergedPdf]. *)
Fixpoint buildMergedPdf_loop (data : list PdfItem)
  (mergedPdf : @PDFDocument.t L) : M (@PDFDocument.t L) :=
  match data with
  | [] => IO.ret mergedPdf
  | item :: rest =>
      base64 <- FileSystem.readAsStringAsync (uri item) ;;
      bytes <- IO.lift (base64ToUint8Array base64) ;;
      pdf <- IO.lift (PDFDocument_load L bytes) ;;
      pages <- IO.lift (PDFDocument.copyPages pdf
                          (PDFDocument.getPageIndices pdf)) ;;
      buildMergedPdf_loop rest (fold_left PDFDocument.addPage pages mergedPdf)
  end.

(** [buildMergedPdf(finalName)] over the item list [data] of the render. *)
Definition buildMergedPdf (data : list PdfItem) (finalName : jsstring)
  : M jsstring :=
  IO.tryCatch
    (mergedPdf <- buildMergedPdf_loop data PDFDocument.create ;;
     let mergedBytes := PDFDocument.save mergedPdf in
     let mergedBase64 := uint8ArrayToBase64 mergedBytes in
     let dir := match cacheDirectory dev with
                | Some d => Some d
                | None => documentDirectory dev
                end in
     match dir with
     | Some (c :: d) =>
         let uri := (c :: d) ++ finalName in
         FileSystem.writeAsStringAsync uri mergedBase64 ;;;
         IO.ret uri
     | _ => IO.throw msg_no_dir
     end)
    (fun e => console_error log_merge_error e ;;; IO.throw e).

(** [onPressMerge()] *)
Definition onPressMerge (st : State) : M unit :=
  if length (data st) <? 2 then
    Alert_alert title_too_few None []
  else if totalPages (data st) >? MAX_TOTAL_PAGES then
    Alert_alert title_limit
      (Some (limit_a ++ toString10 (totalPages (data st)) ++ limit_b
             ++ toString10 MAX_TOTAL_PAGES ++ limit_c))
      []
  else
    let finalName :=
      if negb (JS.eqb (trim (fileName st)) [])
      then fileName st
      else getDefaultMergedName (data st) in
    Alert_alert title_merge
      (Some (merge_a ++ finalName ++ merge_b
             ++ toString10 (length (data st)) ++ merge_c
             ++ toString10 (totalPages (data st)) ++ merge_d))
      [ {| text := text_cancel; onPress := None |};
        {| text := text_save;
           onPress := Some (ActSave finalName (data st)) |};
        {| text := text_share;
           onPress := Some (ActShare finalName (data st)) |} ].

(** The [onPress] of the save button. *)
Definition save_onPress (finalName : jsstring) (data : list PdfItem)
  (st : State) : M State :=
  let st := setMerging true st in
  IO.tryCatch
    (buildMergedPdf data finalName ;;;
     Alert_alert title_done (Some msg_saved) [])
    (fun e => Alert_alert title_save_failed (Some e) []) ;;;
  IO.ret (setMerging false st).

(** The [onPress] of the share button. *)
Definition share_onPress (finalName : jsstring) (data : list PdfItem)
  (st : State) : M State :=
  let st := setMerging true st in
  IO.tryCatch
    (uri <- buildMergedPdf data finalName ;;
     match Platform_OS dev with
     | web => Alert_alert title_no_web_share None []
     | _ => Sharing_shareAsync uri
     end)
    (fun e => Alert_alert title_share_failed (Some e) []) ;;;
  IO.ret (setMerging false st).

(** Pressing a button of an alert. *)
Definition press (b : Button) (st : State) : M State :=
  match onPress b with
  | None => IO.ret st
  | Some (ActRemove id') => IO.ret (removePdf_onPress id' st)
  | Some (ActSave finalName data0) => save_onPress finalName data0 st
  | Some (ActShare finalName data0) => share_onPress finalName data0 st
  end.

(** [onDragEnd={({ data }) => setData(data)}]: the list handed over by the
    drag-and-drop list replaces the item list. *)
Definition onDragEnd (data' : list PdfItem) (st : State) : result State :=
  Ok (setData (fun _ => data') st).

End WithLib.

End App.

Import App.

(* ===================================================================== *)
(** * Definitions used to state the properties *)
(* ===================================================================== *)

(** ** Base64 as RFC 4648 lays it out, on groups of three bytes *)

Module Rfc.

(** The character of a 6-bit value. *)
Definition sextet (i : Z) : Z := nth (Z.to_nat i) Base64js.code 0.

Abbreviation triple := (byte * byte * byte)%type.

Definition bytes3 (t : triple) : list byte :=
  let '(a, b, c) := t in [a; b; c].

(** The bytes of a sequence of whole groups. *)
Definition flat3 (ts : list triple) : list byte := flat_map bytes3 ts.

(** The 24-bit number of a group. *)
Definition num3 (t : triple) : Z :=
  let '(a, b, c) := t in ofUint8 a * 65536 + ofUint8 b * 256 + ofUint8 c.

(** Four characters for a whole group. *)
Definition enc3 (t : triple) : jsstring :=
  let n := num3 t in
  [sextet (n / 262144 mod 64); sextet (n / 4096 mod 64);
   sextet (n / 64 mod 64); sextet (n mod 64)].

(** The characters of the last, incomplete group, without the padding. *)
Definition encTail (tail : list byte) : jsstring :=
  match tail with
  | [a] => [sextet (ofUint8 a / 4); sextet (ofUint8 a * 16 mod 64)]
  | [a; b] =>
      let n := ofUint8 a * 256 + ofUint8 b in
      [sextet (n / 1024); sextet (n / 16 mod 64); sextet (n * 4 mod 64)]
  | _ => []
  end.

(** The padding of the last group. *)
Definition padding (tail : list byte) : jsstring :=
  match tail with
  | [_] => [61; 61]
  | [_; _] => [61]
  | _ => []
  end.

(** The unpadded text of [ts] followed by [tail]. *)
Definition body (ts : list triple) (tail : list byte) : jsstring :=
  flat_map enc3 ts ++ encTail tail.

(** The encoding of [ts] followed by an incomplete group [tail]. *)
Definition encode (ts : list triple) (tail : list byte) : jsstring :=
  body ts tail ++ padding tail.

(** Cuts a buffer into whole groups and the incomplete last one. *)
Fixpoint groups (l : list byte) : list triple * list byte :=
  match l with
  | a :: b :: c :: r => let '(ts, tail) := groups r in ((a, b, c) :: ts, tail)
  | _ => ([], l)
  end.

(** What the table must satisfy at a 6-bit value [i]: [lookup] gives the
    one character [sextet i], [revLookup] maps it back, and the character
    is in the alphabet of [base64clean], is not '=' and is not white space. *)
Definition sextet_ok (i : Z) : bool :=
  JS.eqb (Base64js.lookup i) [sextet i]
  && match Base64js.revLookup (sextet i) with
     | Some j => j =? i
     | None => false
     end
  && BufferPkg.isBase64Char (sextet i)
  && negb (sextet i =? 61)
  && negb (isWhiteSpace (sextet i)).

End Rfc.

(** The buffer holding every byte value once, 0 to 255. *)
Definition all_bytes : list byte := map toUint8 (map Z.of_nat (seq 0 256)).

(** ** Well-formed base64 text, in the words of the specification *)

Module Spec.

(** The alphabet of the encoding: A-Z, a-z, 0-9, '+' and '/'. *)
Definition isAlphabetChar (c : Z) : bool :=
  ((65 <=? c) && (c <=? 90)) || ((97 <=? c) && (c <=? 122))
  || ((48 <=? c) && (c <=? 57)) || (c =? 43) || (c =? 47).

(** A text is well formed when its length is a multiple of four, every
    character before the padding is in the alphabet, and the padding is
    at most two '=' at the very end. *)
Definition wellFormed (t : jsstring) : bool :=
  let b := split_head 61 t in
  let pad := skipn (List.length b) t in
  (length t mod 4 =? 0)
  && forallb isAlphabetChar b
  && (JS.eqb pad [] || JS.eqb pad [61] || JS.eqb pad [61; 61]).

(** A text with a character outside the alphabet, or with invalid padding
    or length. *)
Definition malformed (t : jsstring) : bool := negb (wellFormed t).

(** *** The default output name *)

(** ASCII lower case of a code unit. *)
Definition lower (c : Z) : Z :=
  if (65 <=? c) && (c <=? 90) then c + 32 else c.

(** [suf] is '.pdf' up to the case of its letters. *)
Definition isDotPdf (suf : jsstring) : bool :=
  JS.eqb (map lower suf) (str ".pdf").

(** A name without its trailing '.pdf', compared without regard to case;
    a name with no such ending is left as it is. *)
Definition stripPdfSuffix (n : jsstring) : jsstring :=
  let k := (List.length n - 4)%nat in
  if isDotPdf (skipn k n) then firstn k n else n.

(** *** The total *)

(** The sum of [pageCount] over the items. *)
Fixpoint sumPages (items : list PdfItem) : Z :=
  match items with
  | [] => 0
  | p :: rest => pages p + sumPages rest
  end.

(** One completed operation on the session: a batch added by [pickPdf],
    an item removed by the delete button, or the list reordered by a drag. *)
Inductive sessionOp {L : PdfLib} (dev : Device) : State -> State -> Prop :=
| op_add (result : PickerResult) (st st' : State) (w w' : World) :
    pickPdf (L := L) dev result st w = (Ok st', w') -> sessionOp dev st st'
| op_remove (id' : jsstring) (st : State) :
    sessionOp dev st (removePdf_onPress id' st)
| op_reorder (data' : list PdfItem) (st st' : State) :
    onDragEnd data' st = Ok st' -> sessionOp dev st st'.

(** *** Merge validation *)

Inductive Violation :=
| TooFewItems
| PageLimitExceeded (actual limit : Z).

(** The dialog [onPressMerge] shows for a violation: no button carries an
    action. *)
Definition violationAlert (v : Violation) : Alert :=
  match v with
  | TooFewItems =>
      {| title := title_too_few; message := None; buttons := [] |}
  | PageLimitExceeded actual limit =>
      {| title := title_limit;
         message := Some (limit_a ++ toString10 actual ++ limit_b
                          ++ toString10 limit ++ limit_c);
         buttons := [] |}
  end.

(** The confirmation dialog of a merge of [data] under [finalName]: the
    save and share buttons carry the merge request. *)
Definition confirmAlert (finalName : jsstring) (data : list PdfItem)
  : Alert :=
  {| title := title_merge;
     message := Some (merge_a ++ finalName ++ merge_b
                      ++ toString10 (length data) ++ merge_c
                      ++ toString10 (totalPages data) ++ merge_d);
     buttons :=
       [ {| text := text_cancel; onPress := None |};
         {| text := text_save; onPress := Some (ActSave finalName data) |};
         {| text := text_share;
            onPress := Some (ActShare finalName data) |} ] |}.

(** Pressing the merge button shows exactly the dialog [a] and does
    nothing else. *)
Definition shows (st : State) (a : Alert) : Prop :=
  forall w, onPressMerge st w = (Ok tt, push_alert a w).

(** The commit is rejected with violation [v]. *)
Definition rejectedWith (st : State) (v : Violation) : Prop :=
  shows st (violationAlert v).

(** The commit passes validation: the merge is offered under some name. *)
Definition passes (st : State) : Prop :=
  exists finalName, shows st (confirmAlert finalName (data st)).

(** A name field that is empty or holds white space only. *)
Definition blank (s : jsstring) : bool := forallb isWhiteSpace s.

(** The name a merge is to run under: the default name of the session
    when the name field is blank, the text of the field otherwise. *)
Definition mergeName (st : State) : jsstring :=
  if blank (fileName st) then getDefaultMergedName (data st)
  else fileName st.

(** *** Merge assembly *)

(** In world [w] the location of [item] reads, decodes and parses as the
    document [doc]. *)
Definition loadsAs {L : PdfLib} (w : World) (item : PdfItem)
  (doc : list (Page L)) : Prop :=
  exists t bytes,
    files w (uri item) = Ok t
    /\ base64ToUint8Array t = Ok bytes
    /\ PDFDocument_load L bytes = Ok doc.

(** [dir] is the directory the output is written to on device [dev]. *)
Definition saveDir (dev : Device) (dir : jsstring) : Prop :=
  (cacheDirectory dev = Some dir
   \/ (cacheDirectory dev = None /\ documentDirectory dev = Some dir))
  /\ dir <> [].

(** The number of output pages that come before those of item [i]. *)
Definition pagesBefore (data : list PdfItem) (i : nat) : nat :=
  Z.to_nat (sumPages (firstn i data)).

(** *** Loading a batch *)

(** The assets of a batch load one after the other, from index [i] in
    world [w], giving [items] and leaving world [w']. *)
Inductive loadsBatch {L : PdfLib} (dev : Device)
  : list Asset -> Z -> World -> list PdfItem -> World -> Prop :=
| batch_nil (i : Z) (w : World) : loadsBatch dev [] i w [] w
| batch_cons (file : Asset) (rest : list Asset) (i : Z) (w w1 w2 : World)
    (item : PdfItem) (items : list PdfItem) :
    pickPdf_item (L := L) dev file i w = (Ok item, w1) ->
    loadsBatch dev rest (i + 1) w1 items w2 ->
    loadsBatch dev (file :: rest) i w (item :: items) w2.

(** *** Reordering *)

(** [ids] is a permutation of the ids of the items [data]. *)
Definition isPermutationOfIds (ids : list jsstring) (data : list PdfItem)
  : Prop :=
  Permutation ids (map id data).

(** The dialog [pickPdf] shows when loading fails with message [e]. *)
Definition loadFailedAlert (e : jsstring) : Alert :=
  {| title := title_load_failed; message := Some e; buttons := [] |}.

End Spec.

(** ** Concrete sessions, documents and devices for the examples *)

Module Demo.

(** A stand-in for pdf-lib over one-byte pages: a serialized document is
    a '%' followed by its pages; any other buffer fails to parse.  The
    blank page is a space. *)
Definition lib : PdfLib :=
  {| Page := byte;
     PDFDocument_load := fun bytes =>
       match bytes with
       | "%"%byte :: pages => Ok pages
       | _ => Throw (str "Failed to parse PDF document")
       end;
     PDFPage_create := " "%byte;
     PDFWriter_serializeToBuffer := fun pages => "%"%byte :: pages |}.

Definition device : Device :=
  {| Platform_OS := ios;
     cacheDirectory := Some (str "file:///cache/");
     documentDirectory := Some (str "file:///docs/") |}.

Definition item (i n : string) (p : Z) : PdfItem :=
  {| id := str i; name := str n; uri := str "file:///in/" ++ str n;
     pages := p |}.

Definition session (items : list PdfItem) (field : jsstring) : State :=
  {| data := items; fileName := field; merging := false |}.

(** One document of 151 pages. *)
Definition one_big : State :=
  session [item "1700000000000-0" "big.pdf" 151] (str "big_merged.pdf").

(** Two documents, 100 and 50 pages. *)
Definition two_ok (field : jsstring) : State :=
  session [item "1700000000000-0" "Report.pdf" 100;
           item "1700000000000-1" "annex.pdf" 50] field.

(** Two documents, 100 and 51 pages. *)
Definition two_over : State :=
  session [item "1700000000000-0" "Report.pdf" 100;
           item "1700000000000-1" "annex.pdf" 51] (str "Report_merged.pdf").

(** Two documents, 4 and 6 pages. *)
Definition ten : State :=
  session [item "1700000000000-0" "a.pdf" 4;
           item "1700000000000-1" "b.pdf" 6] (str "a_merged.pdf").

(** The base64 text of the file of a document. *)
Definition fileOf (pages : list byte) : jsstring :=
  uint8ArrayToBase64 (PDFDocument.save (L := lib) pages).

(** A file system holding a.pdf (2 pages) and c.pdf (3 pages), and b.pdf,
    which is no PDF; every other read fails.  The clock stands still. *)
Definition world : World :=
  {| files := fun u =>
       if JS.eqb u (str "file:///in/a.pdf")
       then Ok (fileOf (list_byte_of_string "AB"))
       else if JS.eqb u (str "file:///in/b.pdf")
       then Ok (uint8ArrayToBase64 (list_byte_of_string "not a pdf"))
       else if JS.eqb u (str "file:///in/c.pdf")
       then Ok (fileOf (list_byte_of_string "CDE"))
       else Throw (str "File does not exist");
     writeError := fun _ => None;
     shareError := fun _ => None;
     clock := fun _ => 1700000000000;
     ticks := 0%nat;
     alerts := [];
     console := [];
     shared := [] |}.

Definition asset (n : string) : Asset :=
  {| asset_uri := str "file:///in/" ++ str n; asset_name := Some (str n) |}.

(** A document of 5 pages with an id of its own. *)
Definition five : PdfItem := item "1700000000001-0" "e.pdf" 5.

(** The items of a.pdf and c.pdf as [pickPdf] makes them in [world]. *)
Definition item_a : PdfItem := item "1700000000000-0" "a.pdf" 2.
Definition item_c : PdfItem := item "1700000000000-0" "c.pdf" 3.

(** The session after a.pdf is picked, and then c.pdf in a second pick,
    with the clock of [world]. *)
Definition after_two_picks : result State :=
  match pickPdf (L := lib) device (Picked [asset "a.pdf"]) initial world with
  | (Ok st1, w1) =>
      fst (pickPdf (L := lib) device (Picked [asset "c.pdf"]) st1 w1)
  | (Throw e, _) => Throw e
  end.

End Demo.

(* ===================================================================== *)
(** ** App.tsx: the rows of the list *)
(* ===================================================================== *)

Module AppView.

(** [a.findIndex(pred)]: the first position where [pred] holds, or -1. *)
Fixpoint findIndex_from {A} (pred : A -> bool) (a : list A) (i : Z) : Z :=
  match a with
  | [] => -1
  | x :: r => if pred x then i else findIndex_from pred r (i + 1)
  end.

Definition findIndex {A} (pred : A -> bool) (a : list A) : Z :=
  findIndex_from pred a 0.

(* ' ページ' *)
Definition text_pages : jsstring := [32; 12506; 12540; 12472].

(** What a row shows and does: the number [index + 1], the name, the
    text [`${item.pages} ページ`], and [removePdf(item.id)] on the cross. *)
Record Row := {
  row_number : Z;
  row_name : jsstring;
  row_pages : jsstring;
  row_onRemove : IO.M unit
}.

(** [renderItem({ item })] over the item list [data] of the render. *)
Definition renderItem (data : list PdfItem) (item : PdfItem) : Row :=
  let index := findIndex (fun p => JS.eqb (id p) (id item)) data in
  {| row_number := index + 1;
     row_name := name item;
     row_pages := toString10 (pages item) ++ text_pages;
     row_onRemove := removePdf (id item) |}.

(** The rows of [<DraggableFlatList data={data} renderItem={renderItem}>]. *)
Definition rows (data : list PdfItem) : list Row :=
  map (renderItem data) data.

End AppView.

(* ===================================================================== *)
(** ** Definitions used to state the further properties *)
(* ===================================================================== *)

Module Run.

(** The id [pickPdf] makes from a clock reading and an index. *)
Definition mkId (now i : Z) : jsstring :=
  toString10 now ++ str "-" ++ toString10 i.

(** The clock of [w] never gives the same reading twice. *)
Definition clockNeverRepeats (w : World) : Prop :=
  forall n m : nat, clock w n = clock w m -> n = m.

(** The id of [item] was made from a reading the clock of [w] has already
    given. *)
Definition madeBefore (w : World) (item : PdfItem) : Prop :=
  exists (k : nat) (j : Z),
    (k < ticks w)%nat /\ 0 <= j /\ id item = mkId (clock w k) j.

(** One handler of the component run to its end, from a state and a world
    to the state and the world it leaves. *)
Inductive handler {L : PdfLib} (dev : Device)
  : State * World -> State * World -> Prop :=
| run_pick (result : PickerResult) (st st' : State) (w w' : World) :
    pickPdf (L := L) dev result st w = (Ok st', w') ->
    handler dev (st, w) (st', w')
| run_remove (id' : jsstring) (st : State) (w : World) :
    handler dev (st, w) (removePdf_onPress id' st, w)
| run_drag (data' : list PdfItem) (st st' : State) (w : World) :
    Permutation data' (data st) ->
    onDragEnd data' st = Ok st' ->
    handler dev (st, w) (st', w)
| run_edit (text : jsstring) (st : State) (w : World) :
    handler dev (st, w) (setFileName text st, w)
| run_merge (st : State) (w w' : World) :
    onPressMerge st w = (Ok tt, w') ->
    handler dev (st, w) (st, w')
| run_press (b : Button) (st st' : State) (w w' : World) :
    press (L := L) dev b st w = (Ok st', w') ->
    handler dev (st, w) (st', w').

(** Any number of handlers, one after the other. *)
Inductive handlers {L : PdfLib} (dev : Device)
  : State * World -> State * World -> Prop :=
| run_none (s : State * World) : handlers dev s s
| run_then (s s' s'' : State * World) :
    handlers dev s s' -> handler (L := L) dev s' s'' ->
    handlers dev s s''.

(** The ids of the session are pairwise different, each was made from a
    reading already given, and the clock is that of [w0]. *)
Definition wellIdentified (w0 : World) (s : State * World) : Prop :=
  clock (snd s) = clock w0
  /\ NoDup (map id (data (fst s)))
  /\ Forall (madeBefore (snd s)) (data (fst s)).

(** The alphabet characters of a text before its first '='. *)
Definition kept (t : jsstring) : jsstring :=
  filter BufferPkg.isBase64Char (split_head 61 t).

(** The URL-safe characters '-' and '_' written as '+' and '/'. *)
Definition standardChar (c : Z) : Z :=
  if c =? 45 then 43 else if c =? 95 then 47 else c.

End Run.

(** Sample values on Android: a device with a cache directory, and a file
    system holding two picked documents behind content:// locations; the
    clock stands still. *)
Module Samples.

Definition android : Device :=
  {| Platform_OS := android;
     cacheDirectory := Some (str "file:///cache/");
     documentDirectory := None |}.

Definition picked : World :=
  {| files := fun u =>
       if JS.eqb u (str "content://docs/7")
       then Ok (Demo.fileOf (list_byte_of_string "AB"))
       else if JS.eqb u (str "content://docs/8")
       then Ok (Demo.fileOf (list_byte_of_string "CDE"))
       else Throw (str "File does not exist");
     writeError := fun _ => None;
     shareError := fun _ => None;
     clock := fun _ => 1700000000000;
     ticks := 0%nat;
     alerts := [];
     console := [];
     shared := [] |}.

Definition tmp : jsstring := str "file:///cache/tmp_1700000000000.pdf".

(** The files of [Demo.world] with a clock that moves on by one at every
    reading. *)
Definition ticking : World :=
  {| files := files Demo.world;
     writeError := fun _ => None;
     shareError := fun _ => None;
     clock := fun n => Z.of_nat n + 1700000000000;
     ticks := 0%nat;
     alerts := [];
     console := [];
     shared := [] |}.

(** The state and the world after one more pick. *)
Definition after (s : State * World) (r : PickerResult) : State * World :=
  match pickPdf (L := Demo.lib) Demo.device r (fst s) (snd s) with
  | (Ok st, w) => (st, w)
  | (Throw _, w) => (fst s, w)
  end.

(** a.pdf and c.pdf picked together, then a.pdf once more. *)
Definition once : State * World :=
  after (initial, ticking) (Picked [Demo.asset "a.pdf"; Demo.asset "c.pdf"]).
Definition twice : State * World :=
  after once (Picked [Demo.asset "a.pdf"]).

(** A file system holding e.pdf and f.pdf, two documents without a page,
    and x.pdf (10 pages) and y.pdf (5 pages); the clock stands still. *)
Definition shelf : World :=
  {| files := fun u =>
       if JS.eqb u (str "file:///in/e.pdf") || JS.eqb u (str "file:///in/f.pdf")
       then Ok (uint8ArrayToBase64
                  (PDFWriter_serializeToBuffer Demo.lib []))
       else if JS.eqb u (str "file:///in/x.pdf")
       then Ok (Demo.fileOf (list_byte_of_string "0123456789"))
       else if JS.eqb u (str "file:///in/y.pdf")
       then Ok (Demo.fileOf (list_byte_of_string "abcde"))
       else Throw (str "File does not exist");
     writeError := fun _ => None;
     shareError := fun _ => None;
     clock := fun _ => 1700000000000;
     ticks := 0%nat;
     alerts := [];
     console := [];
     shared := [] |}.

(** The session of e.pdf and f.pdf, no page each. *)
Definition page_less : list PdfItem :=
  [Demo.item "1700000000000-0" "e.pdf" 0;
   Demo.item "1700000000000-1" "f.pdf" 0].

(** The state and the world after the two content:// documents of
    [picked] (2 and 3 pages) are picked together on [android]. *)
Definition android_pick : result State * World :=
  pickPdf (L := Demo.lib) android
    (Picked [ {| asset_uri := str "content://docs/7";
                 asset_name := Some (str "a.pdf") |};
              {| asset_uri := str "content://docs/8";
                 asset_name := Some (str "c.pdf") |} ])
    initial picked.

Definition android_items : list PdfItem :=
  match fst android_pick with
  | Ok st => data st
  | Throw _ => []
  end.

(** x.pdf picked, then y.pdf in a second pick at the same clock reading. *)
Definition shelf_x : State * World :=
  match pickPdf (L := Demo.lib) Demo.device (Picked [Demo.asset "x.pdf"])
          initial shelf with
  | (Ok st, w) => (st, w)
  | (Throw _, w) => (initial, w)
  end.

Definition shelf_xy : State * World :=
  match pickPdf (L := Demo.lib) Demo.device (Picked [Demo.asset "y.pdf"])
          (fst shelf_x) (snd shelf_x) with
  | (Ok st, w) => (st, w)
  | (Throw _, w) => (fst shelf_x, w)
  end.

End Samples.

(* ===================================================================== *)
(** * Properties *)
(* ===================================================================== *)

(** ** Lists, indices and strings *)

Lemma length_app_Z {A} (p s : list A) : length (p ++ s) = length p + length s.
Proof. unfold length. rewrite List.length_app. lia. Qed.

Lemma length_nonneg {A} (s : list A) : 0 <= length s.
Proof. unfold length. lia. Qed.

Lemma charCodeAt_shift p s i :
  0 <= i -> charCodeAt (p ++ s) (length p + i) = charCodeAt s i.
Proof.
  intros Hi. unfold charCodeAt, length.
  destruct (Z.ltb_spec (Z.of_nat (List.length p) + i) 0); [lia |].
  destruct (Z.ltb_spec i 0); [lia |].
  replace (Z.to_nat (Z.of_nat (List.length p) + i))
    with (List.length p + Z.to_nat i)%nat by lia.
  rewrite nth_error_app2 by lia. f_equal. lia.
Qed.

Lemma getUint8_shift p s i :
  0 <= i -> getUint8 (p ++ s) (length p + i) = getUint8 s i.
Proof.
  intros Hi. unfold getUint8, length.
  destruct (Z.ltb_spec (Z.of_nat (List.length p) + i) 0); [lia |].
  destruct (Z.ltb_spec i 0); [lia |].
  replace (Z.to_nat (Z.of_nat (List.length p) + i))
    with (List.length p + Z.to_nat i)%nat by lia.
  rewrite nth_error_app2 by lia.
  replace (List.length p + Z.to_nat i - List.length p)%nat
    with (Z.to_nat i) by lia.
  reflexivity.
Qed.

Lemma indexOf_from_absent c s i :
  ~ In c s -> indexOf_from c s i = -1.
Proof.
  revert i. induction s as [| x r IH]; intros i Hn; simpl; [reflexivity |].
  destruct (Z.eqb_spec x c) as [-> | _].
  - exfalso. apply Hn. now left.
  - apply IH. intros Hin. apply Hn. now right.
Qed.

Lemma indexOf_from_first c p s i :
  ~ In c p -> indexOf_from c (p ++ c :: s) i = i + length p.
Proof.
  revert i. induction p as [| x r IH]; intros i Hn; simpl.
  - rewrite Z.eqb_refl. unfold length. simpl. lia.
  - destruct (Z.eqb_spec x c) as [-> | _].
    + exfalso. apply Hn. now left.
    + rewrite IH by (intros Hin; apply Hn; now right).
      unfold length. cbn [List.length]. lia.
Qed.

Lemma split_head_absent c s : ~ In c s -> split_head c s = s.
Proof.
  induction s as [| x r IH]; intros Hn; simpl; [reflexivity |].
  destruct (Z.eqb_spec x c) as [-> | _].
  - exfalso. apply Hn. now left.
  - f_equal. apply IH. intros Hin. apply Hn. now right.
Qed.

Lemma split_head_first c p s : ~ In c p -> split_head c (p ++ c :: s) = p.
Proof.
  induction p as [| x r IH]; intros Hn; simpl.
  - now rewrite Z.eqb_refl.
  - destruct (Z.eqb_spec x c) as [-> | _].
    + exfalso. apply Hn. now left.
    + f_equal. apply IH. intros Hin. apply Hn. now right.
Qed.

Lemma trimStart_id s :
  Forall (fun c => isWhiteSpace c = false) s -> trimStart s = s.
Proof.
  intros H. destruct H as [| x r Hx _]; simpl; [reflexivity |].
  now rewrite Hx.
Qed.

Lemma trim_id s :
  Forall (fun c => isWhiteSpace c = false) s -> trim s = s.
Proof.
  intros H. unfold trim, trimEnd. rewrite (trimStart_id s H).
  rewrite trimStart_id by (apply Forall_rev; exact H).
  apply rev_involutive.
Qed.

Lemma filter_id {A} (f : A -> bool) s :
  Forall (fun c => f c = true) s -> filter f s = s.
Proof.
  induction 1 as [| x r Hx _ IH]; simpl; [reflexivity |].
  rewrite Hx. now f_equal.
Qed.

(** ** Bytes and bit operations *)

Lemma ofUint8_range b : 0 <= ofUint8 b < 256.
Proof.
  unfold ofUint8. pose proof (Byte.to_N_bounded b). lia.
Qed.

Lemma toUint8_ofUint8 b : toUint8 (ofUint8 b) = b.
Proof.
  unfold toUint8. pose proof (ofUint8_range b) as H.
  rewrite Z.mod_small by exact H. unfold ofUint8.
  rewrite N2Z.id, Byte.of_to_N. reflexivity.
Qed.

Lemma land_shiftl_low x y k :
  0 <= k -> 0 <= y < 2 ^ k -> Z.land (Z.shiftl x k) y = 0.
Proof.
  intros Hk Hy. apply Z.bits_inj'. intros n Hn.
  rewrite Z.land_spec, Z.bits_0, Z.shiftl_spec by lia.
  destruct (Z.lt_ge_cases n k) as [Hlt | Hge].
  - rewrite (Z.testbit_neg_r x) by lia. reflexivity.
  - destruct (Z.eq_dec y 0) as [-> | Hy0].
    + rewrite Z.bits_0. apply andb_false_r.
    + rewrite (Z.bits_above_log2 y n); [apply andb_false_r | lia |].
      apply Z.lt_le_trans with k; [| assumption].
      apply Z.log2_lt_pow2; lia.
Qed.

Lemma lor_shiftl_add x y k :
  0 <= k -> 0 <= y < 2 ^ k -> Z.lor (Z.shiftl x k) y = x * 2 ^ k + y.
Proof.
  intros Hk Hy.
  rewrite <- Z.lxor_lor, <- Z.add_nocarry_lxor
    by (apply land_shiftl_low; assumption).
  rewrite Z.shiftl_mul_pow2 by assumption. reflexivity.
Qed.

Lemma land_63 x : Z.land x 63 = x mod 64.
Proof. change 63 with (Z.ones 6). now rewrite Z.land_ones by lia. Qed.

Lemma land_255 x : Z.land x 255 = x mod 256.
Proof. change 255 with (Z.ones 8). now rewrite Z.land_ones by lia. Qed.

Lemma land_shifted_mask x k :
  0 <= k -> Z.land (Z.shiftl x k) (255 * 2 ^ k) = (x mod 256) * 2 ^ k.
Proof.
  intros Hk. rewrite <- (Z.shiftl_mul_pow2 255) by exact Hk.
  rewrite <- Z.shiftl_land, land_255. now rewrite Z.shiftl_mul_pow2.
Qed.

(** Every bit operation of the codec as arithmetic. *)
Ltac to_arith :=
  rewrite ?land_63, ?land_255;
  rewrite ?Z.shiftr_div_pow2, ?Z.shiftl_mul_pow2 by lia;
  change (2 ^ 18) with 262144 in *; change (2 ^ 16) with 65536 in *;
  change (2 ^ 12) with 4096 in *; change (2 ^ 10) with 1024 in *;
  change (2 ^ 8) with 256 in *; change (2 ^ 6) with 64 in *;
  change (2 ^ 4) with 16 in *; change (2 ^ 2) with 4 in *.

(** ** The character table *)

Lemma sextets_ok :
  forallb Rfc.sextet_ok (map Z.of_nat (seq 0 64)) = true.
Proof. vm_compute. reflexivity. Qed.

Lemma sextet_ok_at i : 0 <= i < 64 -> Rfc.sextet_ok i = true.
Proof.
  intros Hi. pose proof sextets_ok as H.
  rewrite forallb_forall in H. apply H.
  apply in_map_iff. exists (Z.to_nat i). split; [lia |].
  apply in_seq. lia.
Qed.

Lemma sextet_facts i :
  0 <= i < 64 ->
  Base64js.lookup i = [Rfc.sextet i]
  /\ Base64js.revLookup (Rfc.sextet i) = Some i
  /\ BufferPkg.isBase64Char (Rfc.sextet i) = true
  /\ Rfc.sextet i <> 61
  /\ isWhiteSpace (Rfc.sextet i) = false.
Proof.
  intros Hi. pose proof (sextet_ok_at i Hi) as H.
  unfold Rfc.sextet_ok in H.
  repeat (apply andb_true_iff in H; destruct H as [H ?]).
  repeat split.
  - unfold JS.eqb in H.
    destruct (list_eq_dec Z.eq_dec (Base64js.lookup i) [Rfc.sextet i]);
      [assumption | discriminate].
  - destruct (Base64js.revLookup (Rfc.sextet i)); [| discriminate].
    f_equal. now apply Z.eqb_eq.
  - assumption.
  - apply Z.eqb_neq. now apply negb_true_iff.
  - now apply negb_true_iff.
Qed.

Lemma lookup_sextet i : 0 <= i < 64 -> Base64js.lookup i = [Rfc.sextet i].
Proof. intros Hi. apply (sextet_facts i Hi). Qed.

Lemma rev64_sextet i s : 0 <= i < 64 -> Base64js.rev64 (Rfc.sextet i :: s) 0 = i.
Proof.
  intros Hi. unfold Base64js.rev64. simpl.
  destruct (sextet_facts i Hi) as (_ & -> & _). reflexivity.
Qed.

(** ** The loops end by their own condition

    Each loop of the codec is written with a bound on its rounds.  With
    the bound the codec gives it, a loop has always stopped on its own
    test: one more round allowed changes nothing. *)

Lemma toByteArray_loop_fuel fuel b64 len :
  forall i, len - i <= 4 * Z.of_nat fuel ->
  Base64js.toByteArray_loop (S fuel) b64 len i
  = Base64js.toByteArray_loop fuel b64 len i.
Proof.
  induction fuel as [| fuel IH]; intros i Hi.
  - cbn [Base64js.toByteArray_loop].
    destruct (Z.ltb_spec i len); [lia | reflexivity].
  - change (Base64js.toByteArray_loop (S (S fuel)) b64 len i)
      with (if i <? len then
              let tmp :=
                Z.lor (Z.lor (Z.lor (Z.shiftl (Base64js.rev64 b64 i) 18)
                                    (Z.shiftl (Base64js.rev64 b64 (i + 1)) 12))
                             (Z.shiftl (Base64js.rev64 b64 (i + 2)) 6))
                      (Base64js.rev64 b64 (i + 3)) in
              let '(i', out) :=
                Base64js.toByteArray_loop (S fuel) b64 len (i + 4) in
              (i', toUint8 (Z.land (Z.shiftr tmp 16) 255)
                   :: toUint8 (Z.land (Z.shiftr tmp 8) 255)
                   :: toUint8 (Z.land tmp 255) :: out)
            else (i, [])).
    rewrite IH by lia. reflexivity.
Qed.

Lemma encodeChunk_loop_fuel fuel uint8 end_ :
  forall i, end_ - i <= 3 * Z.of_nat fuel ->
  Base64js.encodeChunk_loop (S fuel) uint8 i end_
  = Base64js.encodeChunk_loop fuel uint8 i end_.
Proof.
  induction fuel as [| fuel IH]; intros i Hi.
  - cbn [Base64js.encodeChunk_loop].
    destruct (Z.ltb_spec i end_); [lia | reflexivity].
  - change (Base64js.encodeChunk_loop (S (S fuel)) uint8 i end_)
      with (if i <? end_ then
              Base64js.tripletToBase64
                (Z.land (Z.shiftl (getUint8 uint8 i) 16) 16711680
                 + Z.land (Z.shiftl (getUint8 uint8 (i + 1)) 8) 65280
                 + Z.land (getUint8 uint8 (i + 2)) 255)
              ++ Base64js.encodeChunk_loop (S fuel) uint8 (i + 3) end_
            else []).
    rewrite IH by lia. reflexivity.
Qed.

Lemma fromByteArray_loop_fuel fuel uint8 len2 :
  forall i, len2 - i <= Base64js.maxChunkLength * Z.of_nat fuel ->
  Base64js.fromByteArray_loop (S fuel) uint8 i len2
  = Base64js.fromByteArray_loop fuel uint8 i len2.
Proof.
  unfold Base64js.maxChunkLength.
  induction fuel as [| fuel IH]; intros i Hi.
  - cbn [Base64js.fromByteArray_loop].
    destruct (Z.ltb_spec i len2); [lia | reflexivity].
  - change (Base64js.fromByteArray_loop (S (S fuel)) uint8 i len2)
      with (if i <? len2 then
              Base64js.encodeChunk uint8 i
                (if i + Base64js.maxChunkLength >? len2 then len2
                 else i + Base64js.maxChunkLength)
              ++ Base64js.fromByteArray_loop (S fuel) uint8
                   (i + Base64js.maxChunkLength) len2
            else []).
    unfold Base64js.maxChunkLength. rewrite IH by lia. reflexivity.
Qed.

(** The bounds the codec gives its loops are enough. *)
Lemma codec_fuel_enough :
  (forall len : Z, len - 0 <= 4 * Z.of_nat (Z.to_nat len))
  /\ (forall start end_ : Z,
        end_ - start <= 3 * Z.of_nat (Z.to_nat (end_ - start)))
  /\ (forall len2 : Z,
        len2 - 0 <= Base64js.maxChunkLength * Z.of_nat (Z.to_nat len2)).
Proof. unfold Base64js.maxChunkLength. repeat split; intros; lia. Qed.

(** ** The encoder computes the RFC text *)

Lemma length_flat3_nat ts :
  List.length (Rfc.flat3 ts) = (3 * List.length ts)%nat.
Proof.
  induction ts as [| [[a b] c] ts IH]; [reflexivity |].
  change (Rfc.flat3 ((a, b, c) :: ts)) with (a :: b :: c :: Rfc.flat3 ts).
  cbn [List.length]. rewrite IH. lia.
Qed.

Lemma length_flat3 ts : length (Rfc.flat3 ts) = 3 * length ts.
Proof. unfold length. rewrite length_flat3_nat. lia. Qed.

Lemma flat3_app ts us : Rfc.flat3 (ts ++ us) = Rfc.flat3 ts ++ Rfc.flat3 us.
Proof. unfold Rfc.flat3. apply flat_map_app. Qed.

Lemma length_enc_nat ts :
  List.length (flat_map Rfc.enc3 ts) = (4 * List.length ts)%nat.
Proof.
  induction ts as [| t ts IH]; [reflexivity |].
  cbn [flat_map]. unfold Rfc.enc3 at 1. cbn [List.length app].
  rewrite IH. lia.
Qed.

Lemma length_enc ts : length (flat_map Rfc.enc3 ts) = 4 * length ts.
Proof. unfold length. rewrite length_enc_nat. lia. Qed.

Lemma groups_spec l :
  let '(ts, tail) := Rfc.groups l in
  l = Rfc.flat3 ts ++ tail /\ 0 <= length tail < 3.
Proof.
  assert (H : forall n l, (List.length l <= n)%nat ->
            let '(ts, tail) := Rfc.groups l in
            l = Rfc.flat3 ts ++ tail /\ 0 <= length tail < 3).
  { clear l. induction n as [| n IH]; intros l Hl.
    - destruct l; [| simpl in Hl; lia]. simpl. unfold length. simpl.
      split; [reflexivity | lia].
    - destruct l as [| a [| b [| c r]]];
        try (simpl; unfold length; simpl; split; [reflexivity | lia]).
      simpl. specialize (IH r). destruct (Rfc.groups r) as [ts tail].
      destruct IH as [-> Ht]; [simpl in Hl; lia |].
      split; [reflexivity | exact Ht]. }
  apply (H (List.length l)). lia.
Qed.

Lemma tripletToBase64_enc3 a b c :
  Base64js.tripletToBase64
    (Z.land (Z.shiftl (ofUint8 a) 16) 16711680
     + Z.land (Z.shiftl (ofUint8 b) 8) 65280
     + Z.land (ofUint8 c) 255)
  = Rfc.enc3 (a, b, c).
Proof.
  pose proof (ofUint8_range a) as Ha. pose proof (ofUint8_range b) as Hb.
  pose proof (ofUint8_range c) as Hc.
  change 16711680 with (255 * 2 ^ 16). change 65280 with (255 * 2 ^ 8).
  rewrite !land_shifted_mask by lia. rewrite land_255.
  rewrite !Z.mod_small by lia.
  unfold Base64js.tripletToBase64, Rfc.enc3, Rfc.num3. to_arith.
  rewrite !lookup_sextet by (apply Z.mod_pos_bound; lia).
  reflexivity.
Qed.

Lemma encodeChunk_loop_shift fuel p u i e :
  0 <= i ->
  Base64js.encodeChunk_loop fuel (p ++ u) (length p + i) (length p + e)
  = Base64js.encodeChunk_loop fuel u i e.
Proof.
  revert i. induction fuel as [| fuel IH]; intros i Hi;
    cbn [Base64js.encodeChunk_loop]; [reflexivity |].
  replace (length p + i <? length p + e) with (i <? e)
    by (destruct (Z.ltb_spec i e), (Z.ltb_spec (length p + i) (length p + e));
        (lia || reflexivity)).
  destruct (i <? e); [| reflexivity].
  replace (length p + i + 1) with (length p + (i + 1)) by lia.
  replace (length p + i + 2) with (length p + (i + 2)) by lia.
  replace (length p + i + 3) with (length p + (i + 3)) by lia.
  rewrite !getUint8_shift by lia. rewrite IH by lia. reflexivity.
Qed.

Lemma encodeChunk_loop_groups ts rest fuel :
  (List.length ts <= fuel)%nat ->
  Base64js.encodeChunk_loop fuel (Rfc.flat3 ts ++ rest) 0 (3 * length ts)
  = flat_map Rfc.enc3 ts.
Proof.
  revert fuel. induction ts as [| [[a b] c] ts IH]; intros fuel Hf.
  - destruct fuel; reflexivity.
  - destruct fuel as [| fuel]; [simpl in Hf; lia |].
    cbn [Base64js.encodeChunk_loop].
    replace (0 <? 3 * length ((a, b, c) :: ts)) with true
      by (symmetry; apply Z.ltb_lt; unfold length; cbn [List.length]; lia).
    change (getUint8 (Rfc.flat3 ((a, b, c) :: ts) ++ rest) 0) with (ofUint8 a).
    change (getUint8 (Rfc.flat3 ((a, b, c) :: ts) ++ rest) (0 + 1))
      with (ofUint8 b).
    change (getUint8 (Rfc.flat3 ((a, b, c) :: ts) ++ rest) (0 + 2))
      with (ofUint8 c).
    rewrite tripletToBase64_enc3.
    change (Rfc.flat3 ((a, b, c) :: ts) ++ rest)
      with ([a; b; c] ++ (Rfc.flat3 ts ++ rest)).
    replace (0 + 3) with (length [a; b; c] + 0) by reflexivity.
    replace (3 * length ((a, b, c) :: ts))
      with (length [a; b; c] + 3 * length ts)
      by (unfold length; cbn [List.length]; lia).
    rewrite encodeChunk_loop_shift by lia.
    rewrite IH by (simpl in Hf; lia). reflexivity.
Qed.

Lemma encodeChunk_groups done ts rest :
  Base64js.encodeChunk (Rfc.flat3 done ++ Rfc.flat3 ts ++ rest)
    (3 * length done) (3 * length done + 3 * length ts)
  = flat_map Rfc.enc3 ts.
Proof.
  unfold Base64js.encodeChunk.
  pose proof (encodeChunk_loop_shift
                (Z.to_nat (3 * length done + 3 * length ts - 3 * length done))
                (Rfc.flat3 done) (Rfc.flat3 ts ++ rest) 0 (3 * length ts))
    as Hshift.
  rewrite length_flat3, Z.add_0_r in Hshift. rewrite Hshift by lia.
  apply encodeChunk_loop_groups. unfold length. lia.
Qed.

Lemma fromByteArray_loop_groups fuel :
  forall done todo rest,
  (List.length todo <= fuel)%nat ->
  Base64js.fromByteArray_loop fuel (Rfc.flat3 done ++ Rfc.flat3 todo ++ rest)
    (3 * length done) (3 * length done + 3 * length todo)
  = flat_map Rfc.enc3 todo.
Proof.
  induction fuel as [| fuel IH]; intros done todo rest Hf.
  - destruct todo; [reflexivity | simpl in Hf; lia].
  - cbn [Base64js.fromByteArray_loop].
    destruct (Z.ltb_spec (3 * length done)
                (3 * length done + 3 * length todo)) as [Hlt | Hge].
    2: { destruct todo; [reflexivity |].
         unfold length in Hge. cbn [List.length] in Hge. lia. }
    set (m := Z.to_nat 5461).
    assert (Hfirst : List.length (firstn m todo)
                     = Nat.min m (List.length todo)) by apply length_firstn.
    assert (Hsecond : List.length (skipn m todo)
                      = (List.length todo - m)%nat) by apply length_skipn.
    pose proof (firstn_skipn m todo) as Hsplit.
    revert Hfirst Hsecond Hsplit.
    generalize (firstn m todo) (skipn m todo).
    intros first second Hfirst Hsecond Hsplit. subst todo.
    rewrite List.length_app in *.
    rewrite flat3_app, <- app_assoc, length_app_Z, flat_map_app.
    unfold Base64js.maxChunkLength.
    destruct (Nat.le_gt_cases (List.length first + List.length second) m)
      as [Hsmall | Hbig].
    + (* what is left fits in one chunk *)
      destruct second; [| exfalso; cbn [List.length] in *; lia].
      replace (length first + length []) with (length first)
        by (unfold length; cbn [List.length]; lia).
      replace (if 3 * length done + 16383
                  >? 3 * length done + 3 * length first
               then 3 * length done + 3 * length first
               else 3 * length done + 16383)
        with (3 * length done + 3 * length first); cycle 1.
      { destruct (Z.gtb_spec (3 * length done + 16383)
                    (3 * length done + 3 * length first));
          [reflexivity |].
        unfold length, m in *. cbn [List.length] in *. lia. }
      rewrite encodeChunk_groups. f_equal.
      destruct fuel; [reflexivity |]. cbn [Base64js.fromByteArray_loop].
      destruct (Z.ltb_spec (3 * length done + 16383)
                  (3 * length done + 3 * length first));
        [unfold length, m in *; cbn [List.length] in *; lia | reflexivity].
    + assert (Hm : length first = 5461) by (unfold length, m in *; lia).
      replace (3 * length done + 16383
               >? 3 * length done + 3 * (length first + length second))
        with false; cycle 1.
      { symmetry. rewrite Z.gtb_ltb. apply Z.ltb_ge.
        unfold length, m in *. lia. }
      replace (3 * length done + 16383)
        with (3 * length done + 3 * length first) by lia.
      rewrite encodeChunk_groups. f_equal.
      rewrite (app_assoc (Rfc.flat3 done)), <- flat3_app.
      replace (3 * length done + 3 * length first)
        with (3 * length (done ++ first)) by (rewrite length_app_Z; lia).
      replace (3 * length done + 3 * (length first + length second))
        with (3 * length (done ++ first) + 3 * length second)
        by (rewrite length_app_Z; lia).
      apply IH. unfold m in *. lia.
Qed.

Lemma fromByteArray_groups ts tail :
  0 <= length tail < 3 ->
  Base64js.fromByteArray (Rfc.flat3 ts ++ tail) = Rfc.encode ts tail.
Proof.
  intros Htail. unfold Base64js.fromByteArray. cbv zeta.
  rewrite length_app_Z, length_flat3.
  replace ((3 * length ts + length tail) mod 3) with (length tail)
    by (rewrite Z.add_comm, Z.mul_comm, Z.mod_add by lia;
        symmetry; apply Z.mod_small; lia).
  replace (3 * length ts + length tail - length tail)
    with (3 * length ts) by lia.
  pose proof (fromByteArray_loop_groups (Z.to_nat (3 * length ts)) [] ts tail)
    as Hloop.
  change (Rfc.flat3 [] ++ Rfc.flat3 ts ++ tail)
    with (Rfc.flat3 ts ++ tail) in Hloop.
  change (3 * length (@nil (byte * byte * byte))) with 0 in Hloop.
  rewrite Z.add_0_l in Hloop. rewrite Hloop by (unfold length; lia).
  unfold Rfc.encode, Rfc.body. rewrite <- app_assoc. f_equal.
  destruct tail as [| a [| b [| c r]]].
  - reflexivity.
  - change (length [a]) with 1. cbn [Z.eqb Pos.eqb].
    replace (3 * length ts + 1 - 1) with (length (Rfc.flat3 ts) + 0)
      by (rewrite length_flat3; lia).
    rewrite getUint8_shift by lia.
    change (getUint8 [a] 0) with (ofUint8 a).
    pose proof (ofUint8_range a) as Ha. to_arith.
    rewrite !lookup_sextet
      by (try apply Z.mod_pos_bound; try apply Z.div_lt_upper_bound;
          try apply Z.div_pos; lia || (split; [apply Z.div_pos |
          apply Z.div_lt_upper_bound]; lia)).
    reflexivity.
  - change (length [a; b]) with 2. cbn [Z.eqb Pos.eqb].
    replace (3 * length ts + 2 - 2) with (length (Rfc.flat3 ts) + 0)
      by (rewrite length_flat3; lia).
    replace (3 * length ts + 2 - 1) with (length (Rfc.flat3 ts) + 1)
      by (rewrite length_flat3; lia).
    rewrite !getUint8_shift by lia.
    change (getUint8 [a; b] 0) with (ofUint8 a).
    change (getUint8 [a; b] 1) with (ofUint8 b).
    pose proof (ofUint8_range a) as Ha. pose proof (ofUint8_range b) as Hb.
    to_arith.
    rewrite !lookup_sextet
      by (try apply Z.mod_pos_bound; lia || (split; [apply Z.div_pos |
          apply Z.div_lt_upper_bound]; lia)).
    reflexivity.
  - exfalso. unfold length in Htail. cbn [List.length] in Htail. lia.
Qed.

(** ** The decoder inverts the RFC text *)

Lemma lor_add_low x y k :
  0 <= k -> x mod 2 ^ k = 0 -> 0 <= y < 2 ^ k -> Z.lor x y = x + y.
Proof.
  intros Hk Hx Hy.
  assert (Hpos : 0 < 2 ^ k) by (apply Z.pow_pos_nonneg; lia).
  pose proof (Z.div_mod x (2 ^ k)) as Hdiv.
  replace x with (Z.shiftl (x / 2 ^ k) k) at 1
    by (rewrite Z.shiftl_mul_pow2 by exact Hk; lia).
  rewrite lor_shiftl_add by assumption. lia.
Qed.

Lemma quad_number s0 s1 s2 s3 :
  0 <= s0 < 64 -> 0 <= s1 < 64 -> 0 <= s2 < 64 -> 0 <= s3 < 64 ->
  Z.lor (Z.lor (Z.lor (Z.shiftl s0 18) (Z.shiftl s1 12)) (Z.shiftl s2 6)) s3
  = s0 * 262144 + s1 * 4096 + s2 * 64 + s3.
Proof.
  intros H0 H1 H2 H3. to_arith.
  rewrite (lor_add_low (s0 * 262144) (s1 * 4096) 18);
    [| lia | to_arith; Z.div_mod_to_equations; lia | to_arith; lia].
  rewrite (lor_add_low _ (s2 * 64) 12);
    [| lia | to_arith; Z.div_mod_to_equations; lia | to_arith; lia].
  rewrite (lor_add_low _ s3 6);
    [| lia | to_arith; Z.div_mod_to_equations; lia | to_arith; lia].
  reflexivity.
Qed.

Lemma rev64_shift p s i :
  0 <= i -> Base64js.rev64 (p ++ s) (length p + i) = Base64js.rev64 s i.
Proof.
  intros Hi. unfold Base64js.rev64. now rewrite charCodeAt_shift.
Qed.

Lemma rev64_skip c s i :
  0 <= i -> Base64js.rev64 (c :: s) (i + 1) = Base64js.rev64 s i.
Proof.
  intros Hi. replace (i + 1) with (length [c] + i)
    by (unfold length; cbn [List.length]; lia).
  apply (rev64_shift [c] s i Hi).
Qed.

Lemma rev64_skip1 c s : Base64js.rev64 (c :: s) 1 = Base64js.rev64 s 0.
Proof. apply (rev64_skip c s 0). lia. Qed.

Lemma rev64_skip2 c d s :
  Base64js.rev64 (c :: d :: s) 2 = Base64js.rev64 s 0.
Proof.
  change 2 with (1 + 1). rewrite rev64_skip by lia. apply rev64_skip1.
Qed.

(** The four characters of a group, read back at positions 0 to 3. *)
Lemma rev64_enc3 t s :
  let n := Rfc.num3 t in
  Base64js.rev64 (Rfc.enc3 t ++ s) 0 = n / 262144 mod 64
  /\ Base64js.rev64 (Rfc.enc3 t ++ s) 1 = n / 4096 mod 64
  /\ Base64js.rev64 (Rfc.enc3 t ++ s) 2 = n / 64 mod 64
  /\ Base64js.rev64 (Rfc.enc3 t ++ s) 3 = n mod 64.
Proof.
  cbv zeta. unfold Rfc.enc3. cbn [app].
  change 3 with (0 + 1 + 1 + 1). change 2 with (0 + 1 + 1).
  change 1 with (0 + 1).
  rewrite !rev64_skip by lia.
  rewrite !rev64_sextet by (apply Z.mod_pos_bound; lia).
  repeat split.
Qed.

Lemma num3_range t : 0 <= Rfc.num3 t < 16777216.
Proof.
  destruct t as [[a b] c]. unfold Rfc.num3.
  pose proof (ofUint8_range a). pose proof (ofUint8_range b).
  pose proof (ofUint8_range c). lia.
Qed.

(** One round of the decoding loop gives back the three bytes. *)
Lemma decode_quad a b c s :
  let b64 := Rfc.enc3 (a, b, c) ++ s in
  let tmp :=
    Z.lor (Z.lor (Z.lor (Z.shiftl (Base64js.rev64 b64 0) 18)
                        (Z.shiftl (Base64js.rev64 b64 (0 + 1)) 12))
                 (Z.shiftl (Base64js.rev64 b64 (0 + 2)) 6))
          (Base64js.rev64 b64 (0 + 3)) in
  toUint8 (Z.land (Z.shiftr tmp 16) 255) = a
  /\ toUint8 (Z.land (Z.shiftr tmp 8) 255) = b
  /\ toUint8 (Z.land tmp 255) = c.
Proof.
  cbv zeta. change (0 + 1) with 1. change (0 + 2) with 2.
  change (0 + 3) with 3.
  destruct (rev64_enc3 (a, b, c) s) as (-> & -> & -> & ->).
  rewrite quad_number by (apply Z.mod_pos_bound; lia).
  pose proof (num3_range (a, b, c)) as Hn.
  replace (Rfc.num3 (a, b, c) / 262144 mod 64 * 262144
           + Rfc.num3 (a, b, c) / 4096 mod 64 * 4096
           + Rfc.num3 (a, b, c) / 64 mod 64 * 64
           + Rfc.num3 (a, b, c) mod 64)
    with (Rfc.num3 (a, b, c)) by (Z.div_mod_to_equations; lia).
  pose proof (ofUint8_range a) as Ha. pose proof (ofUint8_range b) as Hb.
  pose proof (ofUint8_range c) as Hc.
  unfold Rfc.num3. to_arith.
  replace ((ofUint8 a * 65536 + ofUint8 b * 256 + ofUint8 c) / 65536 mod 256)
    with (ofUint8 a) by (Z.div_mod_to_equations; lia).
  replace ((ofUint8 a * 65536 + ofUint8 b * 256 + ofUint8 c) / 256 mod 256)
    with (ofUint8 b) by (Z.div_mod_to_equations; lia).
  replace ((ofUint8 a * 65536 + ofUint8 b * 256 + ofUint8 c) mod 256)
    with (ofUint8 c) by (Z.div_mod_to_equations; lia).
  rewrite !toUint8_ofUint8. repeat split.
Qed.

Lemma toByteArray_loop_shift fuel q s len i :
  0 <= i ->
  Base64js.toByteArray_loop fuel (q ++ s) (length q + len) (length q + i)
  = let '(i', out) := Base64js.toByteArray_loop fuel s len i in
    (length q + i', out).
Proof.
  revert i. induction fuel as [| fuel IH]; intros i Hi;
    cbn [Base64js.toByteArray_loop]; [reflexivity |].
  replace (length q + i <? length q + len) with (i <? len)
    by (destruct (Z.ltb_spec i len),
          (Z.ltb_spec (length q + i) (length q + len));
        (lia || reflexivity)).
  destruct (i <? len); [| reflexivity].
  replace (length q + i + 1) with (length q + (i + 1)) by lia.
  replace (length q + i + 2) with (length q + (i + 2)) by lia.
  replace (length q + i + 3) with (length q + (i + 3)) by lia.
  replace (length q + i + 4) with (length q + (i + 4)) by lia.
  rewrite !rev64_shift by lia. rewrite IH by lia.
  destruct (Base64js.toByteArray_loop fuel s len (i + 4)) as [i' out].
  reflexivity.
Qed.

Lemma toByteArray_loop_groups ts :
  forall rest fuel len,
  (List.length ts <= fuel)%nat ->
  4 * (length ts - 1) < len <= 4 * length ts ->
  Base64js.toByteArray_loop fuel (flat_map Rfc.enc3 ts ++ rest) len 0
  = (4 * length ts, Rfc.flat3 ts).
Proof.
  induction ts as [| [[a b] c] ts IH]; intros rest fuel len Hf Hlen.
  - change (length (@nil (byte * byte * byte))) with 0 in *.
    destruct fuel; [reflexivity |]. cbn [Base64js.toByteArray_loop].
    destruct (Z.ltb_spec 0 len); [lia | reflexivity].
  - assert (Hl : length ((a, b, c) :: ts) = length ts + 1)
      by (unfold length; cbn [List.length]; lia).
    rewrite Hl in *.
    destruct fuel as [| fuel]; [cbn [List.length] in Hf; lia |].
    cbn [Base64js.toByteArray_loop flat_map].
    destruct (Z.ltb_spec 0 len) as [_ | Hle];
      [| pose proof (length_nonneg ts); lia].
    rewrite <- app_assoc.
    destruct (decode_quad a b c (flat_map Rfc.enc3 ts ++ rest))
      as (-> & -> & ->).
    pose proof (toByteArray_loop_shift fuel (Rfc.enc3 (a, b, c))
                  (flat_map Rfc.enc3 ts ++ rest) (len - 4) 0) as Hshift.
    change (length (Rfc.enc3 (a, b, c))) with 4 in Hshift.
    replace (4 + (len - 4)) with len in Hshift by lia.
    change (4 + 0) with (0 + 4) in Hshift.
    rewrite Hshift by lia.
    rewrite IH by (cbn [List.length] in Hf; lia).
    change (Rfc.flat3 ((a, b, c) :: ts)) with (a :: b :: c :: Rfc.flat3 ts).
    f_equal. lia.
Qed.

Lemma body_chars ts tail :
  0 <= length tail < 3 ->
  Forall (fun ch => exists i, 0 <= i < 64 /\ ch = Rfc.sextet i)
    (Rfc.body ts tail).
Proof.
  intros Htail. unfold Rfc.body. apply Forall_app. split.
  - induction ts as [| t ts IH]; [constructor |].
    cbn [flat_map]. apply Forall_app. split; [| exact IH].
    unfold Rfc.enc3.
    repeat constructor; eexists; (split; [| reflexivity]);
      apply Z.mod_pos_bound; lia.
  - destruct tail as [| a [| b [| c r]]]; cbn [Rfc.encTail].
    + constructor.
    + pose proof (ofUint8_range a).
      repeat constructor; eexists; (split; [| reflexivity]);
        Z.div_mod_to_equations; lia.
    + pose proof (ofUint8_range a). pose proof (ofUint8_range b).
      repeat constructor; eexists; (split; [| reflexivity]);
        Z.div_mod_to_equations; lia.
    + constructor.
Qed.

Lemma body_no_pad ts tail :
  0 <= length tail < 3 -> ~ In 61 (Rfc.body ts tail).
Proof.
  intros Htail Hin. pose proof (body_chars ts tail Htail) as H.
  rewrite Forall_forall in H. destruct (H 61 Hin) as (i & Hi & E).
  destruct (sextet_facts i Hi) as (_ & _ & _ & Hne & _). congruence.
Qed.

Lemma body_alphabet ts tail :
  0 <= length tail < 3 ->
  Forall (fun ch => BufferPkg.isBase64Char ch = true) (Rfc.body ts tail).
Proof.
  intros Htail. eapply Forall_impl; [| apply (body_chars ts tail Htail)].
  intros ch (i & Hi & ->). apply (sextet_facts i Hi).
Qed.

Lemma body_no_space ts tail :
  0 <= length tail < 3 ->
  Forall (fun ch => isWhiteSpace ch = false) (Rfc.body ts tail).
Proof.
  intros Htail. eapply Forall_impl; [| apply (body_chars ts tail Htail)].
  intros ch (i & Hi & ->). apply (sextet_facts i Hi).
Qed.

Lemma length_body ts tail :
  0 <= length tail < 3 ->
  length (Rfc.body ts tail)
  = 4 * length ts + (if length tail =? 0 then 0 else length tail + 1).
Proof.
  intros Htail. unfold Rfc.body. rewrite length_app_Z, length_enc.
  destruct tail as [| a [| b [| c r]]]; try reflexivity.
  exfalso. unfold length in Htail. cbn [List.length] in Htail. lia.
Qed.

Lemma split_head_encode ts tail :
  0 <= length tail < 3 ->
  split_head 61 (Rfc.encode ts tail) = Rfc.body ts tail.
Proof.
  intros Htail. pose proof (body_no_pad ts tail Htail) as Hno.
  unfold Rfc.encode.
  destruct (Rfc.padding tail) as [| ch pad] eqn:Hpad.
  - rewrite app_nil_r. now apply split_head_absent.
  - assert (ch = 61) as ->
      by (destruct tail as [| a [| b [| c r]]]; cbn in Hpad; congruence).
    now apply split_head_first.
Qed.

Lemma padLoop_body ts tail :
  0 <= length tail < 3 ->
  BufferPkg.padLoop 3 (Rfc.body ts tail) = Rfc.encode ts tail.
Proof.
  intros Htail. unfold Rfc.encode.
  pose proof (length_body ts tail Htail) as Hlen.
  destruct tail as [| a [| b [| c r]]].
  - change (length (@nil byte)) with 0 in Hlen. cbn [Z.eqb] in Hlen.
    cbn [BufferPkg.padLoop Rfc.padding]. rewrite Hlen.
    replace ((4 * length ts + 0) mod 4) with 0
      by (Z.div_mod_to_equations; lia).
    cbn [Z.eqb]. now rewrite app_nil_r.
  - change (length [a]) with 1 in Hlen. cbn [Z.eqb Pos.eqb] in Hlen.
    cbn [BufferPkg.padLoop Rfc.padding].
    rewrite !length_app_Z, Hlen. change (length [61]) with 1.
    replace ((4 * length ts + (1 + 1)) mod 4) with 2
      by (Z.div_mod_to_equations; lia).
    replace ((4 * length ts + (1 + 1) + 1) mod 4) with 3
      by (Z.div_mod_to_equations; lia).
    replace ((4 * length ts + (1 + 1) + 1 + 1) mod 4) with 0
      by (Z.div_mod_to_equations; lia).
    cbn [Z.eqb]. now rewrite <- app_assoc.
  - change (length [a; b]) with 2 in Hlen. cbn [Z.eqb Pos.eqb] in Hlen.
    cbn [BufferPkg.padLoop Rfc.padding].
    rewrite !length_app_Z, Hlen. change (length [61]) with 1.
    replace ((4 * length ts + (2 + 1)) mod 4) with 3
      by (Z.div_mod_to_equations; lia).
    replace ((4 * length ts + (2 + 1) + 1) mod 4) with 0
      by (Z.div_mod_to_equations; lia).
    cbn [Z.eqb]. reflexivity.
  - exfalso. unfold length in Htail. cbn [List.length] in Htail. lia.
Qed.

(** Text produced by the encoder passes through [base64clean] unchanged. *)
Lemma base64clean_encode ts tail :
  0 <= length tail < 3 ->
  BufferPkg.base64clean (Rfc.encode ts tail) = Rfc.encode ts tail.
Proof.
  intros Htail. unfold BufferPkg.base64clean.
  rewrite split_head_encode by exact Htail.
  rewrite trim_id by (apply body_no_space; exact Htail).
  rewrite filter_id by (apply body_alphabet; exact Htail).
  rewrite padLoop_body by exact Htail.
  destruct (Z.ltb_spec (length (Rfc.body ts tail)) 2) as [Hshort | _];
    [| reflexivity].
  rewrite length_body in Hshort by exact Htail.
  pose proof (length_nonneg ts) as Hts.
  destruct ts as [| t ts].
  - destruct tail as [| a [| b [| c r]]]; try reflexivity;
      exfalso; unfold length in *; cbn [List.length] in *;
      cbn in Hshort; lia.
  - exfalso. unfold length in *. cbn [List.length] in *.
    destruct (Z.of_nat (List.length tail) =? 0); lia.
Qed.

Lemma indexOf_encode ts tail :
  0 <= length tail < 3 ->
  indexOf (Rfc.encode ts tail) 61
  = if length tail =? 0 then -1 else length (Rfc.body ts tail).
Proof.
  intros Htail. pose proof (body_no_pad ts tail Htail) as Hno.
  unfold indexOf, Rfc.encode.
  destruct tail as [| a [| b [| c r]]].
  - cbn [Rfc.padding]. rewrite app_nil_r. now apply indexOf_from_absent.
  - cbn [Rfc.padding]. now rewrite indexOf_from_first.
  - cbn [Rfc.padding]. now rewrite indexOf_from_first.
  - exfalso. unfold length in Htail. cbn [List.length] in Htail. lia.
Qed.

Lemma firstn_exact {A} (l zeros : list A) n :
  List.length l = n -> firstn n (l ++ zeros) = l.
Proof.
  intros <-. rewrite firstn_app, Nat.sub_diag, firstn_all. cbn [firstn].
  apply app_nil_r.
Qed.

Lemma length_encode ts tail :
  length (Rfc.encode ts tail)
  = length (Rfc.body ts tail) + length (Rfc.padding tail).
Proof. unfold Rfc.encode. apply length_app_Z. Qed.

Lemma getLens_encode ts tail :
  0 <= length tail < 3 ->
  Base64js.getLens (Rfc.encode ts tail)
  = Ok (length (Rfc.body ts tail), length (Rfc.padding tail)).
Proof.
  intros Htail. unfold Base64js.getLens. cbv zeta.
  rewrite indexOf_encode by exact Htail.
  pose proof (length_body ts tail Htail) as Hbody.
  pose proof (length_encode ts tail) as Henc.
  pose proof (length_nonneg ts) as Hts.
  pose proof (length_nonneg (Rfc.body ts tail)) as Hb.
  assert (Hcases : (length tail = 0 /\ length (Rfc.padding tail) = 0)
                   \/ (length tail = 1 /\ length (Rfc.padding tail) = 2)
                   \/ (length tail = 2 /\ length (Rfc.padding tail) = 1)).
  { destruct tail as [| a [| b [| c r]]]; cbn [Rfc.padding];
      unfold length in *; cbn [List.length] in *; lia. }
  destruct (Z.gtb_spec (length (Rfc.encode ts tail) mod 4) 0) as [Hgt | _].
  { exfalso. rewrite Henc, Hbody in Hgt.
    destruct Hcases as [[E1 E2] | [[E1 E2] | [E1 E2]]];
      rewrite E1, E2 in Hgt; cbn [Z.eqb Pos.eqb] in Hgt;
      revert Hgt; Z.div_mod_to_equations; lia. }
  destruct (Z.eqb_spec (length tail) 0) as [H0 | H0].
  - rewrite Z.eqb_refl, Z.eqb_refl. do 2 f_equal; lia.
  - destruct (Z.eqb_spec (length (Rfc.body ts tail)) (-1)); [lia |].
    destruct (Z.eqb_spec (length (Rfc.body ts tail))
                (length (Rfc.encode ts tail))); [lia |].
    do 2 f_equal. rewrite Hbody.
    destruct Hcases as [[E1 E2] | [[E1 E2] | [E1 E2]]];
      rewrite E1, E2; cbn [Z.eqb Pos.eqb];
      Z.div_mod_to_equations; lia.
Qed.

Lemma loop_encode ts tail len :
  4 * (length ts - 1) < len <= 4 * length ts ->
  Base64js.toByteArray_loop (Z.to_nat len) (Rfc.encode ts tail) len 0
  = (4 * length ts, Rfc.flat3 ts).
Proof.
  intros Hlen. unfold Rfc.encode, Rfc.body. rewrite <- app_assoc.
  apply toByteArray_loop_groups; [unfold length in *; lia | exact Hlen].
Qed.

(** The characters of the incomplete group, read back after the whole
    groups. *)
Lemma rev64_tail ts tail d :
  0 <= d ->
  Base64js.rev64 (Rfc.encode ts tail) (4 * length ts + d)
  = Base64js.rev64 (Rfc.encTail tail ++ Rfc.padding tail) d.
Proof.
  intros Hd. unfold Rfc.encode, Rfc.body. rewrite <- app_assoc.
  rewrite <- length_enc. now apply rev64_shift.
Qed.

Lemma rev64_tail0 ts tail :
  Base64js.rev64 (Rfc.encode ts tail) (4 * length ts)
  = Base64js.rev64 (Rfc.encTail tail ++ Rfc.padding tail) 0.
Proof.
  rewrite <- (rev64_tail ts tail 0) by lia. f_equal. lia.
Qed.

(** The decoder gives back the bytes of an encoder text. *)
Lemma toByteArray_encode ts tail :
  0 <= length tail < 3 ->
  Base64js.toByteArray (Rfc.encode ts tail) = Ok (Rfc.flat3 ts ++ tail).
Proof.
  intros Htail. unfold Base64js.toByteArray.
  rewrite getLens_encode by exact Htail.
  rewrite (length_body ts tail Htail).
  pose proof (length_nonneg ts) as Hts.
  unfold Base64js._byteLength.
  destruct tail as [| a [| b [| c r]]].
  - (* no incomplete group *)
    change (length (@nil byte)) with 0. cbn [Z.eqb Rfc.padding].
    change (length (@nil Z)) with 0.
    change (0 >? 0) with false. change (0 =? 2) with false.
    change (0 =? 1) with false. cbv iota zeta.
    rewrite loop_encode by lia.
    replace ((4 * length ts + 0 + 0) * 3 / 4 - 0) with (3 * length ts)
      by (Z.div_mod_to_equations; lia).
    destruct (Z.ltb_spec (3 * length ts) 0) as [Hneg | _]; [lia |].
    cbn [app]. rewrite app_nil_r, firstn_exact; [reflexivity |].
    rewrite length_flat3_nat. unfold length. lia.
  - (* one byte left: two characters and two pads *)
    change (length [a]) with 1. cbn [Z.eqb Pos.eqb Rfc.padding].
    change (length [61; 61]) with 2.
    change (2 >? 0) with true. change (2 =? 2) with true.
    change (2 =? 1) with false. cbv iota zeta.
    rewrite loop_encode by lia.
    replace ((4 * length ts + (1 + 1) + 2) * 3 / 4 - 2)
      with (3 * length ts + 1) by (Z.div_mod_to_equations; lia).
    destruct (Z.ltb_spec (3 * length ts + 1) 0) as [Hneg | _]; [lia |].
    rewrite !rev64_tail0, !rev64_tail by lia.
    cbn [Rfc.encTail app]. pose proof (ofUint8_range a) as Ha.
    rewrite rev64_skip1.
    rewrite !rev64_sextet by (Z.div_mod_to_equations; lia).
    to_arith.
    rewrite (lor_add_low _ _ 2);
      [| lia | to_arith; Z.div_mod_to_equations; lia
       | to_arith; Z.div_mod_to_equations; lia].
    replace ((ofUint8 a / 4 * 4 + ofUint8 a * 16 mod 64 / 16) mod 256)
      with (ofUint8 a) by (Z.div_mod_to_equations; lia).
    rewrite toUint8_ofUint8. cbn [app].
    match goal with
    | |- context [Rfc.flat3 ts ++ a :: ?r] =>
        change (Rfc.flat3 ts ++ a :: r) with (Rfc.flat3 ts ++ [a] ++ r)
    end.
    rewrite (app_assoc (Rfc.flat3 ts) [a]).
    rewrite firstn_exact; [reflexivity |].
    rewrite List.length_app, length_flat3_nat. cbn [List.length].
    unfold length. lia.
  - (* two bytes left: three characters and one pad *)
    change (length [a; b]) with 2. cbn [Z.eqb Pos.eqb Rfc.padding].
    change (length [61]) with 1.
    change (1 >? 0) with true. change (1 =? 2) with false.
    change (1 =? 1) with true. cbv iota zeta.
    rewrite loop_encode by lia.
    replace ((4 * length ts + (2 + 1) + 1) * 3 / 4 - 1)
      with (3 * length ts + 2) by (Z.div_mod_to_equations; lia).
    destruct (Z.ltb_spec (3 * length ts + 2) 0) as [Hneg | _]; [lia |].
    rewrite !rev64_tail0, !rev64_tail by lia.
    cbn [Rfc.encTail app]. pose proof (ofUint8_range a) as Ha.
    pose proof (ofUint8_range b) as Hb.
    rewrite rev64_skip1, rev64_skip2.
    rewrite !rev64_sextet by (Z.div_mod_to_equations; lia).
    to_arith.
    set (n := ofUint8 a * 256 + ofUint8 b).
    assert (Hn : 0 <= n < 65536) by (subst n; lia).
    rewrite (lor_add_low (n / 1024 * 1024) (n / 16 mod 64 * 16) 10);
      [| lia | to_arith; Z.div_mod_to_equations; lia
       | to_arith; Z.div_mod_to_equations; lia].
    rewrite (lor_add_low _ _ 4);
      [| lia | to_arith; Z.div_mod_to_equations; lia
       | to_arith; Z.div_mod_to_equations; lia].
    replace ((n / 1024 * 1024 + n / 16 mod 64 * 16 + n * 4 mod 64 / 4)
             / 256 mod 256)
      with (ofUint8 a) by (subst n; Z.div_mod_to_equations; lia).
    replace ((n / 1024 * 1024 + n / 16 mod 64 * 16 + n * 4 mod 64 / 4)
             mod 256)
      with (ofUint8 b) by (subst n; Z.div_mod_to_equations; lia).
    rewrite !toUint8_ofUint8. cbn [app].
    match goal with
    | |- context [Rfc.flat3 ts ++ a :: b :: ?r] =>
        change (Rfc.flat3 ts ++ a :: b :: r)
          with (Rfc.flat3 ts ++ [a; b] ++ r)
    end.
    rewrite (app_assoc (Rfc.flat3 ts) [a; b]).
    rewrite firstn_exact; [reflexivity |].
    rewrite List.length_app, length_flat3_nat. cbn [List.length].
    unfold length. lia.
  - exfalso. unfold length in Htail. cbn [List.length] in Htail. lia.
Qed.

(** ** The codec of [App.tsx] *)

(** [Buffer.from(buf.toString('base64'), 'base64')] holds the bytes of
    [buf]. *)
Lemma buffer_round_trip (buf : list byte) :
  BufferPkg.from_base64 (BufferPkg.toString_base64 buf) = Ok buf.
Proof.
  pose proof (groups_spec buf) as H. destruct (Rfc.groups buf) as [ts tail].
  destruct H as [-> Htail].
  unfold BufferPkg.from_base64, BufferPkg.toString_base64,
    BufferPkg.base64ToBytes.
  rewrite fromByteArray_groups by exact Htail.
  rewrite base64clean_encode by exact Htail.
  apply toByteArray_encode. exact Htail.
Qed.

(** C2.  Decoding the encoded text gives back the buffer, for every byte
    buffer: [base64ToUint8Array(uint8ArrayToBase64(b))] returns [b]. *)
Theorem base64_round_trip (b : list byte) :
  base64ToUint8Array (uint8ArrayToBase64 b) = Ok b.
Proof.
  unfold base64ToUint8Array, uint8ArrayToBase64, BufferPkg.from_bytes.
  apply buffer_round_trip.
Qed.

Example round_trip_empty :
  uint8ArrayToBase64 [] = [] /\ base64ToUint8Array [] = Ok [].
Proof. split; reflexivity. Qed.

Example round_trip_all_bytes :
  List.length all_bytes = 256%nat
  /\ NoDup all_bytes
  /\ base64ToUint8Array (uint8ArrayToBase64 all_bytes) = Ok all_bytes.
Proof.
  split; [reflexivity |]. split; [| apply buffer_round_trip].
  apply (NoDup_map_inv ofUint8).
  replace (map ofUint8 all_bytes) with (map Z.of_nat (seq 0 256))
    by (vm_compute; reflexivity).
  apply Finite.Injective_map_NoDup; [| apply seq_NoDup].
  intros x y. apply Nat2Z.inj.
Qed.

(** ** Decoding arbitrary text *)

Lemma alphabet_not_space c :
  BufferPkg.isBase64Char c = true -> isWhiteSpace c = false.
Proof. unfold BufferPkg.isBase64Char, isWhiteSpace. lia. Qed.

Lemma alphabet_not_pad c : BufferPkg.isBase64Char c = true -> c <> 61.
Proof. unfold BufferPkg.isBase64Char. lia. Qed.

Lemma filter_trimStart s :
  filter BufferPkg.isBase64Char (trimStart s)
  = filter BufferPkg.isBase64Char s.
Proof.
  induction s as [| x r IH]; [reflexivity |]. cbn [trimStart filter].
  destruct (isWhiteSpace x) eqn:Hx; [| reflexivity].
  destruct (BufferPkg.isBase64Char x) eqn:Hb; [| exact IH].
  apply alphabet_not_space in Hb. congruence.
Qed.

Lemma filter_trim s :
  filter BufferPkg.isBase64Char (trim s) = filter BufferPkg.isBase64Char s.
Proof.
  unfold trim, trimEnd.
  rewrite filter_rev, filter_trimStart, <- filter_rev, rev_involutive.
  apply filter_trimStart.
Qed.

Lemma filtered_alphabet s :
  Forall (fun c => BufferPkg.isBase64Char c = true)
    (filter BufferPkg.isBase64Char s).
Proof. apply Forall_forall. intros c Hc. now apply filter_In in Hc. Qed.

(** After its three rounds at most the pad loop has reached a multiple of
    four: the [while] of the source has ended. *)
Lemma padLoop_length s : length (BufferPkg.padLoop 3 s) mod 4 = 0.
Proof.
  cbn [BufferPkg.padLoop].
  repeat match goal with
         | |- context [?x mod 4 =? 0] =>
             destruct (Z.eqb_spec (x mod 4) 0); [assumption |]
         end.
  rewrite !length_app_Z in *. change (length [61]) with 1 in *.
  pose proof (length_nonneg s). Z.div_mod_to_equations. lia.
Qed.

Lemma base64clean_length s : length (BufferPkg.base64clean s) mod 4 = 0.
Proof.
  unfold BufferPkg.base64clean.
  destruct (_ <? 2); [reflexivity | apply padLoop_length].
Qed.

(** The pad loop appends just the '=' that make the length a multiple
    of 4. *)
Lemma padLoop_shape s :
  BufferPkg.padLoop 3 s
  = s ++ repeat 61 (Z.to_nat ((4 - length s mod 4) mod 4)).
Proof.
  pose proof (length_nonneg s) as Hs.
  assert (Hm : 0 <= length s mod 4 < 4) by (apply Z.mod_pos_bound; lia).
  cbn [BufferPkg.padLoop]. rewrite !length_app_Z. change (length [61]) with 1.
  destruct (Z.eqb_spec (length s mod 4) 0) as [E0 | N0].
  { rewrite E0. cbn. now rewrite app_nil_r. }
  destruct (Z.eqb_spec ((length s + 1) mod 4) 0) as [E1 | N1].
  { replace (length s mod 4) with 3 by (Z.div_mod_to_equations; lia).
    reflexivity. }
  destruct (Z.eqb_spec ((length s + 1 + 1) mod 4) 0) as [E2 | N2].
  { replace (length s mod 4) with 2 by (Z.div_mod_to_equations; lia).
    cbn. now rewrite <- app_assoc. }
  replace (length s mod 4) with 1 by (Z.div_mod_to_equations; lia).
  cbn. now rewrite <- !app_assoc.
Qed.

Lemma indexOf_padded s n :
  ~ In 61 s ->
  indexOf (s ++ repeat 61 n) 61
  = match n with O => -1 | S _ => length s end.
Proof.
  intros Hno. unfold indexOf. destruct n as [| n]; cbn [repeat].
  - rewrite app_nil_r. now apply indexOf_from_absent.
  - now rewrite indexOf_from_first.
Qed.

(** The decoder returns a buffer for every text that [base64clean]
    produces. *)
Lemma toByteArray_clean_returns t :
  exists b, Base64js.toByteArray (BufferPkg.base64clean t) = Ok b.
Proof.
  unfold BufferPkg.base64clean.
  set (s := filter BufferPkg.isBase64Char (trim (split_head 61 t))).
  assert (Hno : ~ In 61 s).
  { intros Hin. pose proof (filtered_alphabet (trim (split_head 61 t))) as H.
    rewrite Forall_forall in H. now apply (alphabet_not_pad 61 (H 61 Hin)). }
  destruct (Z.ltb_spec (length s) 2) as [Hshort | Hlong].
  { exists []. reflexivity. }
  rewrite padLoop_shape.
  pose proof (length_nonneg s) as Hs.
  assert (Hm : 0 <= length s mod 4 < 4) by (apply Z.mod_pos_bound; lia).
  set (k := (4 - length s mod 4) mod 4).
  assert (Hk : 0 <= k < 4) by (apply Z.mod_pos_bound; lia).
  assert (Hsum : (length s + k) mod 4 = 0)
    by (subst k; Z.div_mod_to_equations; lia).
  unfold Base64js.toByteArray, Base64js.getLens. cbv zeta.
  rewrite indexOf_padded by exact Hno.
  rewrite length_app_Z.
  replace (length (repeat 61 (Z.to_nat k))) with k
    by (unfold length; rewrite repeat_length; lia).
  rewrite Hsum. change (0 >? 0) with false. cbv iota.
  destruct (Z.to_nat k) as [| k'] eqn:Ek.
  - (* no padding *)
    assert (k = 0) as -> by lia.
    change (-1 =? -1) with true. cbv iota.
    rewrite Z.add_0_r, Z.eqb_refl.
    unfold Base64js._byteLength.
    destruct (Z.ltb_spec ((length s + 0) * 3 / 4 - 0) 0) as [Hneg | _].
    { exfalso. revert Hneg. Z.div_mod_to_equations. lia. }
    destruct (Base64js.toByteArray_loop _ _ _ _) as [i main].
    eexists. reflexivity.
  - (* one to three pads *)
    destruct (Z.eqb_spec (length s) (-1)) as [Habs | _]; [lia |].
    destruct (Z.eqb_spec (length s) (length s + k)) as [Habs | _]; [lia |].
    unfold Base64js._byteLength.
    destruct (Z.ltb_spec ((length s + (4 - length s mod 4)) * 3 / 4
                          - (4 - length s mod 4)) 0) as [Hneg | _].
    { exfalso. revert Hneg. Z.div_mod_to_equations. lia. }
    destruct (Base64js.toByteArray_loop _ _ _ _) as [i main].
    eexists. reflexivity.
Qed.

(** What [base64clean] keeps of a text is all that matters to it. *)
Lemma base64clean_kept t :
  BufferPkg.base64clean (filter BufferPkg.isBase64Char (split_head 61 t))
  = BufferPkg.base64clean t.
Proof.
  unfold BufferPkg.base64clean.
  set (kept := filter BufferPkg.isBase64Char (split_head 61 t)).
  assert (Hk : Forall (fun c => BufferPkg.isBase64Char c = true) kept)
    by apply filtered_alphabet.
  rewrite split_head_absent.
  - rewrite trim_id
      by (eapply Forall_impl; [apply alphabet_not_space | exact Hk]).
    rewrite (filter_id _ kept Hk). subst kept. now rewrite filter_trim.
  - intros Hin. rewrite Forall_forall in Hk.
    now apply (alphabet_not_pad 61 (Hk 61 Hin)).
Qed.

(** C9, as the code has it.  Decoding never signals an error: for every
    text [base64ToUint8Array] returns a byte buffer, and that buffer is the
    decoding of what is left of the text once it is cut at the first '='
    and every character outside [+/0-9A-Za-z-_] is dropped. *)
Theorem base64ToUint8Array_never_throws (t : jsstring) :
  exists b,
    base64ToUint8Array t = Ok b
    /\ base64ToUint8Array
         (filter BufferPkg.isBase64Char (split_head 61 t)) = Ok b.
Proof.
  unfold base64ToUint8Array, BufferPkg.from_base64, BufferPkg.base64ToBytes.
  rewrite base64clean_kept.
  destruct (toByteArray_clean_returns t) as [b Hb].
  exists b. split; exact Hb.
Qed.

(** C9 as stated fails: a text with a character outside the alphabet, and
    of a length that is no multiple of four without it, decodes to bytes. *)
Lemma malformed_text_decodes :
  Spec.malformed (str "SGVs*bG8") = true
  /\ base64ToUint8Array (str "SGVs*bG8")
     = Ok (list_byte_of_string "Hello").
Proof. split; vm_compute; reflexivity. Qed.

(* ===================================================================== *)
(** ** The session model *)
(* ===================================================================== *)

(** *** Default output name *)

Lemma lower_dot c : (Spec.lower c =? 46) = (c =? 46).
Proof.
  unfold Spec.lower. destruct ((65 <=? c) && (c <=? 90)) eqn:E;
    apply Bool.eq_true_iff_eq; lia.
Qed.

Lemma lower_letter c l :
  97 <= l <= 122 ->
  (Spec.lower c =? l) = ((c =? l) || (c =? l - 32)).
Proof.
  intros Hl. unfold Spec.lower. destruct ((65 <=? c) && (c <=? 90)) eqn:E;
    apply Bool.eq_true_iff_eq; lia.
Qed.

Lemma match_dot_pdf_end_spec c0 c1 c2 c3 :
  match_dot_pdf_end [c0; c1; c2; c3] = Spec.isDotPdf [c0; c1; c2; c3].
Proof.
  unfold Spec.isDotPdf, match_dot_pdf_end. cbn [map].
  change (str ".pdf") with [46; 112; 100; 102].
  pose proof (lower_dot c0) as H0.
  pose proof (lower_letter c1 112 ltac:(lia)) as H1.
  pose proof (lower_letter c2 100 ltac:(lia)) as H2.
  pose proof (lower_letter c3 102 ltac:(lia)) as H3.
  change (112 - 32) with 80 in H1. change (100 - 32) with 68 in H2.
  change (102 - 32) with 70 in H3.
  rewrite <- H0, <- H1, <- H2, <- H3.
  unfold JS.eqb.
  destruct (list_eq_dec Z.eq_dec _ _) as [E | NE].
  - injection E as -> -> -> ->. reflexivity.
  - destruct (Z.eqb_spec (Spec.lower c0) 46) as [E0 | ]; [| reflexivity].
    destruct (Z.eqb_spec (Spec.lower c1) 112) as [E1 | ]; [| reflexivity].
    destruct (Z.eqb_spec (Spec.lower c2) 100) as [E2 | ]; [| reflexivity].
    destruct (Z.eqb_spec (Spec.lower c3) 102) as [E3 | ]; [| reflexivity].
    exfalso. apply NE. now rewrite E0, E1, E2, E3.
Qed.

Lemma isDotPdf_length suf :
  Spec.isDotPdf suf = true -> List.length suf = 4%nat.
Proof.
  unfold Spec.isDotPdf, JS.eqb.
  destruct (list_eq_dec Z.eq_dec _ _) as [E | _]; [| discriminate].
  intros _. apply (f_equal (@List.length Z)) in E.
  now rewrite length_map in E.
Qed.

Lemma replace_dot_pdf_short s :
  (List.length s < 4)%nat -> replace_dot_pdf s = s.
Proof.
  induction s as [| c r IH]; intros Hs; [reflexivity |].
  cbn [replace_dot_pdf].
  replace (match_dot_pdf_end (c :: r)) with false.
  - f_equal. apply IH. cbn [List.length] in Hs. lia.
  - destruct r as [| c1 [| c2 [| c3 [| c4 r]]]]; try reflexivity.
    cbn [List.length] in Hs. lia.
Qed.

Lemma replace_dot_pdf_split n :
  forall s, List.length s = (n + 4)%nat ->
  replace_dot_pdf s
  = if Spec.isDotPdf (skipn n s) then firstn n s else s.
Proof.
  induction n as [| n IH]; intros s Hs.
  - destruct s as [| c0 [| c1 [| c2 [| c3 [| c4 r]]]]]; try discriminate Hs.
    cbn [skipn firstn replace_dot_pdf].
    rewrite match_dot_pdf_end_spec.
    destruct (Spec.isDotPdf [c0; c1; c2; c3]); reflexivity.
  - destruct s as [| c r]; [discriminate Hs |].
    cbn [List.length] in Hs. cbn [skipn firstn replace_dot_pdf].
    replace (match_dot_pdf_end (c :: r)) with false.
    + rewrite (IH r) by lia.
      destruct (Spec.isDotPdf (skipn n r)); reflexivity.
    + destruct r as [| c1 [| c2 [| c3 [| c4 r]]]]; try reflexivity.
      cbn [List.length] in Hs. lia.
Qed.

(** The replacement by the regular expression strips the suffix. *)
Lemma replace_dot_pdf_spec s : replace_dot_pdf s = Spec.stripPdfSuffix s.
Proof.
  unfold Spec.stripPdfSuffix. cbv zeta.
  destruct (Nat.lt_ge_cases (List.length s) 4) as [Hshort | Hlong].
  - rewrite replace_dot_pdf_short by exact Hshort.
    destruct (Spec.isDotPdf _) eqn:E; [| reflexivity].
    apply isDotPdf_length in E. rewrite length_skipn in E. lia.
  - apply replace_dot_pdf_split. lia.
Qed.

(** A name that ends in '.pdf', in any case, loses exactly that ending;
    any other name is kept whole. *)
Lemma stripPdfSuffix_suffix base suf :
  Spec.isDotPdf suf = true -> Spec.stripPdfSuffix (base ++ suf) = base.
Proof.
  intros Hsuf. pose proof (isDotPdf_length suf Hsuf) as Hlen.
  unfold Spec.stripPdfSuffix. cbv zeta.
  replace (List.length (base ++ suf) - 4)%nat with (List.length base)
    by (rewrite List.length_app; lia).
  rewrite skipn_app, Nat.sub_diag, skipn_all. cbn [skipn app].
  rewrite Hsuf, firstn_app, Nat.sub_diag, firstn_all. cbn [firstn].
  apply app_nil_r.
Qed.

Lemma stripPdfSuffix_other n :
  (forall base suf, n = base ++ suf -> Spec.isDotPdf suf = false) ->
  Spec.stripPdfSuffix n = n.
Proof.
  intros H. unfold Spec.stripPdfSuffix. cbv zeta.
  rewrite (H (firstn (List.length n - 4) n) (skipn (List.length n - 4) n));
    [reflexivity |].
  symmetry. apply firstn_skipn.
Qed.

(** C7.  The default output name is the literal 'merged.pdf' for the empty
    session; otherwise it is the first item's name without its trailing
    '.pdf' (in any letter case), followed by '_merged.pdf'.  So
    'Report.pdf' gives 'Report_merged.pdf' and 'report.PDF' gives
    'report_merged.pdf'. *)
Theorem getDefaultMergedName_spec :
  getDefaultMergedName [] = str "merged.pdf"
  /\ (forall first rest,
        getDefaultMergedName (first :: rest)
        = Spec.stripPdfSuffix (name first) ++ str "_merged.pdf")
  /\ (forall i u p rest,
        getDefaultMergedName
          ({| id := i; name := str "Report.pdf"; uri := u; pages := p |}
           :: rest)
        = str "Report_merged.pdf")
  /\ (forall i u p rest,
        getDefaultMergedName
          ({| id := i; name := str "report.PDF"; uri := u; pages := p |}
           :: rest)
        = str "report_merged.pdf").
Proof.
  split; [reflexivity |]. split; [| split; reflexivity].
  intros first rest. unfold getDefaultMergedName.
  now rewrite replace_dot_pdf_spec.
Qed.

(** *** Total page count *)

Lemma eqb_eq s t : JS.eqb s t = true <-> s = t.
Proof.
  unfold JS.eqb. destruct (list_eq_dec Z.eq_dec s t); split;
    congruence || discriminate.
Qed.

Lemma eqb_refl s : JS.eqb s s = true.
Proof. now apply eqb_eq. Qed.

(** A location written holds what was written; the others are as they
    were. *)
Lemma put_same uri content f : FileSystem.put uri content f uri = Ok content.
Proof. unfold FileSystem.put. now rewrite eqb_refl. Qed.

Lemma put_other uri content f u :
  u <> uri -> FileSystem.put uri content f u = f u.
Proof.
  intros Hu. unfold FileSystem.put.
  destruct (JS.eqb u uri) eqn:E; [| reflexivity].
  apply eqb_eq in E. contradiction.
Qed.

Lemma fold_left_pages items acc :
  fold_left (fun sum p => sum + pages p) items acc
  = acc + Spec.sumPages items.
Proof.
  revert acc. induction items as [| p rest IH]; intros acc;
    cbn [fold_left Spec.sumPages]; [lia |].
  rewrite IH. lia.
Qed.

(** The reduction of the source is the sum of the page counts. *)
Lemma totalPages_sum items : totalPages items = Spec.sumPages items.
Proof. unfold totalPages. rewrite fold_left_pages. lia. Qed.

Lemma sumPages_app a b :
  Spec.sumPages (a ++ b) = Spec.sumPages a + Spec.sumPages b.
Proof.
  induction a as [| p a IH]; cbn [app Spec.sumPages]; [reflexivity |].
  rewrite IH. lia.
Qed.

Lemma totalPages_app a b : totalPages (a ++ b) = totalPages a + totalPages b.
Proof. rewrite !totalPages_sum. apply sumPages_app. Qed.

Lemma sumPages_perm a b : Permutation a b -> Spec.sumPages a = Spec.sumPages b.
Proof.
  induction 1; cbn [Spec.sumPages]; lia.
Qed.

(** Removing by an id that no item has changes nothing. *)
Lemma filter_fresh_id i items :
  ~ In i (map id items) ->
  filter (fun p => negb (JS.eqb (id p) i)) items = items.
Proof.
  induction items as [| p rest IH]; intros Hfresh; [reflexivity |].
  cbn [filter]. destruct (JS.eqb (id p) i) eqn:E.
  - exfalso. apply Hfresh. left. now apply eqb_eq.
  - cbn [negb]. f_equal. apply IH. intros Hin. apply Hfresh. now right.
Qed.

Lemma remove_added x items :
  ~ In (id x) (map id items) ->
  filter (fun p => negb (JS.eqb (id p) (id x))) (items ++ [x]) = items.
Proof.
  intros Hfresh. rewrite filter_app, filter_fresh_id by exact Hfresh.
  cbn [filter]. rewrite eqb_refl. apply app_nil_r.
Qed.

Lemma sumPages_filter (f : PdfItem -> bool) items :
  Spec.sumPages items
  = Spec.sumPages (filter f items)
    + Spec.sumPages (filter (fun p => negb (f p)) items).
Proof.
  induction items as [| p rest IH]; [reflexivity |].
  cbn [filter Spec.sumPages]. destruct (f p); cbn [negb Spec.sumPages]; lia.
Qed.

(** The derived total is the sum of the page counts of the items in the
    session: an added batch raises it by the pages of the batch, a
    removal lowers it by the pages of every item with the id removed, a
    reordering leaves it as it was.  The empty session totals 0; adding
    an item of 5 pages, under an id no other item has, to a session
    totalling 10 gives 15, and removing that item again gives 10. *)
Theorem totalPages_after_operations {L : PdfLib} (dev : Device) :
  (forall st st',
     Spec.sessionOp (L := L) dev st st' ->
     totalPages (data st') = Spec.sumPages (data st'))
  /\ (forall st items,
        totalPages (data (setData (fun prev => prev ++ items) st))
        = totalPages (data st) + Spec.sumPages items)
  /\ (forall st i,
        totalPages (data (removePdf_onPress i st))
        = totalPages (data st)
          - Spec.sumPages (filter (fun p => JS.eqb (id p) i) (data st)))
  /\ (forall st st' data',
        Permutation data' (data st) ->
        onDragEnd data' st = Ok st' ->
        totalPages (data st') = totalPages (data st))
  /\ totalPages (data initial) = 0
  /\ (forall st x,
        totalPages (data st) = 10 ->
        pages x = 5 ->
        ~ In (id x) (map id (data st)) ->
        let st1 := setData (fun prev => prev ++ [x]) st in
        totalPages (data st1) = 15
        /\ totalPages (data (removePdf_onPress (id x) st1)) = 10).
Proof.
  repeat match goal with |- _ /\ _ => split end.
  - intros st st' _. apply totalPages_sum.
  - intros st items. cbn [data setData].
    now rewrite totalPages_app, (totalPages_sum items).
  - intros st i. unfold removePdf_onPress. cbn [data setData].
    rewrite !totalPages_sum.
    pose proof (sumPages_filter (fun p => JS.eqb (id p) i) (data st)) as H.
    cbv beta in H. lia.
  - intros st st' data' Hperm Hdrag. unfold onDragEnd in Hdrag.
    injection Hdrag as <-. cbn [data setData]. rewrite !totalPages_sum.
    now apply sumPages_perm.
  - reflexivity.
  - intros st x Hten Hfive Hfresh st1. subst st1. split.
    + cbn [data setData]. rewrite totalPages_app, Hten.
      unfold totalPages. cbn [fold_left]. lia.
    + unfold removePdf_onPress. cbn [data setData].
      now rewrite remove_added.
Qed.

(* ===================================================================== *)
(** ** Merge validation and the output name *)
(* ===================================================================== *)

Lemma push_alert_inj a a' w : push_alert a w = push_alert a' w -> a = a'.
Proof.
  intros H. apply (f_equal alerts) in H. cbn [alerts push_alert] in H.
  apply app_inj_tail in H. apply H.
Qed.

(** A press of the merge button shows one dialog only. *)
Lemma shows_unique st a a' : Spec.shows st a -> Spec.shows st a' -> a = a'.
Proof.
  intros Ha Ha'.
  set (w := {| files := fun _ => Throw []; writeError := fun _ => None;
               shareError := fun _ => None;
               clock := fun _ => 0; ticks := 0%nat; alerts := [];
               console := []; shared := [] |}).
  specialize (Ha w). specialize (Ha' w). rewrite Ha in Ha'.
  apply (push_alert_inj a a' w). congruence.
Qed.

Lemma onPressMerge_too_few st :
  length (data st) < 2 -> Spec.rejectedWith st Spec.TooFewItems.
Proof.
  intros Hlen w. unfold onPressMerge.
  destruct (Z.ltb_spec (length (data st)) 2); [reflexivity | lia].
Qed.

Lemma onPressMerge_over_limit st :
  2 <= length (data st) ->
  totalPages (data st) > MAX_TOTAL_PAGES ->
  Spec.rejectedWith st
    (Spec.PageLimitExceeded (totalPages (data st)) MAX_TOTAL_PAGES).
Proof.
  intros Hlen Htotal w. unfold onPressMerge.
  destruct (Z.ltb_spec (length (data st)) 2); [lia |].
  destruct (Z.gtb_spec (totalPages (data st)) MAX_TOTAL_PAGES);
    [reflexivity | lia].
Qed.

Lemma onPressMerge_passes st :
  2 <= length (data st) ->
  totalPages (data st) <= MAX_TOTAL_PAGES ->
  Spec.shows st
    (Spec.confirmAlert
       (if negb (JS.eqb (trim (fileName st)) [])
        then fileName st
        else getDefaultMergedName (data st))
       (data st)).
Proof.
  intros Hlen Htotal w. unfold onPressMerge.
  destruct (Z.ltb_spec (length (data st)) 2); [lia |].
  destruct (Z.gtb_spec (totalPages (data st)) MAX_TOTAL_PAGES);
    [lia | reflexivity].
Qed.

Lemma violation_not_confirm v n d :
  Spec.violationAlert v <> Spec.confirmAlert n d.
Proof. destruct v; discriminate. Qed.

(** C5, as the code has it.  A session of fewer than two items is rejected
    as [TooFewItems] whatever its page count.  A session of at least two
    items whose total exceeds [MAX_TOTAL_PAGES] (150) is rejected as
    [PageLimitExceeded], the dialog carrying the total and the limit.  A
    session of at least two items whose total is at most the limit, so
    also exactly the limit, passes.  A rejected commit does not pass: its
    dialog has no button that starts a merge, and nothing is written or
    shared. *)
Theorem gate_first_violation :
  (forall st, length (data st) < 2 ->
     Spec.rejectedWith st Spec.TooFewItems)
  /\ (forall st,
        2 <= length (data st) ->
        totalPages (data st) > MAX_TOTAL_PAGES ->
        Spec.rejectedWith st
          (Spec.PageLimitExceeded (totalPages (data st)) MAX_TOTAL_PAGES))
  /\ MAX_TOTAL_PAGES = 150
  /\ (forall st,
        2 <= length (data st) ->
        totalPages (data st) <= MAX_TOTAL_PAGES ->
        Spec.passes st)
  /\ (forall st v,
        Spec.rejectedWith st v ->
        ~ Spec.passes st
        /\ (forall b, In b (buttons (Spec.violationAlert v)) ->
              onPress b = None)
        /\ (forall w,
              files (snd (onPressMerge st w)) = files w
              /\ shared (snd (onPressMerge st w)) = shared w)).
Proof.
  repeat match goal with |- _ /\ _ => split end.
  - apply onPressMerge_too_few.
  - apply onPressMerge_over_limit.
  - reflexivity.
  - intros st Hlen Htotal. eexists. now apply onPressMerge_passes.
  - intros st v H. split; [| split].
    + intros [n Hpass].
      now apply (violation_not_confirm v n (data st)), (shows_unique st).
    + destruct v; intros b [].
    + intros w. rewrite (H w). split; reflexivity.
Qed.

(** C5 as stated fails for a session of one item with 151 pages: its total
    exceeds the limit, and it is rejected as [TooFewItems], not as
    [PageLimitExceeded]. *)
Lemma one_item_over_limit_is_too_few :
  totalPages (data Demo.one_big) = 151
  /\ 151 > MAX_TOTAL_PAGES
  /\ Spec.rejectedWith Demo.one_big Spec.TooFewItems
  /\ ~ Spec.rejectedWith Demo.one_big
         (Spec.PageLimitExceeded 151 MAX_TOTAL_PAGES).
Proof.
  split; [reflexivity |]. split; [reflexivity |].
  assert (H : Spec.rejectedWith Demo.one_big Spec.TooFewItems)
    by (apply onPressMerge_too_few; reflexivity).
  split; [exact H |]. intros H'.
  pose proof (shows_unique _ _ _ H H') as E. discriminate E.
Qed.

(** *** The name the merge runs under *)

Lemma trimStart_blank s : trimStart s = [] <-> Spec.blank s = true.
Proof.
  unfold Spec.blank. induction s as [| c r IH]; [now split |].
  cbn [trimStart forallb]. destruct (isWhiteSpace c); cbn [andb].
  - exact IH.
  - split; discriminate.
Qed.

Lemma trimStart_not_blank s :
  trimStart s <> [] -> Spec.blank (trimStart s) = false.
Proof.
  unfold Spec.blank. induction s as [| c r IH];
    [intros H; exfalso; now apply H |].
  cbn [trimStart]. destruct (isWhiteSpace c) eqn:E; [exact IH |].
  intros _. cbn [forallb]. now rewrite E.
Qed.

Lemma blank_rev s : Spec.blank (rev s) = Spec.blank s.
Proof.
  unfold Spec.blank. apply Bool.eq_true_iff_eq.
  rewrite !forallb_forall. split; intros H x Hx; apply H.
  - now apply in_rev in Hx.
  - now apply in_rev.
Qed.

(** The trimmed text is empty exactly when the text is blank. *)
Lemma trim_blank s :
  JS.eqb (trim s) [] = Spec.blank s.
Proof.
  apply Bool.eq_true_iff_eq. rewrite eqb_eq. unfold trim, trimEnd.
  split.
  - intros H. apply (f_equal (@rev Z)) in H.
    rewrite rev_involutive in H. cbn [rev] in H.
    apply trimStart_blank in H. rewrite blank_rev in H.
    destruct (list_eq_dec Z.eq_dec (trimStart s) []) as [E | NE].
    + now apply trimStart_blank.
    + apply trimStart_not_blank in NE. congruence.
  - intros H. apply trimStart_blank in H. rewrite H. reflexivity.
Qed.

(** The dialog of a commit that passes validation names the default name
    for a blank field, and the text of the field otherwise. *)
Lemma onPressMerge_mergeName (st : State) :
  2 <= length (data st) ->
  totalPages (data st) <= MAX_TOTAL_PAGES ->
  Spec.shows st (Spec.confirmAlert (Spec.mergeName st) (data st)).
Proof.
  intros Hlen Htotal.
  pose proof (onPressMerge_passes st Hlen Htotal) as H.
  rewrite trim_blank in H. unfold Spec.mergeName.
  destruct (Spec.blank (fileName st)); exact H.
Qed.

(* ===================================================================== *)
(** ** Reordering *)
(* ===================================================================== *)

(** C8, as the code has it.  [onDragEnd] never fails: whatever list it is
    handed becomes the item list, in the order given, and the default name
    is derived again.  When the list handed over is a permutation of the
    current items, as the drag list delivers it, the ids are a permutation
    of the current ids, the items are the same records (so every page
    count is the one computed at load time) and the total is unchanged. *)
Theorem onDragEnd_replaces_list (st : State) (data' : list PdfItem) :
  (exists st',
     onDragEnd data' st = Ok st'
     /\ data st' = data'
     /\ fileName st' = getDefaultMergedName data'
     /\ merging st' = merging st)
  /\ (Permutation data' (data st) ->
      forall st', onDragEnd data' st = Ok st' ->
        Spec.isPermutationOfIds (map id (data st')) (data st)
        /\ (forall x, In x (data st') <-> In x (data st))
        /\ totalPages (data st') = totalPages (data st)).
Proof.
  split.
  - eexists. split; [reflexivity |]. repeat split.
  - intros Hperm st' Hdrag. unfold onDragEnd in Hdrag.
    injection Hdrag as <-. cbn [data setData]. split; [| split].
    + unfold Spec.isPermutationOfIds. now apply Permutation_map.
    + intros x. split; apply Permutation_in;
        [exact Hperm | now apply Permutation_sym].
    + rewrite !totalPages_sum. now apply sumPages_perm.
Qed.

(** The two items of the demo session swapped. *)
Lemma onDragEnd_replaces_list_witness :
  Spec.isPermutationOfIds
    (map id [Demo.item "1700000000000-1" "b.pdf" 6;
             Demo.item "1700000000000-0" "a.pdf" 4])
    (data Demo.ten)
  /\ totalPages [Demo.item "1700000000000-1" "b.pdf" 6;
                 Demo.item "1700000000000-0" "a.pdf" 4]
     = totalPages (data Demo.ten).
Proof.
  pose proof (proj2 (onDragEnd_replaces_list Demo.ten
                [Demo.item "1700000000000-1" "b.pdf" 6;
                 Demo.item "1700000000000-0" "a.pdf" 4])
                (perm_swap _ _ [])
                _ eq_refl) as H.
  split; [apply H | apply H].
Defined.

(** C8 as stated fails: a list that drops one id and repeats another, and
    a list with an id the session never had, are both accepted. *)
Lemma onDragEnd_accepts_any_list :
  ~ Spec.isPermutationOfIds
      (map id [Demo.item "1700000000000-0" "a.pdf" 4;
               Demo.item "1700000000000-0" "a.pdf" 4])
      (data Demo.ten)
  /\ onDragEnd [Demo.item "1700000000000-0" "a.pdf" 4;
                Demo.item "1700000000000-0" "a.pdf" 4] Demo.ten
     = Ok (Demo.session [Demo.item "1700000000000-0" "a.pdf" 4;
                         Demo.item "1700000000000-0" "a.pdf" 4]
             (str "a_merged.pdf"))
  /\ ~ Spec.isPermutationOfIds
         (map id [Demo.item "9-9" "x.pdf" 1]) (data Demo.ten)
  /\ onDragEnd [Demo.item "9-9" "x.pdf" 1] Demo.ten
     = Ok (Demo.session [Demo.item "9-9" "x.pdf" 1] (str "x_merged.pdf")).
Proof.
  repeat split.
  - unfold Spec.isPermutationOfIds. intros H.
    assert (Hin : In (str "1700000000000-1")
                    (map id [Demo.item "1700000000000-0" "a.pdf" 4;
                             Demo.item "1700000000000-0" "a.pdf" 4])).
    { apply (Permutation_in _ (Permutation_sym H)). right. now left. }
    destruct Hin as [E | [E | []]]; vm_compute in E; discriminate E.
  - intros H. apply Permutation_length in H. discriminate H.
Qed.

(* ===================================================================== *)
(** ** Merge assembly *)
(* ===================================================================== *)

Section Assembly.
Context {L : PdfLib}.

Lemma copyPages_from (pre suf : list (Page L)) :
  PDFDocument.copyPages (pre ++ suf)
    (map Z.of_nat (seq (List.length pre) (List.length suf)))
  = Ok suf.
Proof.
  revert pre. induction suf as [| p suf IH]; intros pre; [reflexivity |].
  cbn [List.length seq map PDFDocument.copyPages].
  destruct (Z.ltb_spec (Z.of_nat (List.length pre)) 0) as [Hneg | _];
    [lia |].
  rewrite Nat2Z.id, nth_error_app2, Nat.sub_diag by lia.
  cbn [nth_error].
  replace (pre ++ p :: suf) with ((pre ++ [p]) ++ suf)
    by (rewrite <- app_assoc; reflexivity).
  replace (S (List.length pre)) with (List.length (pre ++ [p]))
    by (rewrite List.length_app; cbn [List.length]; lia).
  now rewrite IH.
Qed.

(** Copying the pages at all indices of a document gives its pages, in
    their order. *)
Lemma copyPages_all (pdf : list (Page L)) :
  PDFDocument.copyPages pdf (PDFDocument.getPageIndices pdf) = Ok pdf.
Proof. apply (copyPages_from [] pdf). Qed.

Lemma addPage_all (pages merged : list (Page L)) :
  fold_left PDFDocument.addPage pages merged = merged ++ pages.
Proof.
  revert merged. induction pages as [| p pages IH]; intros merged;
    cbn [fold_left]; [now rewrite app_nil_r |].
  rewrite IH. unfold PDFDocument.addPage. now rewrite <- app_assoc.
Qed.

(** The loop appends the pages of each document, in list order, and leaves
    the world as it is. *)
Lemma buildMergedPdf_loop_concat (w : World) data :
  forall (docs : list (list (Page L))) merged,
  Forall2 (Spec.loadsAs (L := L) w) data docs ->
  buildMergedPdf_loop (L := L) data merged w
  = (Ok (merged ++ List.concat docs), w).
Proof.
  induction data as [| item rest IH]; intros docs merged Hload;
    inversion Hload as [| item' doc rest' docs' Hitem Hrest]; subst.
  - cbn [buildMergedPdf_loop List.concat]. now rewrite app_nil_r.
  - destruct Hitem as (t & bytes & Hread & Hdecode & Hparse).
    cbn [buildMergedPdf_loop List.concat].
    unfold IO.bind at 1, FileSystem.readAsStringAsync. rewrite Hread.
    unfold IO.bind at 1, IO.lift at 1. rewrite Hdecode.
    unfold IO.bind at 1, IO.lift at 1. rewrite Hparse.
    unfold IO.bind at 1, IO.lift at 1. rewrite copyPages_all.
    rewrite addPage_all, (IH docs' _ Hrest). now rewrite app_assoc.
Qed.

Lemma length_concat_docs data (docs : list (list (Page L))) :
  Forall2 (fun item doc => pages item = length doc) data docs ->
  length (List.concat docs) = Spec.sumPages data.
Proof.
  induction 1 as [| item doc data docs Hp _ IH];
    cbn [List.concat Spec.sumPages]; [reflexivity |].
  rewrite length_app_Z, IH, Hp. reflexivity.
Qed.

(** Page [k] of the [i]-th document is the output page that many places
    after the pages of the documents before it. *)
Lemma nth_error_concat_docs data (docs : list (list (Page L))) :
  Forall2 (fun item doc => pages item = length doc) data docs ->
  forall i doc k,
    nth_error docs i = Some doc ->
    (k < List.length doc)%nat ->
    nth_error (List.concat docs) (Spec.pagesBefore data i + k) = nth_error doc k.
Proof.
  unfold Spec.pagesBefore.
  induction 1 as [| item d data docs Hp Hrest IH]; intros i doc k Hi Hk.
  - destruct i; discriminate Hi.
  - destruct i as [| i]; cbn [nth_error] in Hi.
    + injection Hi as ->. cbn [firstn Spec.sumPages List.concat Z.to_nat].
      now rewrite nth_error_app1.
    + cbn [firstn Spec.sumPages List.concat].
      assert (Hnn : 0 <= Spec.sumPages (firstn i data)).
      { rewrite <- (length_concat_docs (firstn i data) (firstn i docs)).
        - apply length_nonneg.
        - clear - Hrest. revert i.
          induction Hrest; intros [| i]; cbn [firstn]; constructor; auto. }
      rewrite Hp. unfold length.
      replace (Z.to_nat (Z.of_nat (List.length d)
                         + Spec.sumPages (firstn i data)) + k)%nat
        with (List.length d
              + (Z.to_nat (Spec.sumPages (firstn i data)) + k))%nat by lia.
      rewrite nth_error_app2 by lia.
      replace (List.length d
               + (Z.to_nat (Spec.sumPages (firstn i data)) + k)
               - List.length d)%nat
        with (Z.to_nat (Spec.sumPages (firstn i data)) + k)%nat by lia.
      now apply IH.
Qed.

Lemma prepareForSave_pages (doc : list (Page L)) :
  doc <> [] -> PDFDocument.prepareForSave doc = doc.
Proof.
  intros Hne. unfold PDFDocument.prepareForSave, PDFDocument.getPageCount.
  destruct doc as [| p doc]; [congruence |]. reflexivity.
Qed.

(** What [buildMergedPdf] does when every item loads and the output can be
    written: the pages of the documents, in list order, are prepared for
    saving, serialized, and written under the name in the save
    directory. *)
Lemma buildMergedPdf_writes (dev : Device) (w : World)
  (data : list PdfItem) (docs : list (list (Page L)))
  (finalName dir : jsstring) :
  Spec.saveDir dev dir ->
  Forall2 (Spec.loadsAs (L := L) w) data docs ->
  writeError w (dir ++ finalName) = None ->
  buildMergedPdf (L := L) dev data finalName w
  = (Ok (dir ++ finalName),
     set_files
       (FileSystem.put (dir ++ finalName)
          (uint8ArrayToBase64 (PDFDocument.save (List.concat docs)))
          (files w)) w).
Proof.
  intros [Hdir Hne] Hload Hwrite.
  unfold buildMergedPdf, IO.tryCatch, IO.bind at 1.
  rewrite (buildMergedPdf_loop_concat w data docs _ Hload).
  cbn [app PDFDocument.create].
  assert (Hd : match cacheDirectory dev with
               | Some d => Some d
               | None => documentDirectory dev
               end = Some dir).
  { destruct Hdir as [-> | [-> ->]]; reflexivity. }
  rewrite Hd. destruct dir as [| c d]; [congruence |].
  unfold IO.bind, FileSystem.writeAsStringAsync.
  cbn [app] in Hwrite |- *. rewrite Hwrite. reflexivity.
Qed.

(** A file holding the base64 text of serialized pages reads back as
    those pages, where the library parses what it serializes. *)
Lemma serialized_loadsAs (w : World) (item : PdfItem)
  (written : list (Page L)) :
  files w (uri item)
  = Ok (uint8ArrayToBase64 (PDFWriter_serializeToBuffer L written)) ->
  (forall d, PDFDocument_load L (PDFWriter_serializeToBuffer L d) = Ok d) ->
  Spec.loadsAs (L := L) w item written.
Proof.
  intros Hfile Hparse.
  exists (uint8ArrayToBase64 (PDFWriter_serializeToBuffer L written)),
    (PDFWriter_serializeToBuffer L written).
  split; [exact Hfile |]. split; [| apply Hparse].
  unfold base64ToUint8Array, uint8ArrayToBase64, BufferPkg.from_bytes.
  apply buffer_round_trip.
Qed.

(** C1, as the code has it.  For session items whose locations load as
    the documents [docs], with the page counts [p1, ..., pn] recorded for
    them, and an output location that can be written, [buildMergedPdf]
    writes the serialization of one document [written].  When
    [p1 + ... + pn] is at least 1, [written] has exactly that many pages:
    the pages of the first document, then those of the second, and so on,
    each document's pages in their own order and unchanged.  When the sum
    is 0, [written] is the one blank page the library adds on saving.
    Where the library parses what it serializes, the file written reads
    back as [written]. *)
Theorem buildMergedPdf_concatenates_pages (dev : Device) (w : World)
  (data : list PdfItem) (docs : list (list (Page L)))
  (finalName dir : jsstring) :
  Spec.saveDir dev dir ->
  Forall2 (Spec.loadsAs (L := L) w) data docs ->
  Forall2 (fun item doc => pages item = length doc) data docs ->
  writeError w (dir ++ finalName) = None ->
  exists (written : list (Page L)) (w' : World),
    buildMergedPdf (L := L) dev data finalName w
    = (Ok (dir ++ finalName), w')
    /\ files w' (dir ++ finalName)
       = Ok (uint8ArrayToBase64 (PDFWriter_serializeToBuffer L written))
    /\ (1 <= Spec.sumPages data ->
        written = List.concat docs
        /\ length written = Spec.sumPages data
        /\ forall i doc k,
             nth_error docs i = Some doc ->
             (k < List.length doc)%nat ->
             nth_error written (Spec.pagesBefore data i + k)
             = nth_error doc k)
    /\ (Spec.sumPages data = 0 -> written = [PDFPage_create L])
    /\ ((forall d,
           PDFDocument_load L (PDFWriter_serializeToBuffer L d) = Ok d) ->
        Spec.loadsAs (L := L) w'
          {| id := []; name := finalName; uri := dir ++ finalName;
             pages := length written |}
          written).
Proof.
  intros Hdir Hload Hpages Hwrite.
  pose proof (length_concat_docs data docs Hpages) as Hlen.
  exists (PDFDocument.prepareForSave (List.concat docs)).
  eexists.
  split; [exact (buildMergedPdf_writes dev w data docs finalName dir
                   Hdir Hload Hwrite) |].
  assert (Hfile :
    files (set_files
             (FileSystem.put (dir ++ finalName)
                (uint8ArrayToBase64 (PDFDocument.save (List.concat docs)))
                (files w)) w) (dir ++ finalName)
    = Ok (uint8ArrayToBase64
            (PDFWriter_serializeToBuffer L
               (PDFDocument.prepareForSave (List.concat docs))))).
  { cbn [files set_files]. unfold FileSystem.put. now rewrite eqb_refl. }
  split; [exact Hfile |]. split; [| split].
  - intros Hsum.
    assert (Hne : List.concat docs <> []).
    { intros E. rewrite E in Hlen. change (length (@nil (Page L))) with 0 in Hlen.
      lia. }
    rewrite (prepareForSave_pages _ Hne).
    split; [reflexivity |]. split; [exact Hlen |].
    now apply nth_error_concat_docs.
  - intros Hsum. rewrite Hsum in Hlen.
    unfold PDFDocument.prepareForSave, PDFDocument.getPageCount.
    rewrite Hlen. cbn [Z.eqb].
    destruct (List.concat docs) as [| p r]; [reflexivity |].
    unfold length in Hlen. cbn [List.length] in Hlen. lia.
  - intros Hparse. now apply serialized_loadsAs.
Qed.

End Assembly.

(** A run of the merge on a.pdf (pages A, B) and c.pdf (pages C, D, E):
    the file written reads back as the pages A, B, C, D, E. *)
Lemma buildMergedPdf_concatenates_pages_witness :
  exists w' : World,
    buildMergedPdf (L := Demo.lib) Demo.device [Demo.item_a; Demo.item_c]
      (str "a_merged.pdf") Demo.world
    = (Ok (str "file:///cache/a_merged.pdf"), w')
    /\ Spec.loadsAs (L := Demo.lib) w'
         {| id := []; name := str "a_merged.pdf";
            uri := str "file:///cache/a_merged.pdf"; pages := 5 |}
         (list_byte_of_string "ABCDE").
Proof.
  destruct (buildMergedPdf_concatenates_pages (L := Demo.lib)
              Demo.device Demo.world [Demo.item_a; Demo.item_c]
              [list_byte_of_string "AB"; list_byte_of_string "CDE"]
              (str "a_merged.pdf") (str "file:///cache/"))
    as (written & w' & Hrun & _ & Hpages & _ & Hback).
  - split; [left; reflexivity | discriminate].
  - constructor; [| constructor; [| constructor]].
    + exists (Demo.fileOf (list_byte_of_string "AB")),
        (PDFDocument.save (L := Demo.lib) (list_byte_of_string "AB")).
      repeat split; vm_compute; reflexivity.
    + exists (Demo.fileOf (list_byte_of_string "CDE")),
        (PDFDocument.save (L := Demo.lib) (list_byte_of_string "CDE")).
      repeat split; vm_compute; reflexivity.
  - repeat constructor.
  - reflexivity.
  - exists w'. split; [exact Hrun |].
    destruct Hpages as (Hwritten & _); [vm_compute; discriminate |].
    specialize (Hback (fun d => eq_refl)).
    rewrite Hwritten in Hback. exact Hback.
Defined.

(** C1 fails as stated.  Two documents without a page, each loading as
    recorded, total 0 pages, and the file written for them reads back as
    a document of 1 page, the blank page added on saving.  And on
    Android, two documents of 2 and 3 pages picked together at one clock
    reading are both kept at the same temporary location, which holds the
    second: the session records 2 and 3 pages, and the file written for
    it holds 6, the pages C, D, E twice. *)
Lemma merged_page_count_is_not_the_sum :
  (Spec.sumPages Samples.page_less = 0
   /\ Forall2 (Spec.loadsAs (L := Demo.lib) Samples.shelf)
        Samples.page_less [[]; []]
   /\ fst (buildMergedPdf (L := Demo.lib) Demo.device Samples.page_less
             (str "out.pdf") Samples.shelf)
      = Ok (str "file:///cache/out.pdf")
   /\ exists doc : list byte,
        Spec.loadsAs (L := Demo.lib)
          (snd (buildMergedPdf (L := Demo.lib) Demo.device
                  Samples.page_less (str "out.pdf") Samples.shelf))
          {| id := []; name := str "out.pdf";
             uri := str "file:///cache/out.pdf"; pages := 0 |}
          doc
        /\ length doc = 1)
  /\ (map pages Samples.android_items = [2; 3]
      /\ fst (buildMergedPdf (L := Demo.lib) Samples.android
                Samples.android_items (str "out.pdf")
                (snd Samples.android_pick))
         = Ok (str "file:///cache/out.pdf")
      /\ files (snd (buildMergedPdf (L := Demo.lib) Samples.android
                       Samples.android_items (str "out.pdf")
                       (snd Samples.android_pick)))
           (str "file:///cache/out.pdf")
         = Ok (Demo.fileOf (list_byte_of_string "CDECDE"))).
Proof.
  split; [split; [reflexivity | split; [| split]] |].
  - constructor; [| constructor; [| constructor]];
      exists (uint8ArrayToBase64
                (PDFWriter_serializeToBuffer Demo.lib [])),
        (PDFWriter_serializeToBuffer Demo.lib []);
      repeat split; vm_compute; reflexivity.
  - vm_compute. reflexivity.
  - exists [" "%byte]. split; [| reflexivity].
    exists (uint8ArrayToBase64
              (PDFWriter_serializeToBuffer Demo.lib [" "%byte])),
      (PDFWriter_serializeToBuffer Demo.lib [" "%byte]).
    repeat split; vm_compute; reflexivity.
  - split; [vm_compute; reflexivity |].
    split; vm_compute; reflexivity.
Qed.

(* ===================================================================== *)
(** ** Loading a batch *)
(* ===================================================================== *)

Section Loading.
Context {L : PdfLib}.
Variable dev : Device.

Lemma pickPdf_loop_loads assets :
  forall i w items w' acc,
  Spec.loadsBatch (L := L) dev assets i w items w' ->
  pickPdf_loop (L := L) dev assets i acc w = (Ok (acc ++ items), w').
Proof.
  induction assets as [| file rest IH]; intros i w items w' acc Hb;
    inversion Hb as [| f r i' w0 w1 w2 item items' Hitem Hrest]; subst.
  - cbn [pickPdf_loop]. unfold IO.ret. now rewrite app_nil_r.
  - cbn [pickPdf_loop]. unfold IO.bind. rewrite Hitem.
    rewrite (IH _ _ _ _ _ Hrest). now rewrite <- app_assoc.
Qed.

Lemma pickPdf_loop_fails pre :
  forall i w items w1 acc bad post e w2,
  Spec.loadsBatch (L := L) dev pre i w items w1 ->
  pickPdf_item (L := L) dev bad (i + length pre) w1 = (Throw e, w2) ->
  pickPdf_loop (L := L) dev (pre ++ bad :: post) i acc w = (Throw e, w2).
Proof.
  induction pre as [| file rest IH];
    intros i w items w1 acc bad post e w2 Hb Hbad;
    inversion Hb as [| f r i' w0 w1' w2' item items' Hitem Hrest]; subst.
  - cbn [app pickPdf_loop]. unfold IO.bind.
    change (length (@nil Asset)) with 0 in Hbad.
    rewrite Z.add_0_r in Hbad. now rewrite Hbad.
  - cbn [app pickPdf_loop]. unfold IO.bind. rewrite Hitem.
    apply (IH _ _ _ _ _ _ _ _ _ Hrest).
    replace (i + 1 + length rest) with (i + length (file :: rest))
      by (unfold length; cbn [List.length]; lia).
    exact Hbad.
Qed.

Lemma loadsBatch_length assets :
  forall i w items w',
  Spec.loadsBatch (L := L) dev assets i w items w' ->
  List.length items = List.length assets.
Proof.
  induction assets as [| file rest IH]; intros i w items w' Hb;
    inversion Hb; subst; cbn [List.length]; [reflexivity |].
  f_equal. eapply IH. eassumption.
Qed.

(** C3, as the code has it.  A batch is added whole or not at all.  When
    every asset loads, the items are appended in batch order.  When an
    asset fails to load, no item of the batch is added, neither the ones
    loaded before it nor the ones after it: the session is left as it
    was, and one dialog shows the message of the error raised for the
    failing asset. *)
Theorem pickPdf_all_or_nothing (st : State) (w : World) :
  (forall assets items w',
     Spec.loadsBatch (L := L) dev assets 0 w items w' ->
     pickPdf (L := L) dev (Picked assets) st w
     = (Ok (setData (fun prev => prev ++ items) st), w')
     /\ List.length items = List.length assets)
  /\ (forall pre bad post items w1 e w2,
        Spec.loadsBatch (L := L) dev pre 0 w items w1 ->
        pickPdf_item (L := L) dev bad (length pre) w1 = (Throw e, w2) ->
        exists w',
          pickPdf (L := L) dev (Picked (pre ++ bad :: post)) st w
          = (Ok st, w')
          /\ alerts w' = alerts w2 ++ [Spec.loadFailedAlert e]
          /\ files w' = files w2).
Proof.
  split.
  - intros assets items w' Hb. split.
    + unfold pickPdf, IO.tryCatch, IO.bind.
      now rewrite (pickPdf_loop_loads assets 0 w items w' [] Hb).
    + eapply loadsBatch_length. eassumption.
  - intros pre bad post items w1 e w2 Hb Hbad.
    eexists. unfold pickPdf, IO.tryCatch, IO.bind at 1.
    rewrite (pickPdf_loop_fails pre 0 w items w1 [] bad post e w2 Hb Hbad).
    split; [reflexivity |]. split; reflexivity.
Qed.

End Loading.

(** A batch of a.pdf, b.pdf (no PDF) and c.pdf: nothing is added. *)
Lemma pickPdf_all_or_nothing_witness :
  exists w',
    pickPdf (L := Demo.lib) Demo.device
      (Picked [Demo.asset "a.pdf"; Demo.asset "b.pdf"; Demo.asset "c.pdf"])
      initial Demo.world
    = (Ok initial, w')
    /\ alerts w'
       = [Spec.loadFailedAlert (str "Failed to parse PDF document")].
Proof.
  destruct (proj2 (pickPdf_all_or_nothing (L := Demo.lib) Demo.device
                     initial Demo.world)
              [Demo.asset "a.pdf"] (Demo.asset "b.pdf") [Demo.asset "c.pdf"]
              [Demo.item_a]
              (snd (pickPdf_item (L := Demo.lib) Demo.device
                      (Demo.asset "a.pdf") 0 Demo.world))
              (str "Failed to parse PDF document")
              (snd (pickPdf_item (L := Demo.lib) Demo.device
                      (Demo.asset "b.pdf") 1
                      (snd (pickPdf_item (L := Demo.lib) Demo.device
                              (Demo.asset "a.pdf") 0 Demo.world)))))
    as (w' & Hrun & Halerts & _).
  - eapply Spec.batch_cons; [| apply Spec.batch_nil].
    vm_compute. reflexivity.
  - vm_compute. reflexivity.
  - exists w'. split; [exact Hrun |]. rewrite Halerts. reflexivity.
Defined.

(** C3 as stated fails: in a batch of three where only the second is no
    PDF, the first and the third load on their own, and yet the session
    holds neither after the batch. *)
Lemma batch_with_one_bad_item_adds_nothing :
  fst (pickPdf_item (L := Demo.lib) Demo.device (Demo.asset "a.pdf") 0
         Demo.world)
  = Ok (Demo.item "1700000000000-0" "a.pdf" 2)
  /\ fst (pickPdf_item (L := Demo.lib) Demo.device (Demo.asset "c.pdf") 2
            Demo.world)
     = Ok (Demo.item "1700000000000-2" "c.pdf" 3)
  /\ fst (pickPdf_item (L := Demo.lib) Demo.device (Demo.asset "b.pdf") 1
            Demo.world)
     = Throw (str "Failed to parse PDF document")
  /\ fst (pickPdf (L := Demo.lib) Demo.device
            (Picked [Demo.asset "a.pdf"; Demo.asset "b.pdf";
                     Demo.asset "c.pdf"])
            initial Demo.world)
     = Ok initial
  /\ data initial = [].
Proof. repeat split; vm_compute; reflexivity. Qed.

(* ===================================================================== *)
(** ** Item ids *)
(* ===================================================================== *)

(** *** An id is a clock reading and an index *)

Lemma str_inj s s' : str s = str s' -> s = s'.
Proof.
  unfold str. intros H.
  rewrite <- (string_of_list_ascii_of_string s),
    <- (string_of_list_ascii_of_string s').
  f_equal. revert H.
  generalize (list_ascii_of_string s) (list_ascii_of_string s').
  induction l as [| a l IH]; intros [| a' l'] H; try discriminate H;
    [reflexivity |].
  cbn [map] in H. injection H as Ha Hl. f_equal; [| now apply IH].
  apply N2Z.inj in Ha.
  rewrite <- (ascii_N_embedding a), <- (ascii_N_embedding a'). now f_equal.
Qed.

Lemma to_int_printable n : Z.to_int n <> Decimal.Pos Decimal.Nil
                           /\ Z.to_int n <> Decimal.Neg Decimal.Nil.
Proof.
  destruct n as [| p | p]; cbn [Z.to_int]; split; try discriminate;
    intros H; injection H as H; now apply (DecimalPos.Unsigned.to_uint_nonnil p).
Qed.

(** The decimal rendering tells integers apart. *)
Lemma toString10_inj n m : toString10 n = toString10 m -> n = m.
Proof.
  unfold toString10. intros H. apply str_inj in H.
  apply DecimalZ.to_int_inj.
  destruct (to_int_printable n) as [Hn1 Hn2].
  destruct (to_int_printable m) as [Hm1 Hm2].
  pose proof (NilZero.isi (Z.to_int n) Hn1 Hn2) as En.
  pose proof (NilZero.isi (Z.to_int m) Hm1 Hm2) as Em.
  rewrite H in En. congruence.
Qed.

Lemma uint_digits d :
  Forall (fun c => 48 <= c <= 57) (str (NilEmpty.string_of_uint d)).
Proof.
  induction d; cbn [NilEmpty.string_of_uint]; try constructor;
    try assumption; cbn; lia.
Qed.

(** The rendering of a number that is not negative has digits only. *)
Lemma toString10_digits n :
  0 <= n -> Forall (fun c => 48 <= c <= 57) (toString10 n).
Proof.
  intros Hn. unfold toString10.
  destruct n as [| p | p]; [repeat constructor; cbn; lia | | lia].
  cbn [Z.to_int NilZero.string_of_int NilZero.string_of_uint].
  pose proof (uint_digits (Pos.to_uint p)) as H.
  destruct (Pos.to_uint p); try exact H.
  repeat constructor; cbn; lia.
Qed.

Lemma toString10_no_dash n : 0 <= n -> ~ In 45 (toString10 n).
Proof.
  intros Hn Hin. pose proof (toString10_digits n Hn) as H.
  rewrite Forall_forall in H. specialize (H 45 Hin). lia.
Qed.

Lemma split_at_last_dash a b a' b' :
  ~ In 45 b -> ~ In 45 b' ->
  a ++ 45 :: b = a' ++ 45 :: b' -> a = a' /\ b = b'.
Proof.
  intros Hb Hb' E.
  assert (Eb : b = b').
  { apply (f_equal (@rev Z)) in E.
    rewrite !rev_app_distr in E. cbn [rev] in E.
    rewrite <- !app_assoc in E. cbn [app] in E.
    apply (f_equal (split_head 45)) in E.
    rewrite !split_head_first in E
      by (intros Hin; apply in_rev in Hin; contradiction).
    rewrite <- (rev_involutive b), <- (rev_involutive b'). now f_equal. }
  subst b'. split; [| reflexivity].
  now apply app_inv_tail in E.
Qed.

(** Two ids made by [pickPdf] are the same exactly when the clock reading
    and the index in the batch are both the same. *)
Lemma id_inj now i now' j :
  0 <= i -> 0 <= j ->
  toString10 now ++ str "-" ++ toString10 i
  = toString10 now' ++ str "-" ++ toString10 j ->
  now = now' /\ i = j.
Proof.
  intros Hi Hj E. change (str "-") with [45] in E. cbn [app] in E.
  apply split_at_last_dash in E; try now apply toString10_no_dash.
  destruct E as [En Ei]. split; now apply toString10_inj.
Qed.

Section Ids.
Context {L : PdfLib}.
Variable dev : Device.

Lemma pickPdf_item_id file i w item w1 :
  pickPdf_item (L := L) dev file i w = (Ok item, w1) ->
  exists now, id item = toString10 now ++ str "-" ++ toString10 i.
Proof.
  unfold pickPdf_item, IO.bind, FileSystem.readAsStringAsync, IO.lift,
    Date_now, IO.ret.
  destruct (normalizePdfUri dev (asset_uri file) w) as [[safeUri | e] w0];
    [| discriminate].
  destruct (files w0 safeUri); [| discriminate].
  destruct (base64ToUint8Array _); [| discriminate].
  destruct (PDFDocument_load L _); [| discriminate].
  intros H. injection H as <- <-. eexists. reflexivity.
Qed.

Lemma loadsBatch_ids assets :
  forall i w items w',
  Spec.loadsBatch (L := L) dev assets i w items w' ->
  Forall (fun item => exists now j,
            i <= j /\ id item = toString10 now ++ str "-" ++ toString10 j)
    items.
Proof.
  induction assets as [| file rest IH]; intros i w items w' Hb;
    inversion Hb as [| f r i' w0 w1 w2 item items' Hitem Hrest]; subst;
    constructor.
  - destruct (pickPdf_item_id _ _ _ _ _ Hitem) as [now Hid].
    exists now, i. split; [lia | exact Hid].
  - eapply Forall_impl; [| apply (IH _ _ _ _ Hrest)].
    intros it (now & j & Hj & Hid). exists now, j. split; [lia | exact Hid].
Qed.

(** Within one batch no two items share an id, whatever the clock reads:
    the index tells them apart. *)
Lemma batch_ids_distinct assets :
  forall i w items w',
  0 <= i ->
  Spec.loadsBatch (L := L) dev assets i w items w' ->
  NoDup (map id items).
Proof.
  induction assets as [| file rest IH]; intros i w items w' Hi Hb;
    inversion Hb as [| f r i' w0 w1 w2 item items' Hitem Hrest]; subst;
    cbn [map]; constructor.
  - intros Hin. apply in_map_iff in Hin. destruct Hin as (it & Eid & Hit).
    pose proof (loadsBatch_ids _ _ _ _ _ Hrest) as Hids.
    rewrite Forall_forall in Hids.
    destruct (Hids it Hit) as (now' & j & Hj & Hid').
    destruct (pickPdf_item_id _ _ _ _ _ Hitem) as [now Hid].
    rewrite Hid, Hid' in Eid.
    apply id_inj in Eid; lia.
  - apply (IH (i + 1) w1 items' w'); [lia | exact Hrest].
Qed.

End Ids.

(** C4 fails on the code.  Two picks of one file each, with the same clock
    reading, give two items with the same id; deleting one by its id then
    deletes both. *)
Lemma pickPdf_same_instant_same_id :
  Demo.after_two_picks
  = Ok (Demo.session [Demo.item_a; Demo.item_c] (str "a_merged.pdf"))
  /\ map id [Demo.item_a; Demo.item_c]
     = [str "1700000000000-0"; str "1700000000000-0"]
  /\ ~ NoDup (map id [Demo.item_a; Demo.item_c])
  /\ data (removePdf_onPress (id Demo.item_c)
             (Demo.session [Demo.item_a; Demo.item_c] (str "a_merged.pdf")))
     = [].
Proof.
  split; [vm_compute; reflexivity |]. split; [reflexivity |].
  split; [| vm_compute; reflexivity].
  intros H. inversion H as [| x l Hnotin _]. subst. apply Hnotin. now left.
Qed.

(** C6 fails on the code.  x.pdf (10 pages) is picked, and the total is
    10; y.pdf (5 pages) is picked at the same clock reading, and the
    total is 15.  Both items carry the id '1700000000000-0', so the
    delete button of the item added removes both: the total is 0, not
    10. *)
Lemma totalPages_not_restored_on_shared_id :
  map name (data (fst Samples.shelf_x)) = [str "x.pdf"]
  /\ totalPages (data (fst Samples.shelf_x)) = 10
  /\ map name (data (fst Samples.shelf_xy)) = [str "x.pdf"; str "y.pdf"]
  /\ map pages (data (fst Samples.shelf_xy)) = [10; 5]
  /\ totalPages (data (fst Samples.shelf_xy)) = 15
  /\ map id (data (fst Samples.shelf_xy))
     = [str "1700000000000-0"; str "1700000000000-0"]
  /\ fst (press (L := Demo.lib) Demo.device
            {| text := text_delete;
               onPress := Some (ActRemove (str "1700000000000-0")) |}
            (fst Samples.shelf_xy) (snd Samples.shelf_xy))
     = Ok (removePdf_onPress (str "1700000000000-0") (fst Samples.shelf_xy))
  /\ totalPages
       (data (removePdf_onPress (str "1700000000000-0")
                (fst Samples.shelf_xy)))
     = 0.
Proof.
  repeat split; vm_compute; reflexivity.
Qed.

(** Demo runs of the validation and of the total. *)
Lemma gate_first_violation_witness :
  Spec.rejectedWith Demo.one_big Spec.TooFewItems
  /\ Spec.rejectedWith Demo.two_over (Spec.PageLimitExceeded 151 150)
  /\ Spec.passes (Demo.two_ok (str "out.pdf"))
  /\ ~ Spec.passes Demo.two_over.
Proof.
  destruct gate_first_violation as (Hfew & Hover & _ & Hpass & Hno).
  assert (H2 : Spec.rejectedWith Demo.two_over
                 (Spec.PageLimitExceeded 151 150)).
  { apply (Hover Demo.two_over); [vm_compute; discriminate | reflexivity]. }
  split; [apply (Hfew Demo.one_big); reflexivity |].
  split; [exact H2 |].
  split.
  - apply (Hpass (Demo.two_ok (str "out.pdf"))); vm_compute; discriminate.
  - apply (Hno Demo.two_over _ H2).
Defined.

Lemma totalPages_after_operations_witness :
  totalPages (data Demo.ten) = 10
  /\ totalPages (data (setData (fun prev => prev ++ [Demo.five]) Demo.ten))
     = 15
  /\ totalPages
       (data (removePdf_onPress (id Demo.five)
                (setData (fun prev => prev ++ [Demo.five]) Demo.ten)))
     = 10
  /\ totalPages (data (removePdf_onPress (id Demo.five) Demo.ten))
     = Spec.sumPages (data (removePdf_onPress (id Demo.five) Demo.ten)).
Proof.
  destruct (totalPages_after_operations (L := Demo.lib) Demo.device)
    as (Hop & _ & _ & _ & _ & Hex).
  destruct (Hex Demo.ten Demo.five) as [H15 H10].
  - reflexivity.
  - reflexivity.
  - intros [E | [E | []]]; vm_compute in E; discriminate E.
  - split; [reflexivity |]. split; [exact H15 |]. split; [exact H10 |].
    apply (Hop Demo.ten). apply Spec.op_remove.
Defined.

(* ===================================================================== *)
(** ** From loading to merging *)
(* ===================================================================== *)

Section LoadThenMerge.
Context {L : PdfLib}.
Variable dev : Device.

(** An item made by [pickPdf] records the page count of the document its
    location holds when the item is made. *)
Lemma pickPdf_item_loads file i w item w1 :
  pickPdf_item (L := L) dev file i w = (Ok item, w1) ->
  exists doc : list (Page L),
    Spec.loadsAs (L := L) w1 item doc /\ pages item = length doc.
Proof.
  unfold pickPdf_item, IO.bind, FileSystem.readAsStringAsync, IO.lift,
    Date_now, IO.ret.
  destruct (normalizePdfUri dev (asset_uri file) w) as [[safeUri | e] w0];
    [| discriminate].
  destruct (files w0 safeUri) as [base64 | e] eqn:Hread; [| discriminate].
  destruct (base64ToUint8Array base64) as [bytes | e] eqn:Hdecode;
    [| discriminate].
  destruct (PDFDocument_load L bytes) as [pdf | e] eqn:Hparse;
    [| discriminate].
  intros H. injection H as <- <-.
  exists pdf. split; [| reflexivity].
  exists base64, bytes. cbn [uri files]. repeat split; assumption.
Qed.

(** Off Android a location is used as it is, and loading an item leaves
    every file as it was. *)
Lemma pickPdf_item_files file i w item w1 :
  Platform_OS dev <> android ->
  pickPdf_item (L := L) dev file i w = (Ok item, w1) ->
  files w1 = files w.
Proof.
  intros Hos.
  unfold pickPdf_item, IO.bind, FileSystem.readAsStringAsync, IO.lift,
    Date_now, IO.ret, normalizePdfUri.
  destruct (Platform_OS dev); try congruence;
    cbv beta iota; unfold IO.ret;
    destruct (files w (asset_uri file)); try discriminate;
    destruct (base64ToUint8Array _); try discriminate;
    destruct (PDFDocument_load L _); try discriminate;
    intros H; injection H as <- <-; reflexivity.
Qed.

Lemma loadsAs_files (w w' : World) item (doc : list (Page L)) :
  files w' = files w -> Spec.loadsAs (L := L) w item doc ->
  Spec.loadsAs (L := L) w' item doc.
Proof.
  intros E (t & bytes & H1 & H2 & H3). exists t, bytes.
  rewrite E. repeat split; assumption.
Qed.

(** Off Android, the items of a batch that loaded are items whose
    locations still load as the documents counted: what the merge
    assembly asks of its items. *)
Lemma loadsBatch_loads assets :
  Platform_OS dev <> android ->
  forall i w items w',
  Spec.loadsBatch (L := L) dev assets i w items w' ->
  files w' = files w
  /\ exists docs : list (list (Page L)),
       Forall2 (Spec.loadsAs (L := L) w') items docs
       /\ Forall2 (fun item doc => pages item = length doc) items docs.
Proof.
  intros Hos. induction assets as [| file rest IH]; intros i w items w' Hb;
    inversion Hb as [| f r i' w0 w1 w2 item items' Hitem Hrest]; subst.
  - split; [reflexivity |]. exists []. split; constructor.
  - destruct (IH _ _ _ _ Hrest) as (Hfiles & docs & Hloads & Hpages).
    pose proof (pickPdf_item_files _ _ _ _ _ Hos Hitem) as Hfiles1.
    destruct (pickPdf_item_loads _ _ _ _ _ Hitem) as (doc & Hdoc & Hp).
    split; [congruence |].
    exists (doc :: docs). split; constructor; try assumption.
    now apply (loadsAs_files w1 w').
Qed.

End LoadThenMerge.

(* ===================================================================== *)
(** ** The name a merge runs under *)
(* ===================================================================== *)

(** C10.  When the commit passes validation, the merge is offered under
    the default name of the session if the name field is empty or holds
    white space only, and under the text of the field, untrimmed, in
    every other case; and the merge is performed under that name: where
    the items load and the output location of that name can be written,
    the save button and the share button of the dialog each write the
    merged document to the save directory followed by that name, and
    change no other file. *)
Theorem finalName_default_when_blank {L : PdfLib} (dev : Device)
  (st : State) (w : World) (docs : list (list (Page L)))
  (dir : jsstring) :
  2 <= length (data st) ->
  totalPages (data st) <= MAX_TOTAL_PAGES ->
  Spec.saveDir dev dir ->
  Forall2 (Spec.loadsAs (L := L) w) (data st) docs ->
  writeError w (dir ++ Spec.mergeName st) = None ->
  (Spec.blank (fileName st) = true ->
   Spec.mergeName st = getDefaultMergedName (data st))
  /\ (Spec.blank (fileName st) = false -> Spec.mergeName st = fileName st)
  /\ onPressMerge st w
     = (Ok tt,
        push_alert (Spec.confirmAlert (Spec.mergeName st) (data st)) w)
  /\ forall b,
       In b (buttons (Spec.confirmAlert (Spec.mergeName st) (data st))) ->
       onPress b <> None ->
       exists st' w',
         press (L := L) dev b st
           (push_alert (Spec.confirmAlert (Spec.mergeName st) (data st)) w)
         = (Ok st', w')
         /\ files w' (dir ++ Spec.mergeName st)
            = Ok (uint8ArrayToBase64 (PDFDocument.save (List.concat docs)))
         /\ (forall u, u <> dir ++ Spec.mergeName st ->
               files w' u = files w u)
         /\ data st' = data st.
Proof.
  intros Hlen Htotal Hdir Hload Hwrite.
  split; [unfold Spec.mergeName; now intros -> |].
  split; [unfold Spec.mergeName; now intros -> |].
  split; [apply (onPressMerge_mergeName st Hlen Htotal) |].
  set (finalName := Spec.mergeName st) in *.
  set (a := Spec.confirmAlert finalName (data st)).
  pose proof (buildMergedPdf_writes (L := L) dev (push_alert a w) (data st)
                docs finalName dir Hdir Hload Hwrite) as Hrun.
  intros b Hin Hact. cbn [buttons Spec.confirmAlert] in Hin.
  destruct Hin as [<- | [<- | [<- | []]]].
  - now contradiction Hact.
  - unfold press. cbn [onPress].
    unfold save_onPress, IO.bind at 1, IO.tryCatch, IO.bind at 1.
    rewrite Hrun. unfold Alert_alert, IO.update, IO.ret.
    eexists. eexists. split; [reflexivity |].
    cbn [files set_files push_alert data setMerging].
    split; [apply put_same |]. split; [| reflexivity].
    intros u Hu. now apply put_other.
  - unfold press. cbn [onPress].
    unfold share_onPress, IO.bind at 1, IO.tryCatch, IO.bind at 1.
    rewrite Hrun.
    destruct (Platform_OS dev);
      unfold Alert_alert, Sharing_shareAsync, IO.update, IO.ret;
      try destruct (shareError _ _);
      (eexists; eexists; split; [reflexivity |]);
      cbn [files set_files push_alert data setMerging];
      (split; [apply put_same |]); (split; [| reflexivity]);
      intros u Hu; now apply put_other.
Qed.

(** a.pdf and c.pdf with a name field of two spaces: the save button
    writes the merged document under the default name. *)
Lemma finalName_default_when_blank_witness :
  Spec.mergeName (Demo.session [Demo.item_a; Demo.item_c] (str "  "))
  = str "a_merged.pdf"
  /\ exists st' w',
       press (L := Demo.lib) Demo.device
         {| text := text_save;
            onPress := Some (ActSave (str "a_merged.pdf")
                               [Demo.item_a; Demo.item_c]) |}
         (Demo.session [Demo.item_a; Demo.item_c] (str "  "))
         (push_alert
            (Spec.confirmAlert (str "a_merged.pdf")
               [Demo.item_a; Demo.item_c]) Demo.world)
       = (Ok st', w')
       /\ files w' (str "file:///cache/a_merged.pdf")
          = Ok (Demo.fileOf (list_byte_of_string "ABCDE")).
Proof.
  split; [reflexivity |].
  destruct (finalName_default_when_blank (L := Demo.lib) Demo.device
              (Demo.session [Demo.item_a; Demo.item_c] (str "  "))
              Demo.world
              [list_byte_of_string "AB"; list_byte_of_string "CDE"]
              (str "file:///cache/"))
    as (_ & _ & _ & Hpress).
  - vm_compute. discriminate.
  - vm_compute. discriminate.
  - split; [left; reflexivity | discriminate].
  - constructor; [| constructor; [| constructor]].
    + exists (Demo.fileOf (list_byte_of_string "AB")),
        (PDFDocument.save (L := Demo.lib) (list_byte_of_string "AB")).
      repeat split; vm_compute; reflexivity.
    + exists (Demo.fileOf (list_byte_of_string "CDE")),
        (PDFDocument.save (L := Demo.lib) (list_byte_of_string "CDE")).
      repeat split; vm_compute; reflexivity.
  - reflexivity.
  - destruct (Hpress
                {| text := text_save;
                   onPress := Some (ActSave (str "a_merged.pdf")
                                      [Demo.item_a; Demo.item_c]) |})
      as (st' & w' & Hrun & Hfile & _).
    + right. left. reflexivity.
    + discriminate.
    + exists st', w'. split; [exact Hrun | exact Hfile].
Defined.

(* ===================================================================== *)
(** * Further properties of the code *)
(* ===================================================================== *)

(** ** The codec: shape of the text, noise, URL-safe characters *)

Lemma sextets_standard :
  forallb (fun i => Spec.isAlphabetChar (Rfc.sextet i))
    (map Z.of_nat (seq 0 64)) = true.
Proof. vm_compute. reflexivity. Qed.

Lemma sextet_standard i :
  0 <= i < 64 -> Spec.isAlphabetChar (Rfc.sextet i) = true.
Proof.
  intros Hi. pose proof sextets_standard as H.
  rewrite forallb_forall in H. apply H.
  apply in_map_iff. exists (Z.to_nat i). split; [lia |].
  apply in_seq. lia.
Qed.

Lemma body_standard ts tail :
  0 <= length tail < 3 ->
  forallb Spec.isAlphabetChar (Rfc.body ts tail) = true.
Proof.
  intros Htail. apply forallb_forall. intros ch Hch.
  pose proof (body_chars ts tail Htail) as H. rewrite Forall_forall in H.
  destruct (H ch Hch) as (i & Hi & ->). now apply sextet_standard.
Qed.

Lemma length_padding tail :
  0 <= length tail < 3 ->
  length (Rfc.body [] tail) + length (Rfc.padding tail)
  = 4 * ((length tail + 2) / 3).
Proof.
  intros Htail. destruct tail as [| a [| b [| c r]]]; try reflexivity.
  exfalso. unfold length in Htail. cbn [List.length] in Htail. lia.
Qed.

(** X1.  The text written for a buffer of [n] bytes has [4 * ceil(n / 3)]
    characters and is well-formed base64: standard alphabet, then at most
    two '=' at the end. *)
Theorem uint8ArrayToBase64_shape (b : list byte) :
  length (uint8ArrayToBase64 b) = 4 * ((length b + 2) / 3)
  /\ Spec.wellFormed (uint8ArrayToBase64 b) = true.
Proof.
  pose proof (groups_spec b) as H. destruct (Rfc.groups b) as [ts tail].
  destruct H as [-> Htail].
  unfold uint8ArrayToBase64, BufferPkg.toString_base64, BufferPkg.from_bytes.
  rewrite fromByteArray_groups by exact Htail.
  pose proof (length_nonneg ts) as Hts.
  assert (Hlen : length (Rfc.encode ts tail)
                 = 4 * ((length (Rfc.flat3 ts ++ tail) + 2) / 3)).
  { rewrite length_encode, length_app_Z, length_flat3.
    unfold Rfc.body. rewrite length_app_Z, length_enc.
    destruct tail as [| a [| c [| d r]]];
      unfold length in *;
      cbn [Rfc.encTail Rfc.padding List.length] in *;
      Z.div_mod_to_equations; lia. }
  split; [exact Hlen |].
  unfold Spec.wellFormed. cbv zeta.
  rewrite split_head_encode by exact Htail.
  rewrite body_standard by exact Htail.
  replace (length (Rfc.encode ts tail) mod 4) with 0
    by (rewrite Hlen, Z.mul_comm, Z.mod_mul by lia; reflexivity).
  assert (Hskip : skipn (List.length (Rfc.body ts tail)) (Rfc.encode ts tail)
                  = Rfc.padding tail).
  { unfold Rfc.encode. now rewrite skipn_app, skipn_all, Nat.sub_diag. }
  rewrite !Hskip.
  destruct tail as [| a [| c [| d r]]]; reflexivity.
Qed.

(** [base64clean] works on the alphabet characters before the first '='. *)
Lemma base64clean_of_kept t :
  BufferPkg.base64clean t
  = if length (Run.kept t) <? 2 then []
    else BufferPkg.padLoop 3 (Run.kept t).
Proof.
  unfold BufferPkg.base64clean, Run.kept. now rewrite filter_trim.
Qed.

Lemma kept_no_pad t : ~ In 61 (Run.kept t).
Proof.
  unfold Run.kept. intros Hin.
  pose proof (filtered_alphabet (split_head 61 t)) as H.
  rewrite Forall_forall in H. now apply (alphabet_not_pad 61 (H 61 Hin)).
Qed.

Lemma length_firstn_zeros (l : list byte) n :
  List.length (firstn n (l ++ repeat x00 n)) = n.
Proof.
  rewrite length_firstn, List.length_app, repeat_length. lia.
Qed.

(** The decoder on a padded text of two characters or more: a buffer of
    three bytes for every four characters, rounded down. *)
Lemma toByteArray_padded s :
  ~ In 61 s -> 2 <= length s ->
  exists b,
    Base64js.toByteArray (BufferPkg.padLoop 3 s) = Ok b
    /\ length b = 3 * length s / 4.
Proof.
  intros Hno Hlong. rewrite padLoop_shape.
  pose proof (length_nonneg s) as Hs.
  assert (Hm : 0 <= length s mod 4 < 4) by (apply Z.mod_pos_bound; lia).
  set (k := (4 - length s mod 4) mod 4).
  assert (Hk : 0 <= k < 4) by (apply Z.mod_pos_bound; lia).
  assert (Hsum : (length s + k) mod 4 = 0)
    by (subst k; Z.div_mod_to_equations; lia).
  unfold Base64js.toByteArray, Base64js.getLens. cbv zeta.
  rewrite indexOf_padded by exact Hno.
  rewrite length_app_Z.
  replace (length (repeat 61 (Z.to_nat k))) with k
    by (unfold length; rewrite repeat_length; lia).
  rewrite Hsum. change (0 >? 0) with false. cbv iota.
  destruct (Z.to_nat k) as [| k'] eqn:Ek.
  - assert (k = 0) as -> by lia.
    change (-1 =? -1) with true. cbv iota.
    rewrite Z.add_0_r, Z.eqb_refl.
    unfold Base64js._byteLength.
    destruct (Z.ltb_spec ((length s + 0) * 3 / 4 - 0) 0) as [Hneg | Hpos].
    { exfalso. revert Hneg. Z.div_mod_to_equations. lia. }
    destruct (Base64js.toByteArray_loop _ _ _ _) as [i main].
    eexists. split; [reflexivity |].
    unfold length at 1. rewrite !app_assoc, length_firstn_zeros.
    revert Hpos. Z.div_mod_to_equations. lia.
  - destruct (Z.eqb_spec (length s) (-1)) as [Habs | _]; [lia |].
    destruct (Z.eqb_spec (length s) (length s + k)) as [Habs | _]; [lia |].
    unfold Base64js._byteLength.
    destruct (Z.ltb_spec ((length s + (4 - length s mod 4)) * 3 / 4
                          - (4 - length s mod 4)) 0) as [Hneg | Hpos].
    { exfalso. revert Hneg. Z.div_mod_to_equations. lia. }
    destruct (Base64js.toByteArray_loop _ _ _ _) as [i main].
    eexists. split; [reflexivity |].
    unfold length at 1. rewrite !app_assoc, length_firstn_zeros.
    revert Hpos. Z.div_mod_to_equations. lia.
Qed.

(** X2.  The buffer decoded from a text has three bytes for every four
    alphabet characters found before the first '=', rounded down; a text
    with fewer than two such characters decodes to the empty buffer. *)
Theorem base64ToUint8Array_length (t : jsstring) :
  exists b,
    base64ToUint8Array t = Ok b
    /\ length b = if length (Run.kept t) <? 2 then 0
                  else 3 * length (Run.kept t) / 4.
Proof.
  unfold base64ToUint8Array, BufferPkg.from_base64, BufferPkg.base64ToBytes.
  rewrite base64clean_of_kept.
  destruct (Z.ltb_spec (length (Run.kept t)) 2) as [Hshort | Hlong].
  - exists []. split; reflexivity.
  - apply toByteArray_padded; [apply kept_no_pad | exact Hlong].
Qed.

Lemma base64clean_same_kept t t' :
  Run.kept t = Run.kept t' ->
  BufferPkg.base64clean t = BufferPkg.base64clean t'.
Proof. intros H. now rewrite !base64clean_of_kept, H. Qed.

(** X3.  A text decodes to the buffer [b] whenever its alphabet characters
    before the first '=' are those of the encoding of [b]: line breaks,
    spaces and other characters outside the alphabet, a missing padding,
    and anything after the first '=' make no difference. *)
Theorem base64ToUint8Array_ignores_noise (b : list byte) (t : jsstring) :
  Run.kept t = Run.kept (uint8ArrayToBase64 b) ->
  base64ToUint8Array t = Ok b.
Proof.
  intros H.
  unfold base64ToUint8Array, BufferPkg.from_base64, BufferPkg.base64ToBytes.
  rewrite (base64clean_same_kept _ _ H).
  apply (buffer_round_trip b).
Qed.

(** 'Hello' written on two lines, without its padding, and with text
    after an '='. *)
Lemma base64ToUint8Array_ignores_noise_witness :
  base64ToUint8Array [32; 83; 71; 86; 115; 13; 10; 98; 71; 56; 61; 33; 33]
  = Ok (list_byte_of_string "Hello").
Proof.
  apply (base64ToUint8Array_ignores_noise (list_byte_of_string "Hello")).
  vm_compute. reflexivity.
Defined.

(** *** URL-safe characters *)

Lemma standardChar_pad c : (Run.standardChar c =? 61) = (c =? 61).
Proof.
  unfold Run.standardChar.
  destruct (Z.eqb_spec c 45); [subst; reflexivity |].
  destruct (Z.eqb_spec c 95); [subst; reflexivity | reflexivity].
Qed.

Lemma standardChar_space c :
  isWhiteSpace (Run.standardChar c) = isWhiteSpace c.
Proof.
  unfold Run.standardChar.
  destruct (Z.eqb_spec c 45); [subst; reflexivity |].
  destruct (Z.eqb_spec c 95); [subst; reflexivity | reflexivity].
Qed.

Lemma standardChar_alphabet c :
  BufferPkg.isBase64Char (Run.standardChar c) = BufferPkg.isBase64Char c.
Proof.
  unfold Run.standardChar.
  destruct (Z.eqb_spec c 45); [subst; reflexivity |].
  destruct (Z.eqb_spec c 95); [subst; reflexivity | reflexivity].
Qed.

Lemma standardChar_revLookup c :
  Base64js.revLookup (Run.standardChar c) = Base64js.revLookup c.
Proof.
  unfold Run.standardChar.
  destruct (Z.eqb_spec c 45); [subst; reflexivity |].
  destruct (Z.eqb_spec c 95); [subst; reflexivity | reflexivity].
Qed.

Lemma split_head_standard t :
  split_head 61 (map Run.standardChar t)
  = map Run.standardChar (split_head 61 t).
Proof.
  induction t as [| c r IH]; [reflexivity |].
  cbn [map split_head]. rewrite standardChar_pad.
  destruct (c =? 61); [reflexivity |]. cbn [map]. now rewrite IH.
Qed.

Lemma trimStart_standard t :
  trimStart (map Run.standardChar t) = map Run.standardChar (trimStart t).
Proof.
  induction t as [| c r IH]; [reflexivity |].
  cbn [map trimStart]. rewrite standardChar_space.
  destruct (isWhiteSpace c); [exact IH | reflexivity].
Qed.

Lemma trim_standard t :
  trim (map Run.standardChar t) = map Run.standardChar (trim t).
Proof.
  unfold trim, trimEnd.
  now rewrite trimStart_standard, <- map_rev, trimStart_standard, map_rev.
Qed.

Lemma filter_standard t :
  filter BufferPkg.isBase64Char (map Run.standardChar t)
  = map Run.standardChar (filter BufferPkg.isBase64Char t).
Proof.
  induction t as [| c r IH]; [reflexivity |].
  cbn [map filter]. rewrite standardChar_alphabet.
  destruct (BufferPkg.isBase64Char c); [cbn [map]; now rewrite IH | exact IH].
Qed.

Lemma length_map_Z {A B} (f : A -> B) l : length (map f l) = length l.
Proof. unfold length. now rewrite length_map. Qed.

Lemma padLoop_standard s :
  BufferPkg.padLoop 3 (map Run.standardChar s)
  = map Run.standardChar (BufferPkg.padLoop 3 s).
Proof.
  rewrite !padLoop_shape, length_map_Z, map_app. f_equal.
  generalize (Z.to_nat ((4 - length s mod 4) mod 4)).
  induction n as [| n IH]; [reflexivity |]. cbn [repeat map]. now f_equal.
Qed.

Lemma base64clean_standard t :
  BufferPkg.base64clean (map Run.standardChar t)
  = map Run.standardChar (BufferPkg.base64clean t).
Proof.
  unfold BufferPkg.base64clean.
  rewrite split_head_standard, trim_standard, filter_standard, length_map_Z.
  destruct (_ <? 2); [reflexivity | apply padLoop_standard].
Qed.

Lemma indexOf_from_standard t i :
  indexOf_from 61 (map Run.standardChar t) i = indexOf_from 61 t i.
Proof.
  revert i. induction t as [| c r IH]; intros i; [reflexivity |].
  cbn [map indexOf_from]. rewrite standardChar_pad.
  destruct (c =? 61); [reflexivity | apply IH].
Qed.

Lemma rev64_standard b64 i :
  Base64js.rev64 (map Run.standardChar b64) i = Base64js.rev64 b64 i.
Proof.
  unfold Base64js.rev64, charCodeAt. destruct (i <? 0); [reflexivity |].
  rewrite nth_error_map.
  destruct (nth_error b64 (Z.to_nat i)) as [c |]; [| reflexivity].
  cbn [option_map]. now rewrite standardChar_revLookup.
Qed.

Lemma toByteArray_loop_standard fuel b64 len :
  forall i,
  Base64js.toByteArray_loop fuel (map Run.standardChar b64) len i
  = Base64js.toByteArray_loop fuel b64 len i.
Proof.
  induction fuel as [| fuel IH]; intros i; [reflexivity |].
  cbn [Base64js.toByteArray_loop]. now rewrite !rev64_standard, IH.
Qed.

Lemma toByteArray_standard b64 :
  Base64js.toByteArray (map Run.standardChar b64)
  = Base64js.toByteArray b64.
Proof.
  unfold Base64js.toByteArray, Base64js.getLens, indexOf. cbv zeta.
  rewrite length_map_Z, indexOf_from_standard.
  destruct (_ >? 0); [reflexivity |].
  destruct (Base64js._byteLength _ _ <? 0); [reflexivity |].
  rewrite toByteArray_loop_standard.
  destruct (Base64js.toByteArray_loop _ _ _ _) as [i main].
  now rewrite !rev64_standard.
Qed.

(** X4.  The URL-safe characters are accepted on decoding: a text decodes
    to the same buffer with '-' and '_' as with '+' and '/' in their
    place. *)
Theorem base64ToUint8Array_url_safe (t : jsstring) :
  base64ToUint8Array (map Run.standardChar t) = base64ToUint8Array t.
Proof.
  unfold base64ToUint8Array, BufferPkg.from_base64, BufferPkg.base64ToBytes.
  rewrite base64clean_standard. apply toByteArray_standard.
Qed.

(* ===================================================================== *)
(** ** Normalizing a location *)
(* ===================================================================== *)

(** X5.  Off Android, and for a location that does not start with
    content://, [normalizePdfUri] returns the location and changes
    nothing.  On Android, for a content:// location: without a cache
    directory it throws, and nothing has changed; with one, it reads the
    clock, and when the location can be read and the copy
    [tmp_<now>.pdf] in the cache directory can be written, it returns
    the location of the copy, which holds what the location given held,
    no other file having changed; when the read or the write fails, it
    throws that error and no file has changed.  So whenever it succeeds,
    the location returned holds what the location given held. *)
Theorem normalizePdfUri_keeps_content (dev : Device) (uri : jsstring)
  (w : World) :
  (Platform_OS dev <> android \/ startsWith uri (str "content://") = false ->
   normalizePdfUri dev uri w = (Ok uri, w))
  /\ (Platform_OS dev = android ->
      startsWith uri (str "content://") = true ->
      (truthy (cacheDirectory dev) = false ->
       normalizePdfUri dev uri w = (Throw msg_no_cache, w))
      /\ forall cacheDir,
           cacheDirectory dev = Some cacheDir -> cacheDir <> [] ->
           exists w',
             ticks w' = S (ticks w)
             /\ match files w uri,
                      writeError w (cacheDir ++ str "tmp_"
                                    ++ toString10 (clock w (ticks w))
                                    ++ str ".pdf") with
                | Ok content, None =>
                    normalizePdfUri dev uri w
                    = (Ok (cacheDir ++ str "tmp_"
                           ++ toString10 (clock w (ticks w))
                           ++ str ".pdf"), w')
                    /\ files w' (cacheDir ++ str "tmp_"
                                 ++ toString10 (clock w (ticks w))
                                 ++ str ".pdf")
                       = Ok content
                    /\ forall u,
                         u <> cacheDir ++ str "tmp_"
                              ++ toString10 (clock w (ticks w))
                              ++ str ".pdf" ->
                         files w' u = files w u
                | Ok _, Some e | Throw e, _ =>
                    normalizePdfUri dev uri w = (Throw e, w')
                    /\ files w' = files w
                end)
  /\ (forall safe w',
        normalizePdfUri dev uri w = (Ok safe, w') ->
        files w' safe = files w uri
        /\ forall u, u <> safe -> files w' u = files w u).
Proof.
  split; [| split].
  - unfold normalizePdfUri. intros [Hos | Hstart].
    + destruct (Platform_OS dev); congruence || reflexivity.
    + rewrite Hstart. destruct (Platform_OS dev); reflexivity.
  - intros Hos Hstart. unfold normalizePdfUri.
    rewrite Hos, Hstart. cbn [negb]. split.
    + intros Hcache.
      destruct (cacheDirectory dev) as [[| c cacheDir] |];
        [reflexivity | discriminate Hcache | reflexivity].
    + intros cacheDir -> Hne. destruct cacheDir as [| c d]; [congruence |].
      unfold IO.bind, Date_now, FileSystem.copyAsync, IO.ret.
      cbn [files writeError].
      destruct (files w uri) as [content | e];
        [destruct (writeError w _) as [e |] |];
        eexists; (split; [| split; [reflexivity |]]);
        cbn [ticks files set_files]; try reflexivity.
      split; [apply put_same |]. intros u Hu. now apply put_other.
  - intros safe w'. unfold normalizePdfUri.
    destruct (Platform_OS dev) eqn:Hos;
      try (intros H; injection H as <- <-; split; reflexivity).
    destruct (startsWith uri (str "content://")) eqn:Hstart; cbn [negb];
      [| intros H; injection H as <- <-; split; reflexivity].
    destruct (cacheDirectory dev) as [[| c cacheDir] |] eqn:Hcache;
      try discriminate.
    unfold IO.bind, Date_now, FileSystem.copyAsync, IO.ret.
    cbn [files writeError].
    destruct (files w uri) as [content | e] eqn:Hread; [| discriminate].
    destruct (writeError w _) as [e |]; [discriminate |].
    intros H. injection H as <- <-. cbn [files set_files].
    split; [apply put_same |]. intros u Hu. now apply put_other.
Qed.

(** An Android device with a cache directory: the copy of the picked
    document holds its content. *)
Lemma normalizePdfUri_keeps_content_witness :
  fst (normalizePdfUri Samples.android (str "content://docs/7")
         Samples.picked)
  = Ok Samples.tmp
  /\ files (snd (normalizePdfUri Samples.android (str "content://docs/7")
                   Samples.picked)) Samples.tmp
     = Ok (Demo.fileOf (list_byte_of_string "AB")).
Proof.
  split; [reflexivity |].
  destruct (proj2 (proj2 (normalizePdfUri_keeps_content Samples.android
                            (str "content://docs/7") Samples.picked))
              Samples.tmp _ eq_refl) as (H & _).
  exact (eq_trans H eq_refl).
Defined.

(** X6.  On Android the copy is named after the clock alone.  Two
    content:// files normalized at the same clock reading are given the
    same path, and after the second call that path holds the second
    file: what was copied for the first is overwritten. *)
Theorem normalizePdfUri_same_reading_same_path (dev : Device)
  (cacheDir uri1 uri2 content1 content2 : jsstring) (w : World) :
  Platform_OS dev = android ->
  cacheDirectory dev = Some cacheDir -> cacheDir <> [] ->
  startsWith uri1 (str "content://") = true ->
  startsWith uri2 (str "content://") = true ->
  files w uri1 = Ok content1 ->
  files w uri2 = Ok content2 ->
  (forall u, writeError w u = None) ->
  clock w (S (ticks w)) = clock w (ticks w) ->
  uri2 <> cacheDir ++ str "tmp_" ++ toString10 (clock w (ticks w))
          ++ str ".pdf" ->
  exists dest w1 w2,
    normalizePdfUri dev uri1 w = (Ok dest, w1)
    /\ files w1 dest = Ok content1
    /\ normalizePdfUri dev uri2 w1 = (Ok dest, w2)
    /\ files w2 dest = Ok content2.
Proof.
  intros Hos Hcache Hne Hs1 Hs2 Hr1 Hr2 Hwrite Hclock Hother.
  destruct cacheDir as [| c cacheDir]; [congruence |].
  unfold normalizePdfUri. rewrite Hos, Hcache, Hs1, Hs2. cbn [negb].
  unfold IO.bind, Date_now, FileSystem.copyAsync, IO.ret.
  cbn [files writeError clock ticks set_files].
  rewrite Hr1, !Hwrite.
  eexists. eexists. eexists.
  split; [reflexivity |]. cbn [files set_files writeError clock ticks].
  split; [apply put_same |].
  rewrite Hclock, put_other, Hr2, Hwrite by exact Hother.
  split; [reflexivity |]. cbn [files set_files]. apply put_same.
Qed.

(** Two picked files copied within one millisecond. *)
Lemma normalizePdfUri_same_reading_same_path_witness :
  exists dest w1 w2,
    normalizePdfUri Samples.android (str "content://docs/7") Samples.picked
    = (Ok dest, w1)
    /\ files w1 dest = Ok (Demo.fileOf (list_byte_of_string "AB"))
    /\ normalizePdfUri Samples.android (str "content://docs/8") w1
       = (Ok dest, w2)
    /\ files w2 dest = Ok (Demo.fileOf (list_byte_of_string "CDE")).
Proof.
  apply (normalizePdfUri_same_reading_same_path _ (str "file:///cache/"));
    try reflexivity; discriminate.
Defined.

(* ===================================================================== *)
(** ** Ids in a session *)
(* ===================================================================== *)

(** X7.  An id [`${Date.now()}-${i}`] names one clock reading and one
    index: ids made from different readings, or from different indices,
    are different texts. *)
Theorem ids_of_different_origin_differ (now now' i j : Z) :
  0 <= i -> 0 <= j ->
  (now, i) <> (now', j) ->
  Run.mkId now i <> Run.mkId now' j.
Proof.
  intros Hi Hj Hne E. apply Hne.
  destruct (id_inj now i now' j Hi Hj E) as [-> ->]. reflexivity.
Qed.

(** '1-11' and '11-1'. *)
Lemma ids_of_different_origin_differ_witness :
  Run.mkId 1 11 <> Run.mkId 11 1.
Proof.
  apply ids_of_different_origin_differ; [lia | lia | discriminate].
Defined.

Section Session.
Context {L : PdfLib}.
Variable dev : Device.

Lemma normalizePdfUri_clock uri w r w' :
  normalizePdfUri dev uri w = (r, w') ->
  clock w' = clock w /\ (ticks w <= ticks w')%nat.
Proof.
  unfold normalizePdfUri.
  destruct (Platform_OS dev);
    try (intros H; injection H as <- <-; split; [reflexivity | lia]).
  destruct (negb _);
    [intros H; injection H as <- <-; split; [reflexivity | lia] |].
  destruct (cacheDirectory dev) as [[| c d] |];
    try (intros H; injection H as <- <-; split; [reflexivity | lia]).
  unfold IO.bind, Date_now, FileSystem.copyAsync, IO.ret.
  cbn [files writeError].
  destruct (files w uri);
    [| intros H; injection H as <- <-; cbn [clock ticks];
       split; [reflexivity | lia]].
  destruct (writeError w _);
    intros H; injection H as <- <-; cbn [clock ticks set_files];
    split; reflexivity || lia.
Qed.

Lemma pickPdf_item_clock file i w r w' :
  pickPdf_item (L := L) dev file i w = (r, w') ->
  clock w' = clock w /\ (ticks w <= ticks w')%nat
  /\ forall item, r = Ok item ->
       exists k, (ticks w <= k < ticks w')%nat
                 /\ id item = Run.mkId (clock w k) i.
Proof.
  unfold pickPdf_item, IO.bind at 1.
  destruct (normalizePdfUri dev (asset_uri file) w) as [[safeUri | e] w0]
    eqn:Hnorm;
    apply normalizePdfUri_clock in Hnorm; destruct Hnorm as [Hc Ht].
  2: { intros H. injection H as <- <-.
       split; [exact Hc |]. split; [exact Ht | discriminate]. }
  unfold IO.bind, FileSystem.readAsStringAsync, IO.lift, Date_now, IO.ret.
  destruct (files w0 safeUri);
    [| intros H; injection H as <- <-;
       split; [exact Hc |]; split; [exact Ht | discriminate]].
  destruct (base64ToUint8Array _);
    [| intros H; injection H as <- <-;
       split; [exact Hc |]; split; [exact Ht | discriminate]].
  destruct (PDFDocument_load L _);
    [| intros H; injection H as <- <-;
       split; [exact Hc |]; split; [exact Ht | discriminate]].
  intros H. injection H as <- <-. cbn [clock ticks].
  split; [exact Hc |]. split; [lia |].
  intros item Hitem. injection Hitem as <-. cbn [id].
  exists (ticks w0). split; [lia |]. unfold Run.mkId. now rewrite Hc.
Qed.

Lemma pickPdf_loop_clock assets :
  forall i items w r w',
  pickPdf_loop (L := L) dev assets i items w = (r, w') ->
  clock w' = clock w /\ (ticks w <= ticks w')%nat
  /\ forall items', r = Ok items' ->
       exists new,
         items' = items ++ new
         /\ List.length new = List.length assets
         /\ forall n item, nth_error new n = Some item ->
              exists k, (ticks w <= k < ticks w')%nat
                        /\ id item = Run.mkId (clock w k) (i + Z.of_nat n).
Proof.
  induction assets as [| file rest IH]; intros i items w r w'.
  - cbn [pickPdf_loop]. unfold IO.ret. intros H. injection H as <- <-.
    split; [reflexivity |]. split; [lia |].
    intros items' E. injection E as <-. exists [].
    split; [now rewrite app_nil_r |]. split; [reflexivity |].
    intros [| n] item; discriminate.
  - cbn [pickPdf_loop]. unfold IO.bind at 1.
    destruct (pickPdf_item dev file i w) as [[item | e] w1] eqn:Hitem;
      apply pickPdf_item_clock in Hitem; destruct Hitem as (Hc & Ht & Hid).
    2: { intros H. injection H as <- <-.
         split; [exact Hc |]. split; [exact Ht | discriminate]. }
    intros Hrest. apply IH in Hrest. destruct Hrest as (Hc' & Ht' & Hnew).
    split; [congruence |]. split; [lia |].
    intros items' E. destruct (Hnew items' E) as (new & -> & Hlen & Hids).
    exists (item :: new). split; [now rewrite <- app_assoc |].
    split; [cbn [List.length]; now rewrite Hlen |].
    intros [| n] it Hn; cbn [nth_error] in Hn.
    + injection Hn as <-. destruct (Hid item eq_refl) as (k & Hk & E1).
      exists k. split; [lia |]. now rewrite Z.add_0_r.
    + destruct (Hids n it Hn) as (k & Hk & E1). exists k. split; [lia |].
      rewrite E1, Hc. f_equal. lia.
Qed.

Lemma buildMergedPdf_loop_world data :
  forall merged w r w',
  buildMergedPdf_loop (L := L) data merged w = (r, w') -> w' = w.
Proof.
  induction data as [| item rest IH]; intros merged w r w'.
  - cbn [buildMergedPdf_loop]. unfold IO.ret. congruence.
  - cbn [buildMergedPdf_loop].
    unfold IO.bind at 1, FileSystem.readAsStringAsync.
    destruct (files w (uri item)); [| congruence].
    unfold IO.bind at 1, IO.lift at 1.
    destruct (base64ToUint8Array _); [| congruence].
    unfold IO.bind at 1, IO.lift at 1.
    destruct (PDFDocument_load L _); [| congruence].
    unfold IO.bind at 1, IO.lift at 1.
    destruct (PDFDocument.copyPages _ _); [| congruence].
    apply IH.
Qed.

(** When the loop returns, every item has loaded, and what it returns is
    the pages of the documents in list order after those it started
    from. *)
Lemma buildMergedPdf_loop_inv data :
  forall merged w r w',
  buildMergedPdf_loop (L := L) data merged w = (Ok r, w') ->
  exists docs : list (list (Page L)),
    Forall2 (Spec.loadsAs (L := L) w) data docs
    /\ r = merged ++ List.concat docs.
Proof.
  induction data as [| item rest IH]; intros merged w r w'.
  - cbn [buildMergedPdf_loop]. unfold IO.ret. intros H. injection H as <- _.
    exists []. split; [constructor | now rewrite app_nil_r].
  - cbn [buildMergedPdf_loop].
    unfold IO.bind at 1, FileSystem.readAsStringAsync.
    destruct (files w (uri item)) as [t | e] eqn:Hread; [| discriminate].
    unfold IO.bind at 1, IO.lift at 1.
    destruct (base64ToUint8Array t) as [bytes | e] eqn:Hdecode;
      [| discriminate].
    unfold IO.bind at 1, IO.lift at 1.
    destruct (PDFDocument_load L bytes) as [pdf | e] eqn:Hparse;
      [| discriminate].
    unfold IO.bind at 1, IO.lift at 1. rewrite copyPages_all, addPage_all.
    intros Hrest. apply IH in Hrest. destruct Hrest as (docs & Hload & ->).
    exists (pdf :: docs). split.
    + constructor; [| exact Hload]. now exists t, bytes.
    + cbn [List.concat]. now rewrite app_assoc.
Qed.

Lemma buildMergedPdf_shareError data finalName w r w' :
  buildMergedPdf (L := L) dev data finalName w = (r, w') ->
  shareError w' = shareError w.
Proof.
  unfold buildMergedPdf, IO.tryCatch, IO.bind at 1.
  destruct (buildMergedPdf_loop data PDFDocument.create w)
    as [[merged | e] w1] eqn:Hloop;
    pose proof (buildMergedPdf_loop_world _ _ _ _ _ Hloop) as ->.
  2: { unfold IO.bind, console_error, IO.update, IO.throw.
       intros H. injection H as <- <-. reflexivity. }
  destruct (cacheDirectory dev) as [[| c d] |];
    [| | destruct (documentDirectory dev) as [[| c d] |]];
    unfold IO.throw, IO.bind, FileSystem.writeAsStringAsync, console_error,
      IO.update, IO.ret;
    try destruct (writeError w _);
    intros H; injection H as <- <-; reflexivity.
Qed.

(** What [buildMergedPdf] leaves of the world. *)
Lemma buildMergedPdf_world data finalName w r w' :
  buildMergedPdf (L := L) dev data finalName w = (r, w') ->
  clock w' = clock w /\ ticks w' = ticks w /\ alerts w' = alerts w
  /\ shared w' = shared w /\ writeError w' = writeError w
  /\ match r with
     | Throw e =>
         files w' = files w /\ console w' = console w ++ [log_merge_error ++ e]
     | Ok uri =>
         console w' = console w
         /\ exists dir merged,
              Spec.saveDir dev dir /\ uri = dir ++ finalName
              /\ buildMergedPdf_loop (L := L) data PDFDocument.create w
                 = (Ok merged, w)
              /\ files w'
                 = FileSystem.put uri
                     (uint8ArrayToBase64 (PDFDocument.save (L := L) merged))
                     (files w)
     end.
Proof.
  unfold buildMergedPdf, IO.tryCatch, IO.bind at 1.
  destruct (buildMergedPdf_loop data PDFDocument.create w)
    as [[merged | e] w1] eqn:Hloop;
    pose proof (buildMergedPdf_loop_world _ _ _ _ _ Hloop) as ->.
  2: { unfold IO.bind, console_error, IO.update, IO.throw.
       intros H. injection H as <- <-. cbn. repeat split. }
  assert (Hfail : forall e,
            (let (r0, w0) := @IO.throw jsstring e w in
             match r0 with
             | Ok a => (Ok a, w0)
             | Throw e0 => (console_error log_merge_error e0 ;;; IO.throw e0) w0
             end) = (r, w') ->
            clock w' = clock w /\ ticks w' = ticks w /\ alerts w' = alerts w
            /\ shared w' = shared w /\ writeError w' = writeError w
            /\ match r with
               | Throw e =>
                   files w' = files w
                   /\ console w' = console w ++ [log_merge_error ++ e]
               | Ok uri =>
                   console w' = console w
                   /\ exists dir merged0,
                        Spec.saveDir dev dir /\ uri = dir ++ finalName
                        /\ (Ok merged, w) = (Ok merged0, w)
                        /\ files w'
                           = FileSystem.put uri
                               (uint8ArrayToBase64
                                  (PDFDocument.save (L := L) merged0))
                               (files w)
               end).
  { intros e. unfold IO.throw, IO.bind, console_error, IO.update.
    intros H. injection H as <- <-. cbn. repeat split. }
  destruct (cacheDirectory dev) as [[| c d] |] eqn:Hcache;
    [apply Hfail | |
     destruct (documentDirectory dev) as [[| c d] |] eqn:Hdoc;
     [apply Hfail | | apply Hfail]].
  all: unfold IO.bind, FileSystem.writeAsStringAsync, IO.ret;
    destruct (writeError w _) as [e |];
    [ unfold console_error, IO.update, IO.throw;
      intros H; injection H as <- <-; cbn; repeat split
    | intros H; injection H as <- <-; cbn [clock ticks alerts shared
        writeError console files set_files];
      repeat (split; [reflexivity |]);
      exists (c :: d), merged; split;
      [ split; [tauto | discriminate] | repeat split ] ].
Qed.

End Session.

(** *** Ids stay distinct while the clock moves on *)

Lemma madeBefore_later (w w' : World) item :
  clock w' = clock w -> (ticks w <= ticks w')%nat ->
  Run.madeBefore w item -> Run.madeBefore w' item.
Proof.
  intros Hc Ht (k & j & Hk & Hj & E). exists k, j.
  rewrite Hc. repeat split; [lia | exact Hj | exact E].
Qed.

(** Dropping items keeps the ids that remain pairwise different. *)
Lemma distinct_ids_filter (keep : PdfItem -> bool) (items : list PdfItem) :
  NoDup (map id items) -> NoDup (map id (filter keep items)).
Proof.
  induction items as [| x rest IH]; intros H; [exact H |].
  cbn [map] in H. apply NoDup_cons_iff in H. destruct H as [Hnotin Hrest].
  cbn [filter]. destruct (keep x); [| now apply IH].
  cbn [map]. constructor; [| now apply IH].
  intros Hin. apply Hnotin. apply in_map_iff in Hin.
  destruct Hin as (a & E & Ha). apply filter_In in Ha.
  apply in_map_iff. exists a. tauto.
Qed.

Section Invariant.
Context {L : PdfLib}.
Variable dev : Device.
Variable w0 : World.
Hypothesis clock_ok : Run.clockNeverRepeats w0.

Lemma wellIdentified_same_data st st' w w' :
  data st' = data st -> clock w' = clock w -> (ticks w <= ticks w')%nat ->
  Run.wellIdentified w0 (st, w) -> Run.wellIdentified w0 (st', w').
Proof.
  unfold Run.wellIdentified. cbn [fst snd].
  intros Hd Hc Ht (H1 & H2 & H3). rewrite Hd. split; [congruence |].
  split; [exact H2 |]. eapply Forall_impl; [| exact H3].
  intros item. now apply madeBefore_later.
Qed.

Lemma wellIdentified_remove i st w :
  Run.wellIdentified w0 (st, w) ->
  Run.wellIdentified w0 (removePdf_onPress i st, w).
Proof.
  unfold Run.wellIdentified, removePdf_onPress, setData. cbn [fst snd data].
  intros (H1 & H2 & H3). split; [exact H1 |].
  split; [now apply distinct_ids_filter |].
  rewrite Forall_forall in *. intros item Hin. apply filter_In in Hin.
  apply H3. tauto.
Qed.

Lemma wellIdentified_pick result st st' w w' :
  pickPdf (L := L) dev result st w = (Ok st', w') ->
  Run.wellIdentified w0 (st, w) -> Run.wellIdentified w0 (st', w').
Proof.
  destruct result as [| assets]; cbn [pickPdf].
  { unfold IO.ret. intros H. injection H as <- <-. tauto. }
  unfold IO.tryCatch, IO.bind at 1.
  destruct (pickPdf_loop dev assets 0 [] w) as [[items | e] w1] eqn:Hloop;
    apply pickPdf_loop_clock in Hloop; destruct Hloop as (Hc & Ht & Hnew).
  2: { unfold IO.bind, console_error, Alert_alert, IO.update, IO.ret.
       intros H. injection H as <- <-.
       apply wellIdentified_same_data; cbn [clock ticks push_alert];
         [reflexivity | exact Hc | exact Ht]. }
  unfold IO.ret. intros H. injection H as <- <-.
  destruct (Hnew items eq_refl) as (new & -> & Hlen & Hids).
  cbn [app]. clear Hnew.
  unfold Run.wellIdentified. cbn [fst snd setData data].
  intros (H1 & H2 & H3). split; [congruence |].
  assert (Hfresh : forall item, In item new ->
            exists k n, (ticks w <= k < ticks w1)%nat
                        /\ id item = Run.mkId (clock w k) (Z.of_nat n)).
  { intros item Hin. apply In_nth_error in Hin. destruct Hin as [n Hn].
    destruct (Hids n item Hn) as (k & Hk & E). exists k, n.
    split; [exact Hk | exact E]. }
  split.
  - rewrite map_app. apply NoDup_app; [exact H2 | |].
    + apply NoDup_nth_error. intros i j Hi E.
      rewrite length_map in Hi. rewrite !nth_error_map in E.
      destruct (nth_error new i) as [a |] eqn:Ea;
        [| apply nth_error_None in Ea; lia].
      destruct (nth_error new j) as [b |] eqn:Eb; [| discriminate].
      cbn [option_map] in E. injection E as E.
      destruct (Hids i a Ea) as (k & _ & Eka).
      destruct (Hids j b Eb) as (k' & _ & Ekb).
      rewrite Eka, Ekb in E. unfold Run.mkId in E.
      apply id_inj in E; lia.
    + intros a Hold Hnew. apply in_map_iff in Hold.
      destruct Hold as (old & <- & Hold).
      apply in_map_iff in Hnew. destruct Hnew as (item & E & Hitem).
      rewrite Forall_forall in H3.
      destruct (H3 old Hold) as (k0 & j0 & Hk0 & Hj0 & E0).
      destruct (Hfresh item Hitem) as (k & n & Hk & E1).
      rewrite E0, E1 in E. unfold Run.mkId in E.
      apply id_inj in E; [| lia | lia]. destruct E as [E _].
      rewrite H1 in E. apply clock_ok in E. lia.
  - apply Forall_app. split.
    + eapply Forall_impl; [| exact H3]. intros item.
      now apply madeBefore_later.
    + apply Forall_forall. intros item Hin.
      destruct (Hfresh item Hin) as (k & n & Hk & E).
      exists k, (Z.of_nat n). rewrite Hc.
      repeat split; [lia | lia | exact E].
Qed.

Lemma wellIdentified_press b st st' w w' :
  press (L := L) dev b st w = (Ok st', w') ->
  Run.wellIdentified w0 (st, w) -> Run.wellIdentified w0 (st', w').
Proof.
  unfold press. destruct (onPress b) as [[i | finalName data0 | finalName data0] |].
  - unfold IO.ret. intros H. injection H as <- <-.
    apply wellIdentified_remove.
  - unfold save_onPress, IO.bind at 1, IO.tryCatch, IO.bind at 1.
    destruct (buildMergedPdf dev data0 finalName w) as [[u | e] w1] eqn:Hb;
      apply buildMergedPdf_world in Hb; destruct Hb as (Hc & Ht & _);
      unfold Alert_alert, IO.update, IO.ret;
      intros H; injection H as <- <-;
      apply wellIdentified_same_data; cbn [clock ticks push_alert];
      try reflexivity; try exact Hc; lia.
  - unfold share_onPress, IO.bind at 1, IO.tryCatch, IO.bind at 1.
    destruct (buildMergedPdf dev data0 finalName w) as [[u | e] w1] eqn:Hb;
      apply buildMergedPdf_world in Hb; destruct Hb as (Hc & Ht & _);
      [destruct (Platform_OS dev) |];
      unfold Alert_alert, Sharing_shareAsync, IO.update, IO.ret;
      try destruct (shareError w1 u);
      intros H; injection H as <- <-;
      apply wellIdentified_same_data; cbn [clock ticks push_alert];
      try reflexivity; try exact Hc; lia.
  - unfold IO.ret. intros H. injection H as <- <-. tauto.
Qed.

Lemma wellIdentified_handler s s' :
  Run.handler (L := L) dev s s' ->
  Run.wellIdentified w0 s -> Run.wellIdentified w0 s'.
Proof.
  intros H. destruct H as [result st st' w w' Hpick | i st w
    | data' st st' w Hperm Hdrag | text st w | st w w' Hmerge
    | b st st' w w' Hpress].
  - now apply wellIdentified_pick with (result := result).
  - apply wellIdentified_remove.
  - unfold onDragEnd in Hdrag. injection Hdrag as <-.
    unfold Run.wellIdentified, setData. cbn [fst snd data].
    intros (H1 & H2 & H3). split; [exact H1 |]. split.
    + eapply Permutation_NoDup; [| exact H2].
      apply Permutation_map. now apply Permutation_sym.
    + eapply Permutation_Forall; [| exact H3]. now apply Permutation_sym.
  - apply wellIdentified_same_data; reflexivity || lia.
  - apply wellIdentified_same_data; [reflexivity | |];
      unfold onPressMerge in Hmerge;
      destruct (length (data st) <? 2);
      [| destruct (totalPages (data st) >? MAX_TOTAL_PAGES) | |
       destruct (totalPages (data st) >? MAX_TOTAL_PAGES)];
      unfold Alert_alert, IO.update in Hmerge; injection Hmerge as <-;
      cbn [clock ticks push_alert]; reflexivity || lia.
  - now apply wellIdentified_press with (b := b).
Qed.

Lemma wellIdentified_handlers s s' :
  Run.handlers (L := L) dev s s' ->
  Run.wellIdentified w0 s -> Run.wellIdentified w0 s'.
Proof.
  induction 1 as [s | s s' s'' _ IH Hstep]; [tauto |].
  intros H. eapply wellIdentified_handler; [exact Hstep | now apply IH].
Qed.

End Invariant.

(** X8.  While the clock never gives the same reading twice, the items of
    a session have pairwise different ids: this holds after any number of
    picks, removals, reorderings handed over by the list (permutations of
    the items shown), edits of the name, presses of the merge button and
    presses of dialog buttons, from the first render on. *)
Theorem session_ids_distinct {L : PdfLib} (dev : Device) (w0 : World)
  (st : State) (w : World) :
  Run.clockNeverRepeats w0 ->
  Run.handlers (L := L) dev (initial, w0) (st, w) ->
  NoDup (map id (data st)).
Proof.
  intros Hclock Hrun.
  apply (wellIdentified_handlers dev w0 Hclock) in Hrun.
  - apply Hrun.
  - unfold Run.wellIdentified, initial. cbn [fst snd data map].
    split; [reflexivity |]. split; constructor.
Qed.

(** a.pdf and c.pdf picked together, then a.pdf once more, with a clock
    that moves on. *)
Lemma sample_run :
  Run.clockNeverRepeats Samples.ticking
  /\ Run.handlers (L := Demo.lib) Demo.device
       (initial, Samples.ticking) (fst Samples.twice, snd Samples.twice).
Proof.
  split.
  - intros n m H. cbn [clock Samples.ticking] in H. lia.
  - apply (Run.run_then _ _ (fst Samples.once, snd Samples.once));
      [apply (Run.run_then _ _ (initial, Samples.ticking));
       [apply Run.run_none |] |].
    + apply (Run.run_pick _
               (Picked [Demo.asset "a.pdf"; Demo.asset "c.pdf"])).
      reflexivity.
    + apply (Run.run_pick _ (Picked [Demo.asset "a.pdf"])).
      reflexivity.
Qed.

Lemma session_ids_distinct_witness :
  map id (data (fst Samples.twice))
  = [str "1700000000000-0"; str "1700000000001-1"; str "1700000000002-0"]
  /\ NoDup (map id (data (fst Samples.twice))).
Proof.
  split; [vm_compute; reflexivity |].
  apply (session_ids_distinct (L := Demo.lib) Demo.device Samples.ticking
           (fst Samples.twice) (snd Samples.twice));
    apply sample_run.
Defined.

(* ===================================================================== *)
(** ** What a merge leaves behind *)
(* ===================================================================== *)

(** X9.  [buildMergedPdf] shows no dialog and shares nothing.  When it
    fails, no file has changed and the error is logged once.  When it
    succeeds, every item has loaded; it returns the output location, the
    save directory followed by the name; that location is the only one
    whose content may have changed, and it holds the merged document as
    saved: the pages of the documents the items load as, in list
    order. *)
Theorem buildMergedPdf_changes_only_output {L : PdfLib} (dev : Device)
  (items : list PdfItem) (finalName : jsstring) (w : World)
  (r : result jsstring) (w' : World) :
  buildMergedPdf (L := L) dev items finalName w = (r, w') ->
  alerts w' = alerts w /\ shared w' = shared w
  /\ match r with
     | Throw e =>
         files w' = files w
         /\ console w' = console w ++ [log_merge_error ++ e]
     | Ok uri =>
         console w' = console w
         /\ (exists dir, Spec.saveDir dev dir /\ uri = dir ++ finalName)
         /\ (forall u, u <> uri -> files w' u = files w u)
         /\ exists docs : list (list (Page L)),
              Forall2 (Spec.loadsAs (L := L) w) items docs
              /\ files w' uri
                 = Ok (uint8ArrayToBase64
                         (PDFDocument.save (List.concat docs)))
     end.
Proof.
  intros H. apply buildMergedPdf_world in H.
  destruct H as (_ & _ & Ha & Hs & _ & H).
  split; [exact Ha |]. split; [exact Hs |].
  destruct r as [uri | e]; [| exact H].
  destruct H as (Hc & dir & merged & Hdir & -> & Hloop & Hfiles).
  split; [exact Hc |]. split; [now exists dir |]. rewrite Hfiles. split.
  - intros u Hu. now apply put_other.
  - apply buildMergedPdf_loop_inv in Hloop.
    destruct Hloop as (docs & Hload & ->). exists docs.
    split; [exact Hload |]. cbn [app PDFDocument.create]. apply put_same.
Qed.

(** A merge of a.pdf with b.pdf, which is no PDF: nothing is written. *)
Lemma buildMergedPdf_changes_only_output_witness :
  fst (buildMergedPdf (L := Demo.lib) Demo.device (data Demo.ten)
         (str "a_merged.pdf") Demo.world)
  = Throw (str "Failed to parse PDF document")
  /\ files (snd (buildMergedPdf (L := Demo.lib) Demo.device (data Demo.ten)
                   (str "a_merged.pdf") Demo.world))
     = files Demo.world.
Proof.
  split; [vm_compute; reflexivity |].
  assert (E : buildMergedPdf (L := Demo.lib) Demo.device (data Demo.ten)
                (str "a_merged.pdf") Demo.world
              = (Throw (str "Failed to parse PDF document"),
                 snd (buildMergedPdf (L := Demo.lib) Demo.device
                        (data Demo.ten) (str "a_merged.pdf") Demo.world))).
  { reflexivity. }
  apply (buildMergedPdf_changes_only_output (L := Demo.lib)) in E.
  apply E.
Defined.

Section Buttons.
Context {L : PdfLib}.
Variable dev : Device.

Lemma save_onPress_returns (finalName : jsstring) (items : list PdfItem)
  (st : State) (w : World) :
  fst (save_onPress (L := L) dev finalName items st w)
  = Ok (setMerging false (setMerging true st)).
Proof.
  unfold save_onPress, IO.bind at 1, IO.tryCatch, IO.bind at 1.
  destruct (buildMergedPdf dev items finalName w) as [[u | e] w1];
    reflexivity.
Qed.

Lemma share_onPress_returns (finalName : jsstring) (items : list PdfItem)
  (st : State) (w : World) :
  fst (share_onPress (L := L) dev finalName items st w)
  = Ok (setMerging false (setMerging true st)).
Proof.
  unfold share_onPress, IO.bind at 1, IO.tryCatch, IO.bind at 1.
  destruct (buildMergedPdf dev items finalName w) as [[u | e] w1];
    [destruct (Platform_OS dev); unfold Sharing_shareAsync;
     try destruct (shareError w1 u) |];
    reflexivity.
Qed.

(** X10.  The save button always runs to its end: it returns, with the
    item list and the name field as they were and [merging] false, having
    shown exactly one dialog and shared nothing.  The dialog is the
    completion notice when the merge succeeded; when it failed, it is the
    failure notice with the message of the error, and no file has
    changed. *)
Theorem save_onPress_outcome (finalName : jsstring) (items : list PdfItem)
  (st : State) (w : World) :
  exists st' w',
    save_onPress (L := L) dev finalName items st w = (Ok st', w')
    /\ data st' = data st /\ fileName st' = fileName st
    /\ merging st' = false
    /\ shared w' = shared w
    /\ match buildMergedPdf (L := L) dev items finalName w with
       | (Ok _, w1) =>
           alerts w' = alerts w ++ [ {| title := title_done;
                                        message := Some msg_saved;
                                        buttons := [] |} ]
           /\ files w' = files w1
       | (Throw e, _) =>
           alerts w' = alerts w ++ [ {| title := title_save_failed;
                                        message := Some e;
                                        buttons := [] |} ]
           /\ files w' = files w
       end.
Proof.
  unfold save_onPress, IO.bind at 1, IO.tryCatch, IO.bind at 1.
  destruct (buildMergedPdf dev items finalName w) as [[u | e] w1] eqn:Hb;
    apply buildMergedPdf_world in Hb;
    destruct Hb as (_ & _ & Ha & Hs & _ & Hr);
    unfold Alert_alert, IO.update, IO.ret;
    eexists; eexists; (split; [reflexivity |]);
    cbn [data fileName merging setMerging shared alerts files push_alert];
    rewrite Ha, Hs; repeat split; apply Hr.
Qed.

(** X11.  The share button always runs to its end, with the item list and
    the name field as they were and [merging] false.  When the merge
    succeeded, the file stays written, and: off the web the output
    location is handed to the share sheet; when that resolves, the
    location is shared and no dialog is shown, and when it rejects,
    nothing is shared and one dialog shows the message of its error; on
    the web nothing is shared and one dialog says so.  When the merge
    failed, nothing is shared, no file has changed, and one dialog shows
    the message of the error. *)
Theorem share_onPress_outcome (finalName : jsstring) (items : list PdfItem)
  (st : State) (w : World) :
  exists st' w',
    share_onPress (L := L) dev finalName items st w = (Ok st', w')
    /\ data st' = data st /\ fileName st' = fileName st
    /\ merging st' = false
    /\ match buildMergedPdf (L := L) dev items finalName w with
       | (Ok uri, w1) =>
           files w' = files w1
           /\ match Platform_OS dev with
              | web =>
                  shared w' = shared w
                  /\ alerts w' = alerts w ++ [ {| title := title_no_web_share;
                                                  message := None;
                                                  buttons := [] |} ]
              | _ =>
                  match shareError w uri with
                  | None =>
                      shared w' = shared w ++ [uri] /\ alerts w' = alerts w
                  | Some e =>
                      shared w' = shared w
                      /\ alerts w' = alerts w
                                     ++ [ {| title := title_share_failed;
                                             message := Some e;
                                             buttons := [] |} ]
                  end
              end
       | (Throw e, _) =>
           shared w' = shared w
           /\ alerts w' = alerts w ++ [ {| title := title_share_failed;
                                           message := Some e;
                                           buttons := [] |} ]
           /\ files w' = files w
       end.
Proof.
  unfold share_onPress, IO.bind at 1, IO.tryCatch, IO.bind at 1.
  destruct (buildMergedPdf dev items finalName w) as [[u | e] w1] eqn:Hb;
    pose proof (buildMergedPdf_shareError dev _ _ _ _ _ Hb) as Hshare;
    apply buildMergedPdf_world in Hb;
    destruct Hb as (_ & _ & Ha & Hs & _ & Hr);
    [destruct (Platform_OS dev); unfold Sharing_shareAsync;
     rewrite ?Hshare; try destruct (shareError w u) |];
    unfold Alert_alert, IO.update, IO.ret;
    eexists; eexists; (split; [reflexivity |]);
    cbn [data fileName merging setMerging shared alerts files push_alert];
    rewrite Ha, Hs; repeat split; apply Hr.
Qed.

(** X12.  Between handlers [merging] is false: the merge button is never
    left disabled, whatever was picked, removed, reordered, typed or
    pressed, and whether merges succeeded or failed. *)
Theorem merging_false_between_handlers (w0 : World) (st : State)
  (w : World) :
  Run.handlers (L := L) dev (initial, w0) (st, w) -> merging st = false.
Proof.
  intros Hrun.
  remember (initial, w0) as s0 eqn:E0. remember (st, w) as s eqn:E.
  revert st w E. induction Hrun as [s | s s' s'' Hrun IH Hstep];
    intros st w E; subst.
  - injection E as <- _. reflexivity.
  - destruct s' as [st1 w1]. specialize (IH eq_refl st1 w1 eq_refl).
    inversion Hstep as [result a b c d Hpick | i a c
      | data' a b c Hperm Hdrag | text a c | a c d Hmerge
      | bt a b c d Hpress]; subst.
    + destruct result as [| assets]; cbn [pickPdf] in Hpick.
      * unfold IO.ret in Hpick. congruence.
      * unfold IO.tryCatch, IO.bind at 1 in Hpick.
        destruct (pickPdf_loop dev assets 0 [] w1) as [[new | e] w2].
        -- unfold IO.ret in Hpick. injection Hpick as <- _. exact IH.
        -- unfold IO.bind, console_error, Alert_alert, IO.update, IO.ret
             in Hpick.
           injection Hpick as <- _. exact IH.
    + exact IH.
    + unfold onDragEnd in Hdrag. injection Hdrag as <-. exact IH.
    + exact IH.
    + exact IH.
    + unfold press in Hpress.
      destruct (onPress bt) as [[i | n d0 | n d0] |].
      * unfold IO.ret in Hpress. injection Hpress as <- _. exact IH.
      * pose proof (save_onPress_returns n d0 st1 w1) as Hs.
        rewrite Hpress in Hs. injection Hs as ->. reflexivity.
      * pose proof (share_onPress_returns n d0 st1 w1) as Hs.
        rewrite Hpress in Hs. injection Hs as ->. reflexivity.
      * unfold IO.ret in Hpress. injection Hpress as <- _. exact IH.
Qed.

End Buttons.

(** The sample run of two picks leaves the merge button enabled. *)
Lemma merging_false_between_handlers_witness :
  merging (fst Samples.twice) = false.
Proof.
  apply (merging_false_between_handlers (L := Demo.lib) Demo.device
           Samples.ticking (fst Samples.twice) (snd Samples.twice)).
  apply sample_run.
Defined.

(* ===================================================================== *)
(** ** Removing an item, and the rows of the list *)
(* ===================================================================== *)

(** X13.  In a session whose ids are pairwise different, the delete button
    of an item removes that item and no other, the rest staying in order;
    the name field is then the default name of what remains.  Removing an
    id the session does not hold leaves the items as they are. *)
Theorem removePdf_onPress_removes_one (st : State)
  (pre post : list PdfItem) (item : PdfItem) :
  data st = pre ++ item :: post ->
  NoDup (map id (data st)) ->
  data (removePdf_onPress (id item) st) = pre ++ post
  /\ fileName (removePdf_onPress (id item) st)
     = getDefaultMergedName (pre ++ post)
  /\ forall i, ~ In i (map id (data st)) ->
       data (removePdf_onPress i st) = data st.
Proof.
  intros Hdata Hnodup.
  assert (Hrem : filter (fun p => negb (JS.eqb (id p) (id item))) (data st)
                 = pre ++ post).
  { rewrite Hdata in Hnodup |- *. rewrite map_app in Hnodup.
    cbn [map] in Hnodup. apply NoDup_remove in Hnodup.
    destruct Hnodup as [_ Hnotin]. rewrite filter_app. cbn [filter].
    rewrite eqb_refl. cbn [negb]. rewrite <- filter_app.
    apply filter_fresh_id. now rewrite map_app. }
  unfold removePdf_onPress, setData. cbn [data fileName].
  rewrite Hrem. split; [reflexivity |]. split; [reflexivity |].
  intros i Hi. now apply filter_fresh_id.
Qed.

(** Removing a.pdf from the session of a.pdf and b.pdf. *)
Lemma removePdf_onPress_removes_one_witness :
  data (removePdf_onPress (str "1700000000000-0") Demo.ten)
  = [Demo.item "1700000000000-1" "b.pdf" 6]
  /\ fileName (removePdf_onPress (str "1700000000000-0") Demo.ten)
     = str "b_merged.pdf".
Proof.
  destruct (removePdf_onPress_removes_one Demo.ten []
              [Demo.item "1700000000000-1" "b.pdf" 6]
              (Demo.item "1700000000000-0" "a.pdf" 4))
    as (Hd & Hn & _).
  - reflexivity.
  - cbn [data Demo.ten Demo.session map id Demo.item].
    constructor; [| constructor; [intros [] | constructor]].
    intros [E | []]. discriminate E.
  - split; [exact Hd | exact Hn].
Defined.

Lemma findIndex_from_bounds {A} (pred : A -> bool) (a : list A) :
  forall i n x,
  nth_error a n = Some x -> pred x = true ->
  i <= AppView.findIndex_from pred a i <= i + Z.of_nat n.
Proof.
  induction a as [| y r IH]; intros i n x Hn Hx;
    [destruct n; discriminate |].
  cbn [AppView.findIndex_from]. destruct (pred y) eqn:Hy; [lia |].
  destruct n as [| n]; cbn [nth_error] in Hn; [congruence |].
  pose proof (IH (i + 1) n x Hn Hx). lia.
Qed.

Lemma findIndex_from_first {A} (pred : A -> bool) (a : list A) :
  forall i n x,
  nth_error a n = Some x -> pred x = true ->
  (forall m y, (m < n)%nat -> nth_error a m = Some y -> pred y = false) ->
  AppView.findIndex_from pred a i = i + Z.of_nat n.
Proof.
  induction a as [| y r IH]; intros i n x Hn Hx Hbefore;
    [destruct n; discriminate |].
  cbn [AppView.findIndex_from]. destruct n as [| n]; cbn [nth_error] in Hn.
  - injection Hn as ->. rewrite Hx. lia.
  - rewrite (Hbefore 0%nat y) by (reflexivity || lia).
    rewrite (IH (i + 1) n x Hn Hx); [lia |].
    intros m z Hm Hz. apply (Hbefore (S m) z); [lia | exact Hz].
Qed.

(** X14.  The row of the item at position [n] (from 0) shows the item's
    name and a number between 1 and [n + 1]; in a session whose ids are
    pairwise different the number is [n + 1], so the rows are numbered 1,
    2, 3, ... from the top. *)
Theorem rows_numbered_from_one (items : list PdfItem) (n : nat)
  (row : AppView.Row) :
  nth_error (AppView.rows items) n = Some row ->
  (exists item, nth_error items n = Some item
                /\ AppView.row_name row = name item)
  /\ 1 <= AppView.row_number row <= Z.of_nat n + 1
  /\ (NoDup (map id items) -> AppView.row_number row = Z.of_nat n + 1).
Proof.
  unfold AppView.rows. rewrite nth_error_map.
  destruct (nth_error items n) as [item |] eqn:Hn; [| discriminate].
  cbn [option_map]. intros H. injection H as <-.
  unfold AppView.renderItem.
  cbn [AppView.row_name AppView.row_number]. unfold AppView.findIndex.
  split; [now exists item |]. split.
  - pose proof (findIndex_from_bounds
                  (fun p => JS.eqb (id p) (id item)) items 0 n item Hn
                  (eqb_refl _)).
    lia.
  - intros Hnodup.
    rewrite (findIndex_from_first
               (fun p => JS.eqb (id p) (id item)) items 0 n item Hn
               (eqb_refl _)); [lia |].
    intros m y Hm Hy. destruct (JS.eqb (id y) (id item)) eqn:E;
      [| reflexivity].
    apply eqb_eq in E. exfalso.
    assert (Hmn : m = n); [| lia].
    apply (proj1 (NoDup_nth_error (map id items)) Hnodup).
    + rewrite length_map. apply nth_error_Some. congruence.
    + rewrite !nth_error_map, Hn, Hy. cbn [option_map]. congruence.
Qed.

(** The second row of the session of a.pdf and b.pdf. *)
Lemma rows_numbered_from_one_witness :
  exists row,
    nth_error (AppView.rows (data Demo.ten)) 1 = Some row
    /\ AppView.row_number row = 2
    /\ AppView.row_name row = str "b.pdf".
Proof.
  eexists. split; [reflexivity |].
  destruct (rows_numbered_from_one (data Demo.ten) 1 _ eq_refl)
    as (_ & _ & Hnum).
  split; [| reflexivity].
  apply Hnum. cbn [data Demo.ten Demo.session map id Demo.item].
  constructor; [| constructor; [intros [] | constructor]].
  intros [E | []]. discriminate E.
Defined.

(* ===================================================================== *)
(** ** The name offered, and merging what was picked *)
(* ===================================================================== *)

(** X15.  The name a merge is offered under is never blank: when the
    commit passes validation, the dialog names a file whose name has a
    character that is not white space, whatever the name field holds. *)
Theorem onPressMerge_name_not_blank (st : State) :
  2 <= length (data st) ->
  totalPages (data st) <= MAX_TOTAL_PAGES ->
  exists finalName,
    Spec.shows st (Spec.confirmAlert finalName (data st))
    /\ Spec.blank finalName = false.
Proof.
  intros Hlen Htotal.
  pose proof (onPressMerge_passes st Hlen Htotal) as H.
  rewrite trim_blank in H. eexists. split; [exact H |].
  destruct (Spec.blank (fileName st)) eqn:Hb; cbn [negb]; [| exact Hb].
  destruct (data st) as [| first rest];
    [change (length (@nil PdfItem)) with 0 in Hlen; lia |].
  cbn [getDefaultMergedName]. unfold Spec.blank.
  rewrite forallb_app. apply Bool.andb_false_iff. right. reflexivity.
Qed.

(** Two documents and a name field of three spaces. *)
Lemma onPressMerge_name_not_blank_witness :
  exists finalName,
    Spec.shows (Demo.two_ok (str "   "))
      (Spec.confirmAlert finalName (data (Demo.two_ok (str "   "))))
    /\ Spec.blank finalName = false.
Proof.
  apply (onPressMerge_name_not_blank (Demo.two_ok (str "   ")));
    vm_compute; discriminate.
Defined.

Section PickThenMerge.
Context {L : PdfLib}.
Variable dev : Device.

Lemma pickPdf_loop_inv assets :
  forall i acc w items' w',
  pickPdf_loop (L := L) dev assets i acc w = (Ok items', w') ->
  exists items,
    items' = acc ++ items
    /\ Spec.loadsBatch (L := L) dev assets i w items w'.
Proof.
  induction assets as [| file rest IH]; intros i acc w items' w'.
  - cbn [pickPdf_loop]. unfold IO.ret. intros H. injection H as <- <-.
    exists []. split; [now rewrite app_nil_r | constructor].
  - cbn [pickPdf_loop]. unfold IO.bind at 1.
    destruct (pickPdf_item dev file i w) as [[item | e] w1] eqn:Hitem;
      [| discriminate].
    intros Hrest. apply IH in Hrest. destruct Hrest as (items & -> & Hb).
    exists (item :: items). split; [now rewrite <- app_assoc |].
    econstructor; eassumption.
Qed.

(** X16.  Off Android, what a first pick put in the session can be merged
    at once: where the output location can be written, [buildMergedPdf]
    on the items of the session succeeds and writes the serialization of
    a document that has as many pages as the total the session shows, or,
    when that total is 0, the one blank page the library adds on saving.
    Where the library parses what it serializes, the file written reads
    back as that document. *)
Theorem picked_session_merges (assets : list Asset) (w : World)
  (st' : State) (w' : World) (dir finalName : jsstring) :
  Platform_OS dev <> android ->
  pickPdf (L := L) dev (Picked assets) initial w = (Ok st', w') ->
  Spec.saveDir dev dir ->
  writeError w' (dir ++ finalName) = None ->
  exists (written : list (Page L)) (w'' : World),
    buildMergedPdf (L := L) dev (data st') finalName w'
    = (Ok (dir ++ finalName), w'')
    /\ files w'' (dir ++ finalName)
       = Ok (uint8ArrayToBase64 (PDFWriter_serializeToBuffer L written))
    /\ length written = Z.max 1 (totalPages (data st'))
    /\ (totalPages (data st') = 0 -> written = [PDFPage_create L])
    /\ ((forall d,
           PDFDocument_load L (PDFWriter_serializeToBuffer L d) = Ok d) ->
        Spec.loadsAs (L := L) w''
          {| id := []; name := finalName; uri := dir ++ finalName;
             pages := length written |}
          written).
Proof.
  intros Hos Hpick Hdir Hwrite.
  assert (Hdocs : exists docs : list (list (Page L)),
            Forall2 (Spec.loadsAs (L := L) w') (data st') docs
            /\ Forall2 (fun item doc => pages item = length doc)
                 (data st') docs).
  { cbn [pickPdf] in Hpick. unfold IO.tryCatch, IO.bind at 1 in Hpick.
    destruct (pickPdf_loop dev assets 0 [] w) as [[items | e] w1] eqn:Hloop.
    - unfold IO.ret in Hpick. injection Hpick as <- <-.
      apply pickPdf_loop_inv in Hloop. destruct Hloop as (new & -> & Hb).
      cbn [setData data initial app].
      destruct (loadsBatch_loads dev assets Hos _ _ _ _ Hb)
        as (_ & docs & H1 & H2).
      now exists docs.
    - unfold IO.bind, console_error, Alert_alert, IO.update, IO.ret
        in Hpick.
      injection Hpick as <- <-. exists []. split; constructor. }
  destruct Hdocs as (docs & Hload & Hpages).
  pose proof (length_concat_docs _ _ Hpages) as Hlen.
  rewrite <- totalPages_sum in Hlen.
  exists (PDFDocument.prepareForSave (List.concat docs)).
  eexists.
  split; [exact (buildMergedPdf_writes dev w' (data st') docs finalName dir
                   Hdir Hload Hwrite) |].
  assert (Hfile :
    files (set_files
             (FileSystem.put (dir ++ finalName)
                (uint8ArrayToBase64 (PDFDocument.save (List.concat docs)))
                (files w')) w') (dir ++ finalName)
    = Ok (uint8ArrayToBase64
            (PDFWriter_serializeToBuffer L
               (PDFDocument.prepareForSave (List.concat docs))))).
  { cbn [files set_files]. apply put_same. }
  split; [exact Hfile |].
  assert (Hprep :
    PDFDocument.prepareForSave (List.concat docs)
    = if totalPages (data st') =? 0 then [PDFPage_create L]
      else List.concat docs).
  { unfold PDFDocument.prepareForSave, PDFDocument.getPageCount.
    rewrite Hlen. destruct (totalPages (data st') =? 0) eqn:E;
      [| reflexivity].
    apply Z.eqb_eq in E. rewrite E in Hlen.
    destruct (List.concat docs) as [| p r]; [reflexivity |].
    unfold length in Hlen. cbn [List.length] in Hlen. lia. }
  split; [| split].
  - rewrite Hprep. pose proof (length_nonneg (List.concat docs)) as Hnn.
    destruct (Z.eqb_spec (totalPages (data st')) 0) as [E | NE].
    + rewrite E. reflexivity.
    + rewrite Hlen. lia.
  - intros E. rewrite Hprep, E. reflexivity.
  - intros Hparse. now apply serialized_loadsAs.
Qed.

End PickThenMerge.

(** a.pdf (2 pages) and c.pdf (3 pages) picked and merged on the demo
    device: the file written reads back as a document of 5 pages. *)
Lemma picked_session_merges_witness :
  exists (written : list byte) (w'' : World),
    buildMergedPdf (L := Demo.lib) Demo.device (data (fst Samples.once))
      (str "out.pdf") (snd Samples.once)
    = (Ok (str "file:///cache/out.pdf"), w'')
    /\ length written = 5
    /\ Spec.loadsAs (L := Demo.lib) w''
         {| id := []; name := str "out.pdf";
            uri := str "file:///cache/out.pdf"; pages := length written |}
         written.
Proof.
  destruct (picked_session_merges (L := Demo.lib) Demo.device
              [Demo.asset "a.pdf"; Demo.asset "c.pdf"] Samples.ticking
              (fst Samples.once) (snd Samples.once)
              (str "file:///cache/") (str "out.pdf"))
    as (written & w'' & Hrun & _ & Hlen & _ & Hback).
  - discriminate.
  - reflexivity.
  - split; [left; reflexivity | discriminate].
  - reflexivity.
  - exists written, w''. split; [exact Hrun |].
    split; [exact Hlen |]. apply Hback. intros d. reflexivity.
Defined.
